(** * HWNP firmware container codec: a shallow embedding of
    [tools/firmware-editor/firmware_editor.py] and the properties of its
    parse / mutate / patch / checksum / save path.

    Buffers are lists of bytes, Python integers are [N], Python [str] values
    are lists of code points, and the methods of [HWNPFirmware] are state
    passing functions that return either an exception or a result together
    with the (possibly mutated) object. *)

From Stdlib Require Import NArith Lia List Bool String Ascii.
From Stdlib.Strings Require Import Byte.
From stdpp Require Import base list.
Import ListNotations.

Local Open Scope N_scope.

(** ** Bytes, text and Python slices *)

Abbreviation bytes := (list byte).

#[global] Instance byte_eq_decision : EqDecision byte.
Proof.
  intros x y. destruct (Byte.eqb x y) eqn:E.
  - left. by apply Byte.byte_dec_bl.
  - right. by apply Byte.eqb_false.
Defined.

(** A Python [str]: a sequence of Unicode code points. *)
Definition char := N.
Abbreviation str := (list N).

(** Text literal of the source as a [str]. *)
Definition lit (s : string) : str :=
  map N_of_ascii (list_ascii_of_string s).

Definition byte_of_N (n : N) : byte :=
  match Byte.of_N (n mod 256) with
  | Some b => b
  | None => x00
  end.

(** [len(x)] *)
Definition len {A} (l : list A) : N := N.of_nat (length l).

(** Slice bounds are clamped to the length of the sequence. *)
Definition clamp {A} (l : list A) (i : N) : nat :=
  N.to_nat (N.min i (len l)).

(** [l[a:b]] for non-negative [a], [b]. *)
Definition slice {A} (l : list A) (a b : N) : list A :=
  take (clamp l b - clamp l a)%nat (drop (clamp l a) l).

(** [l[a:]] *)
Definition slice_from {A} (l : list A) (a : N) : list A :=
  drop (clamp l a) l.

(** [l[a:b] = v] on a [bytearray]: the (clamped) slice is replaced by [v],
    whatever the length of [v]; the buffer can grow. *)
Definition slice_assign {A} (l : list A) (a b : N) (v : list A) : list A :=
  take (clamp l a) l ++ v ++ drop (Nat.max (clamp l a) (clamp l b)) l.

(** [x in l] for a byte in a byte sequence. *)
Definition byte_in (x : byte) (l : bytes) : bool :=
  existsb (Byte.eqb x) l.

(** [l.index(x)]: position of the first occurrence. *)
Fixpoint index_of (x : byte) (l : bytes) : option N :=
  match l with
  | [] => None
  | y :: t => if Byte.eqb x y then Some 0
              else match index_of x t with
                   | Some k => Some (k + 1)
                   | None => None
                   end
  end.

(** [l.index(x, start)] *)
Definition index_from (x : byte) (start : N) (l : bytes) : option N :=
  match index_of x (slice_from l start) with
  | Some k => Some (N.of_nat (clamp l start) + k)
  | None => None
  end.

(** ** Exceptions and the state-and-error monad of the methods *)

Inductive exn :=
| ValueError_magic          (* "Not a valid HWNP file" *)
| ValueError_pid_too_long   (* "Product ID string too long" *)
| ValueError_too_large      (* "New data too large" *)
| ValueError_not_found      (* bytearray.index without occurrence *)
| StructError               (* struct.error: wrong buffer size *)
| IndexError                (* list index out of range *)
| UnicodeEncodeError.       (* str.encode("ascii") on a non-ASCII str *)

Definition result (A : Type) : Type := exn + A.

Definition rbind {A B} (r : result A) (k : A -> result B) : result B :=
  match r with
  | inl e => inl e
  | inr a => k a
  end.

Notation "'let?' x ':=' r 'in' k" := (rbind r (fun x => k))
  (at level 10, x pattern, r at level 100, k at level 200).

(** ** struct.pack / struct.unpack for 32-bit unsigned integers *)

Definition le_value (l : bytes) : N :=
  fold_right (fun b acc => Byte.to_N b + 256 * acc) 0 l.

Definition be_value (l : bytes) : N :=
  fold_left (fun acc b => 256 * acc + Byte.to_N b) l 0.

(** [struct.unpack("<I", l)[0]] *)
Definition unpack_le32 (l : bytes) : result N :=
  if (length l =? 4)%nat then inr (le_value l) else inl StructError.

(** [struct.unpack(">I", l)[0]] *)
Definition unpack_be32 (l : bytes) : result N :=
  if (length l =? 4)%nat then inr (be_value l) else inl StructError.

(** The four bytes [struct.pack("<I", v)] for [v < 2^32]. *)
Definition pack_le32 (v : N) : bytes :=
  [byte_of_N v; byte_of_N (N.shiftr v 8);
   byte_of_N (N.shiftr v 16); byte_of_N (N.shiftr v 24)].

(** ** CRC-32 ([binascii.crc32], reflected polynomial 0xEDB88320) *)

Definition crc_poly : N := 0xEDB88320.

Definition crc_shift (c : N) : N :=
  if N.testbit c 0 then N.lxor (N.shiftr c 1) crc_poly else N.shiftr c 1.

Definition crc_byte (c : N) (b : byte) : N :=
  Nat.iter 8 crc_shift (N.lxor c (Byte.to_N b)).

Definition binascii_crc32 (data : bytes) : N :=
  N.lxor (fold_left crc_byte data 0xFFFFFFFF) 0xFFFFFFFF.

(** [crc32(data)] of the source. *)
Definition crc32 (data : bytes) : N :=
  N.land (binascii_crc32 data) 0xFFFFFFFF.

(** Bytes of an ASCII literal, for examples. *)
Definition blit (s : string) : bytes :=
  map (fun a => byte_of_N (N_of_ascii a)) (list_ascii_of_string s).

(** ** SHA-256 ([hashlib.sha256]), FIPS 180-4 *)

Module SHA256.

Definition mask32 : N := 0xFFFFFFFF.
Definition trunc32 (x : N) : N := N.land x mask32.
Definition add32 (x y : N) : N := trunc32 (x + y).
Definition rotr (n x : N) : N :=
  N.lor (N.shiftr x n) (trunc32 (N.shiftl x (32 - n))).
Definition not32 (x : N) : N := N.lxor x mask32.

Definition ch (x y z : N) : N := N.lxor (N.land x y) (N.land (not32 x) z).
Definition maj (x y z : N) : N :=
  N.lxor (N.lxor (N.land x y) (N.land x z)) (N.land y z).
Definition bsig0 (x : N) : N := N.lxor (N.lxor (rotr 2 x) (rotr 13 x)) (rotr 22 x).
Definition bsig1 (x : N) : N := N.lxor (N.lxor (rotr 6 x) (rotr 11 x)) (rotr 25 x).
Definition ssig0 (x : N) : N := N.lxor (N.lxor (rotr 7 x) (rotr 18 x)) (N.shiftr x 3).
Definition ssig1 (x : N) : N := N.lxor (N.lxor (rotr 17 x) (rotr 19 x)) (N.shiftr x 10).

(** The round constants are the fractional parts of the cube roots of the
    first 64 primes, the initial state those of the square roots of the
    first 8; both are computed here rather than tabulated. *)
Definition primes : list N :=
  [2; 3; 5; 7; 11; 13; 17; 19; 23; 29; 31; 37; 41; 43; 47; 53; 59; 61; 67;
   71; 73; 79; 83; 89; 97; 101; 103; 107; 109; 113; 127; 131; 137; 139;
   149; 151; 157; 163; 167; 173; 179; 181; 191; 193; 197; 199; 211; 223;
   227; 229; 233; 239; 241; 251; 257; 263; 269; 271; 277; 281; 283; 293;
   307; 311].

(** Integer cube root by bisection on the bits of the result. *)
Fixpoint cbrt_bits (bit : nat) (n r : N) : N :=
  match bit with
  | O => r
  | S b =>
      let r' := r + N.shiftl 1 (N.of_nat b) in
      cbrt_bits b n (if r' * r' * r' <=? n then r' else r)
  end.

Definition round_constants : list N :=
  Eval vm_compute in
    map (fun p => trunc32 (cbrt_bits 40 (p * 2 ^ 96) 0)) primes.

Definition initial_state : list N :=
  Eval vm_compute in
    map (fun p => trunc32 (N.sqrt (p * 2 ^ 64))) (take 8 primes).

(** Padding: a 1 bit, zeros up to 56 mod 64, the bit length on 8 bytes. *)
Definition be_bytes (n : nat) (v : N) : list N :=
  map (fun i => N.shiftr v (8 * N.of_nat i) mod 256) (rev (seq 0 n)).

Definition pad (msg : list N) : list N :=
  let l := length msg in
  let k := ((64 - (l + 9) mod 64) mod 64)%nat in
  msg ++ [0x80] ++ replicate k 0 ++ be_bytes 8 (8 * len msg).

Definition word_of (l : list N) : N :=
  fold_left (fun acc b => 256 * acc + b) l 0.

Fixpoint words (n : nat) (l : list N) : list N :=
  match n with
  | O => []
  | S n' => word_of (take 4 l) :: words n' (drop 4 l)
  end.

(** Message schedule: [win] holds the last 16 words, oldest first. *)
Fixpoint schedule (n : nat) (win : list N) : list N :=
  match n with
  | O => []
  | S n' =>
      let w := add32 (add32 (ssig1 (nth 14 win 0)) (nth 9 win 0))
                     (add32 (ssig0 (nth 1 win 0)) (nth 0 win 0)) in
      w :: schedule n' (drop 1 win ++ [w])
  end.

Definition round (st : list N) (kw : N * N) : list N :=
  match st with
  | [a; b; c; d; e; f; g; h] =>
      let t1 := add32 (add32 (add32 h (bsig1 e)) (add32 (ch e f g) (fst kw))) (snd kw) in
      let t2 := add32 (bsig0 a) (maj a b c) in
      [add32 t1 t2; a; b; c; add32 d t1; e; f; g]
  | _ => st
  end.

Definition compress (st : list N) (block : list N) : list N :=
  let w16 := words 16 block in
  let w := w16 ++ schedule 48 w16 in
  zip_with add32 st (fold_left round (zip round_constants w) st).

Fixpoint blocks (n : nat) (l : list N) (st : list N) : list N :=
  match n with
  | O => st
  | S n' => blocks n' (drop 64 l) (compress st (take 64 l))
  end.

Definition digest_words (msg : bytes) : list N :=
  let p := pad (map Byte.to_N msg) in
  blocks (length p / 64) p initial_state.

(** Lowercase hexadecimal digit, as a code point. *)
Definition hex_lower (d : N) : N := if d <? 10 then 48 + d else 87 + d.

Definition hex_word (w : N) : str :=
  map (fun i => hex_lower (N.shiftr w (4 * N.of_nat i) mod 16)) (rev (seq 0 8)).

(** [hashlib.sha256(msg).hexdigest()] *)
Definition hexdigest (msg : bytes) : str :=
  concat (map hex_word (digest_words msg)).

End SHA256.

(** ** Text codecs *)

(** [b.decode("ascii", errors="replace")]: one code point per byte, every
    byte above 0x7F becomes U+FFFD. *)
Definition decode_ascii_replace (b : bytes) : str :=
  map (fun x => if Byte.to_N x <? 128 then Byte.to_N x else 0xFFFD) b.

(** [s.encode("ascii")] *)
Definition encode_ascii (s : str) : result bytes :=
  if forallb (fun c => c <? 128) s then inr (map byte_of_N s)
  else inl UnicodeEncodeError.

Definition is_cont (b : N) : bool := (0x80 <=? b) && (b <=? 0xBF).
Definition in_range (lo hi b : N) : bool := (lo <=? b) && (b <=? hi).

(** [b.decode("utf-8")], strict: [None] stands for [UnicodeDecodeError].
    Overlong forms, surrogates and code points above U+10FFFF are refused. *)
Fixpoint decode_utf8 (b : bytes) : option str :=
  match b with
  | [] => Some []
  | b0 :: t0 =>
      let c0 := Byte.to_N b0 in
      if c0 <? 0x80 then option_map (cons c0) (decode_utf8 t0)
      else match t0 with
      | [] => None
      | b1 :: t1 =>
          let c1 := Byte.to_N b1 in
          if in_range 0xC2 0xDF c0 then
            if is_cont c1
            then option_map (cons ((c0 - 0xC0) * 64 + (c1 - 0x80))) (decode_utf8 t1)
            else None
          else match t1 with
          | [] => None
          | b2 :: t2 =>
              let c2 := Byte.to_N b2 in
              if in_range 0xE0 0xEF c0 then
                if (if c0 =? 0xE0 then in_range 0xA0 0xBF c1
                    else if c0 =? 0xED then in_range 0x80 0x9F c1
                    else is_cont c1) && is_cont c2
                then option_map
                       (cons ((c0 - 0xE0) * 4096 + (c1 - 0x80) * 64 + (c2 - 0x80)))
                       (decode_utf8 t2)
                else None
              else match t2 with
              | [] => None
              | b3 :: t3 =>
                  let c3 := Byte.to_N b3 in
                  if in_range 0xF0 0xF4 c0 then
                    if (if c0 =? 0xF0 then in_range 0x90 0xBF c1
                        else if c0 =? 0xF4 then in_range 0x80 0x8F c1
                        else is_cont c1) && is_cont c2 && is_cont c3
                    then option_map
                           (cons ((c0 - 0xF0) * 262144 + (c1 - 0x80) * 4096
                                  + (c2 - 0x80) * 64 + (c3 - 0x80)))
                           (decode_utf8 t3)
                    else None
                  else None
              end
          end
      end
  end.

(** ** The [str] methods the codec uses *)

Definition str_eqb (a b : str) : bool := bool_decide (a = b).

(** [s.startswith(p)] *)
Fixpoint startswith (p s : str) : bool :=
  match p, s with
  | [], _ => true
  | _ :: _, [] => false
  | x :: p', y :: s' => (x =? y) && startswith p' s'
  end.

(** [s.endswith(p)] *)
Definition endswith (p s : str) : bool :=
  startswith (rev p) (rev s).

(** [p in s] *)
Fixpoint contains (p s : str) : bool :=
  startswith p s ||
  match s with
  | [] => false
  | _ :: t => contains p t
  end.

(** [s.replace(p, "")] for a non-empty [p]: every occurrence, scanning
    left to right without overlap.  [skip] counts the characters of an
    occurrence that are still to be dropped. *)
Fixpoint remove_all_from (skip : nat) (p s : str) : str :=
  match s with
  | [] => []
  | c :: t =>
      match skip with
      | S k => remove_all_from k p t
      | O => if startswith p s then remove_all_from (length p - 1) p t
             else c :: remove_all_from 0 p t
      end
  end.

Definition remove_all (p s : str) : str := remove_all_from 0 p s.

(** [s.split(d)] for a one-character delimiter. *)
Fixpoint split (d : N) (s : str) : list str :=
  match s with
  | [] => [[]]
  | c :: t =>
      if c =? d then [] :: split d t
      else match split d t with
           | h :: r => (c :: h) :: r
           | [] => [[c]]
           end
  end.

(** [sep.join(l)] *)
Fixpoint join (sep : str) (l : list str) : str :=
  match l with
  | [] => []
  | [x] => x
  | x :: t => x ++ sep ++ join sep t
  end.

(** [str.isspace] on one code point, also the class [\s] of [re] on [str]. *)
Definition is_space (c : N) : bool :=
  in_range 0x09 0x0D c || in_range 0x1C 0x20 c || (c =? 0x85) || (c =? 0xA0)
  || (c =? 0x1680) || in_range 0x2000 0x200A c || (c =? 0x2028)
  || (c =? 0x2029) || (c =? 0x202F) || (c =? 0x205F) || (c =? 0x3000).

(** [s.strip()] *)
Fixpoint lstrip (s : str) : str :=
  match s with
  | [] => []
  | c :: t => if is_space c then lstrip t else s
  end.

Definition strip (s : str) : str := rev (lstrip (rev (lstrip s))).

(** ** The manifest pattern [([0-9a-f]{64})\s+(/[^\n]+)] *)

Definition is_hex_lower (c : N) : bool := in_range 48 57 c || in_range 97 102 c.

(** [span p s]: the longest prefix satisfying [p], and the rest. *)
Fixpoint span {A} (p : A -> bool) (s : list A) : list A * list A :=
  match s with
  | [] => ([], [])
  | c :: t => if p c then let '(a, b) := span p t in (c :: a, b) else ([], s)
  end.

(** A match anchored at the head of [s]: its length and group 2.  The
    greedy [\s+] never gives a character back, since [/] is not a space;
    neither does the final [[^\n]+]. *)
Definition match_here (s : str) : option (nat * str) :=
  let h := take 64 s in
  if (length h =? 64)%nat && forallb is_hex_lower h then
    let '(ws, r) := span is_space (drop 64 s) in
    match ws, r with
    | _ :: _, c :: r' =>
        if c =? 47 then
          let '(g, _) := span (fun c => negb (c =? 10)) r' in
          match g with
          | _ :: _ => Some ((64 + length ws + 1 + length g)%nat, 47 :: g)
          | [] => None
          end
        else None
    | _, _ => None
    end
  else None.

(** [re.finditer]: [(m.start(1), m.group(2))] of every match, leftmost
    first, without overlap.  [skip] counts the characters of the previous
    match still to be passed. *)
Fixpoint finditer_from (skip : nat) (pos : N) (s : str) : list (N * str) :=
  match s with
  | [] => []
  | _ :: t =>
      match skip with
      | S k => finditer_from k (pos + 1) t
      | O =>
          match match_here s with
          | Some (n, g) => (pos, g) :: finditer_from (n - 1) (pos + 1) t
          | None => finditer_from 0 (pos + 1) t
          end
      end
  end.

Definition finditer (s : str) : list (N * str) := finditer_from 0 0 s.

(** ** Constants *)

Definition HWNP_MAGIC : bytes := blit "HWNP".
Definition SECT_DESC_START : N := 0x128.
Definition SECT_DESC_SIZE : N := 360.
Definition PID_OFFSET : N := 0x24.
Definition PID_MAX_LEN : N := SECT_DESC_START - PID_OFFSET.

(** ** Data model *)

Inductive content := Xml | Shell | Flag | Text | Binary.

Record HWNPSection := mkSection {
  index : N;
  item_crc : N;
  stored_offset : N;
  data_offset : N;
  data_size : N;
  path : str;
  file_name : str;
  label : str;
  data : bytes;
  content_type : content;
  text_content : option str;
  desc_raw : bytes
}.

Record HWNPFirmware := mkFirmware {
  raw : bytes;
  payload_size : N;
  head_crc : N;
  head_len : N;
  file_crc : N;
  item_num : N;
  version : N;
  item_desc_size : N;
  product_ids : list str;
  computed_crc : N;
  crc_valid : bool;
  sections : list HWNPSection
}.

(** [HWNPSection.__init__] *)
Definition new_section (index item_crc stored_offset data_offset data_size : N)
    (path label : str) (data : bytes) (content_type : content)
    (text_content : option str) (desc_raw : bytes) : HWNPSection :=
  mkSection index item_crc stored_offset data_offset data_size path
            (remove_all (lit "file:") path) label data content_type
            text_content desc_raw.

(** ** Content classification *)

Definition hex_upper (d : N) : N := if d <? 10 then 48 + d else 55 + d.

(** [f"0x{b:02X}"] *)
Definition fmt_0x02X (b : byte) : str :=
  lit "0x" ++ [hex_upper (Byte.to_N b / 16); hex_upper (Byte.to_N b mod 16)].

Definition flag_text (sect_data : bytes) : str :=
  join (lit " ") (map fmt_0x02X sect_data).

Definition is_text_byte (b : byte) : bool :=
  let c := Byte.to_N b in
  (c =? 0) || in_range 0x09 0x0D c || in_range 0x20 0x7E c.

(** The [if / elif] chain of [_parse] that sets [content_type] and
    [text_content]. *)
Definition classify (file_name : str) (data_size : N) (sect_data : bytes)
  : content * option str :=
  if endswith (lit ".sh") file_name then
    match decode_utf8 sect_data with
    | Some t => (Shell, Some t)
    | None => (Binary, None)
    end
  else if endswith (lit ".xml") file_name then
    match decode_utf8 sect_data with
    | Some t => (Xml, Some t)
    | None => (Binary, None)
    end
  else if data_size <=? 4 then (Flag, Some (flag_text sect_data))
  else
    let is_text := forallb is_text_byte sect_data in
    if is_text && (data_size <? 65536) then (Text, decode_utf8 sect_data)
    else (Binary, None).

(** ** Parsing *)

(** A fixed-width field that ends at its first null byte, or runs the whole
    width. *)
Definition field_text (field : bytes) (width : N) : str :=
  let field_end :=
    if byte_in x00 field
    then match index_of x00 field with Some k => k | None => width end
    else width in
  decode_ascii_replace (slice field 0 field_end).

(** Round the running offset up to a multiple of 4. *)
Definition align4 (off : N) : N :=
  if negb (off mod 4 =? 0) then off + (4 - off mod 4) else off.

(** One turn of the descriptor loop of [_parse]. *)
Definition parse_section (data : bytes) (i data_offset : N) : result HWNPSection :=
  let desc_off := SECT_DESC_START + i * SECT_DESC_SIZE in
  let desc_raw := slice data desc_off (desc_off + SECT_DESC_SIZE) in
  let? item_crc := unpack_le32 (slice data desc_off (desc_off + 4)) in
  let? stored_offset := unpack_le32 (slice data (desc_off + 4) (desc_off + 8)) in
  let? data_size := unpack_le32 (slice data (desc_off + 8) (desc_off + 12)) in
  let path := field_text (slice data (desc_off + 12) (desc_off + 12 + 256)) 256 in
  let label := field_text (slice data (desc_off + 268) (desc_off + 268 + 92)) 92 in
  let sect_data := slice data data_offset (data_offset + data_size) in
  let file_name := remove_all (lit "file:") path in
  let '(content_type, text_content) := classify file_name data_size sect_data in
  inr (new_section i item_crc stored_offset data_offset data_size path label
                   sect_data content_type text_content desc_raw).

(** The loop [for i in range(item_num)], [n] turns left, with the running
    [data_offset]. *)
Fixpoint parse_sections (data : bytes) (n : nat) (i data_offset : N)
  : result (list HWNPSection) :=
  match n with
  | O => inr []
  | S n' =>
      let? s := parse_section data i data_offset in
      let? rest := parse_sections data n' (i + 1)
                                  (align4 (data_offset + data_size s)) in
      inr (s :: rest)
  end.

(** The product identifiers of the window at [PID_OFFSET]. *)
Definition parse_product_ids (data : bytes) : result (list str) :=
  let? pid_end :=
    if byte_in x00 (slice data PID_OFFSET (PID_OFFSET + PID_MAX_LEN))
    then match index_from x00 PID_OFFSET data with
         | Some e => inr e
         | None => inl ValueError_not_found
         end
    else inr (PID_OFFSET + PID_MAX_LEN) in
  let pid_str := decode_ascii_replace (slice data PID_OFFSET pid_end) in
  inr (filter (fun s => s <> []) (split 124 pid_str)).

(** [HWNPFirmware._parse] on the bytes read from the file. *)
Definition parse (data : bytes) : result HWNPFirmware :=
  if negb (bool_decide (slice data 0 4 = HWNP_MAGIC)) then inl ValueError_magic
  else
    let? payload_size := unpack_be32 (slice data 0x04 0x08) in
    let? head_crc := unpack_le32 (slice data 0x08 0x0C) in
    let? head_len := unpack_le32 (slice data 0x0C 0x10) in
    let? file_crc := unpack_le32 (slice data 0x10 0x14) in
    let? item_word := unpack_le32 (slice data 0x14 0x18) in
    let item_num := N.land item_word 0xFF in
    let? version := unpack_le32 (slice data 0x18 0x1C) in
    let? item_desc_size := unpack_le32 (slice data 0x1C 0x20) in
    let? product_ids := parse_product_ids data in
    let computed_crc := crc32 (slice_from data 0x0C) in
    let crc_valid := computed_crc =? head_crc in
    let? sections :=
      parse_sections data (N.to_nat item_num) 0
                     (SECT_DESC_START + item_num * SECT_DESC_SIZE) in
    inr (mkFirmware data payload_size head_crc head_len file_crc item_num
                    version item_desc_size product_ids computed_crc crc_valid
                    sections).

(** ** Methods that mutate the object

    A method takes [self] and returns an exception or a value, together with
    the object as the call leaves it. *)

Definition M (A : Type) : Type := HWNPFirmware -> result A * HWNPFirmware.

Definition ret {A} (a : A) : M A := fun self => (inr a, self).
Definition raise {A} (e : exn) : M A := fun self => (inl e, self).
Definition bind {A B} (m : M A) (k : A -> M B) : M B :=
  fun self =>
    match m self with
    | (inl e, self') => (inl e, self')
    | (inr a, self') => k a self'
    end.
Definition get : M HWNPFirmware := fun self => (inr self, self).
Definition modify (f : HWNPFirmware -> HWNPFirmware) : M unit :=
  fun self => (inr tt, f self).
Definition lift {A} (r : result A) : M A := fun self => (r, self).

Notation "x <- m ;; k" := (bind m (fun x => k))
  (at level 100, m at next level, right associativity).
Notation "m ;;; k" := (bind m (fun _ => k))
  (at level 100, right associativity).

(** Attribute assignments. *)
Definition set_raw (v : bytes) (fw : HWNPFirmware) : HWNPFirmware :=
  mkFirmware v (payload_size fw) (head_crc fw) (head_len fw) (file_crc fw)
             (item_num fw) (version fw) (item_desc_size fw) (product_ids fw)
             (computed_crc fw) (crc_valid fw) (sections fw).

Definition set_product_ids_attr (v : list str) (fw : HWNPFirmware) : HWNPFirmware :=
  mkFirmware (raw fw) (payload_size fw) (head_crc fw) (head_len fw)
             (file_crc fw) (item_num fw) (version fw) (item_desc_size fw) v
             (computed_crc fw) (crc_valid fw) (sections fw).

Definition set_sections (v : list HWNPSection) (fw : HWNPFirmware) : HWNPFirmware :=
  mkFirmware (raw fw) (payload_size fw) (head_crc fw) (head_len fw)
             (file_crc fw) (item_num fw) (version fw) (item_desc_size fw)
             (product_ids fw) (computed_crc fw) (crc_valid fw) v.

Definition set_crc (c : N) (fw : HWNPFirmware) : HWNPFirmware :=
  mkFirmware (raw fw) (payload_size fw) c (head_len fw) (file_crc fw)
             (item_num fw) (version fw) (item_desc_size fw) (product_ids fw)
             c true (sections fw).

Definition set_data (v : bytes) (s : HWNPSection) : HWNPSection :=
  mkSection (index s) (item_crc s) (stored_offset s) (data_offset s)
            (data_size s) (path s) (file_name s) (label s) v
            (content_type s) (text_content s) (desc_raw s).

Definition set_text_content (v : option str) (s : HWNPSection) : HWNPSection :=
  mkSection (index s) (item_crc s) (stored_offset s) (data_offset s)
            (data_size s) (path s) (file_name s) (label s) (data s)
            (content_type s) v (desc_raw s).

(** [l[i]] on a Python list: a negative index counts from the end. *)
Definition py_index {A} (l : list A) (i : Z) : result nat :=
  let n := Z.of_nat (length l) in
  if ((0 <=? i) && (i <? n))%Z then inr (Z.to_nat i)
  else if ((- n <=? i) && (i <? 0))%Z then inr (Z.to_nat (n + i))
  else inl IndexError.

(** [HWNPFirmware.set_product_ids] *)
Definition set_product_ids (ids : list str) : M unit :=
  let pid_str := join (lit "|") ids ++ lit "|" in
  pid_bytes <- lift (encode_ascii pid_str);;
  if PID_MAX_LEN <? len pid_bytes then raise ValueError_pid_too_long
  else
    modify (fun self =>
      set_raw (slice_assign (raw self) PID_OFFSET (PID_OFFSET + PID_MAX_LEN)
                            (replicate (N.to_nat PID_MAX_LEN) x00)) self);;;
    modify (fun self =>
      set_raw (slice_assign (raw self) PID_OFFSET (PID_OFFSET + len pid_bytes)
                            pid_bytes) self);;;
    modify (set_product_ids_attr ids).

Definition text_like (c : content) : bool :=
  match c with
  | Xml | Shell | Text => true
  | _ => false
  end.

(** [HWNPFirmware.set_section_data] *)
Definition set_section_data (idx : Z) (new_data : bytes) : M unit :=
  self <- get;;
  k <- lift (py_index (sections self) idx);;
  match sections self !! k with
  | None => raise IndexError
  | Some section =>
      new_data <-
        (if negb (len new_data =? data_size section) then
           if len new_data <? data_size section
           then ret (new_data ++ replicate
                       (N.to_nat (data_size section - len new_data)) x00)
           else raise ValueError_too_large
         else ret new_data);;
      modify (fun self =>
        set_raw (slice_assign (raw self) (data_offset section)
                   (data_offset section + data_size section) new_data) self);;;
      let section1 := set_data new_data section in
      let section2 :=
        if text_like (content_type section1) then
          match decode_utf8 new_data with
          | Some t => set_text_content (Some t) section1
          | None => section1
          end
        else section1 in
      modify (fun self => set_sections (<[k := section2]> (sections self)) self)
  end.

(** The first section whose path contains the manifest marker, with its
    position in the list. *)
Fixpoint find_signinfo (k : nat) (l : list HWNPSection) : option (nat * HWNPSection) :=
  match l with
  | [] => None
  | s :: t => if negb (contains (lit "signinfo") (path s))
              then find_signinfo (S k) t
              else Some (k, s)
  end.

(** The body of the [re.finditer] loop of [fix_signinfo] for one match:
    the first section whose destination equals the manifest path gets its
    digest written over the 64 characters of the match. *)
Definition patch_hash (secs : list HWNPSection) (sig_off : N)
    (buf : bytes) (m : N * str) : result bytes :=
  let file_path := strip (snd m) in
  match find (fun sec => str_eqb (remove_all (lit "file:") (path sec)) file_path)
             secs with
  | Some sec =>
      let new_hash :=
        SHA256.hexdigest
          (slice buf (data_offset sec) (data_offset sec + data_size sec)) in
      let start := sig_off + fst m in
      let? h := encode_ascii new_hash in
      inr (slice_assign buf start (start + 64) h)
  | None => inr buf
  end.

Definition patch_hashes (secs : list HWNPSection) (sig_off : N)
    (ms : list (N * str)) (buf : bytes) : result bytes :=
  fold_left (fun acc m => let? b := acc in patch_hash secs sig_off b m)
            ms (inr buf).

(** [HWNPFirmware.fix_signinfo] *)
Definition fix_signinfo : M unit :=
  self <- get;;
  match find_signinfo 0 (sections self) with
  | None => ret tt
  | Some (k, section) =>
      let sig_off := data_offset section in
      let sig_size := data_size section in
      modify (fun self =>
        set_raw (slice_assign (raw self) sig_off (sig_off + 60)
                              (replicate 60 x00)) self);;;
      self1 <- get;;
      let sig_text :=
        decode_ascii_replace (slice (raw self1) sig_off (sig_off + sig_size)) in
      patched <- lift (patch_hashes (sections self1) sig_off
                                    (finditer sig_text) (raw self1));;
      modify (set_raw patched);;;
      modify (fun self =>
        set_sections
          (<[k := set_data (slice (raw self) sig_off (sig_off + sig_size))
                           section]> (sections self)) self)
  end.

(** [HWNPFirmware.recalculate_crc]; [struct.pack_into] needs the four bytes
    at 0x08 to exist. *)
Definition recalculate_crc : M unit :=
  self <- get;;
  let new_crc := crc32 (slice_from (raw self) 0x0C) in
  if len (raw self) <? 0x0C then raise StructError
  else
    modify (fun self =>
      set_raw (slice_assign (raw self) 0x08 0x0C (pack_le32 new_crc)) self);;;
    modify (set_crc new_crc).

(** [HWNPFirmware.save]: the value is the content written to the file. *)
Definition save : M bytes :=
  fix_signinfo;;;
  recalculate_crc;;;
  self <- get;;
  ret (raw self).

(** ** Building concrete images *)

Definition pad_to (n : nat) (b : bytes) : bytes :=
  b ++ replicate (n - length b) x00.

Definition pad4 (b : bytes) : bytes :=
  b ++ replicate ((4 - length b mod 4) mod 4) x00.

(** A 360-byte descriptor: checksum, stored offset, size, path, label. *)
Definition mk_descriptor (size : N) (path label : string) : bytes :=
  pack_le32 0 ++ pack_le32 0 ++ pack_le32 size
  ++ pad_to 256 (blit path) ++ pad_to 92 (blit label).

(** The 0x128-byte header with [n] items and the given identifier text. *)
Definition mk_header (n : N) (pids : string) : bytes :=
  blit "HWNP" ++ replicate 4 x00 ++ pack_le32 0 ++ pack_le32 0 ++ pack_le32 0
  ++ pack_le32 n ++ pack_le32 0 ++ pack_le32 360 ++ pack_le32 0
  ++ pad_to 260 (blit pids).

(** A complete image from [(path, payload)] pairs. *)
Definition mk_image (pids : string) (secs : list (string * bytes)) : bytes :=
  mk_header (len secs) pids
  ++ concat (map (fun s => mk_descriptor (len (snd s)) (fst s) "") secs)
  ++ concat (map (fun s => pad4 (snd s)) secs).

(** ** Notions used to state the properties *)

(** [l'] is at least as long as [l] and keeps every element of [l] below
    position [k]. *)
Definition kept_below {A} (k : nat) (l l' : list A) : Prop :=
  (length l <= length l')%nat /\
  forall i, (i < k)%nat -> (i < length l)%nat -> l' !! i = l !! i.

(** Sections follow each other from [off] on, each start aligned to 4. *)
Fixpoint laid_out (off : N) (l : list HWNPSection) : Prop :=
  match l with
  | [] => True
  | s :: t => data_offset s = off /\ laid_out (align4 (off + data_size s)) t
  end.

Record wf (fw : HWNPFirmware) : Prop := mk_wf {
  wf_len : (32 <= length (raw fw))%nat;
  wf_layout :
    laid_out (SECT_DESC_START + item_num fw * SECT_DESC_SIZE) (sections fw)
}.

(** The states an image goes through: parsed from a file, then edited and
    saved any number of times (a call that raises leaves a state too). *)
Inductive reachable : HWNPFirmware -> Prop :=
| reach_parse b fw : parse b = inr fw -> reachable fw
| reach_set_product_ids ids fw :
    reachable fw -> reachable (snd (set_product_ids ids fw))
| reach_set_section_data idx d fw :
    reachable fw -> reachable (snd (set_section_data idx d fw))
| reach_save fw : reachable fw -> reachable (snd (save fw)).

(** The payload that [set_section_data] stores: as given, or padded. *)
Definition padded (new_data : bytes) (size : N) : bytes :=
  if negb (len new_data =? size)
  then new_data ++ replicate (N.to_nat (size - len new_data)) x00
  else new_data.

(** The section that [set_section_data] leaves at the index. *)
Definition with_payload (section : HWNPSection) (new_data : bytes) : HWNPSection :=
  let section1 := set_data new_data section in
  if text_like (content_type section1) then
    match decode_utf8 new_data with
    | Some t => set_text_content (Some t) section1
    | None => section1
    end
  else section1.

(** A small image: an XML section with a byte that is not UTF-8, a
    three-byte flag and a manifest that lists the XML section, itself and a
    path that no section has. *)
Definition hash_placeholder : string :=
  "0123456789abcdef0123456789abcdef0123456789abcdef0123456789abcdef".

Definition newline : string := String (ascii_of_nat 10) EmptyString.

Definition sample_manifest : bytes :=
  blit "500R020C00SPC270B520 | SIGNINFO" ++ replicate 29 x00
  ++ blit (hash_placeholder ++ " /var/a.xml" ++ newline
           ++ hash_placeholder ++ "  /var/signinfo" ++ newline
           ++ hash_placeholder ++ " /nope" ++ newline).

Definition sample_image : bytes :=
  mk_image "A|B|"
    [("file:/var/a.xml"%string, [xff]);
     ("file:/flag"%string, [x01; x0a; xff]);
     ("file:/var/signinfo"%string, sample_manifest)].

(** Used where an image is needed and none was parsed. *)
Definition empty_firmware : HWNPFirmware :=
  mkFirmware [] 0 0 0 0 0 0 0 [] 0 false [].

Definition sample_fw : HWNPFirmware :=
  match parse sample_image with
  | inr fw => fw
  | inl _ => empty_firmware
  end.

(** The bytes skipped after a section so that the next one starts on a
    multiple of 4. *)
Definition padding (s : HWNPSection) : N :=
  align4 (data_offset s + data_size s) - (data_offset s + data_size s).

(** Sizes and paddings of a run of sections, added up. *)
Definition occupied (l : list HWNPSection) : N :=
  fold_right (fun s acc => data_size s + padding s + acc) 0 l.

(** The claim as it is written: such a section is classified [xml] and has
    no text. *)
Definition xml_claim : Prop :=
  forall b fw s,
    parse b = inr fw -> s ∈ sections fw ->
    endswith (lit ".xml") (path s) = true -> decode_utf8 (data s) = None ->
    content_type s = Xml /\ text_content s = None.

(** Two uppercase hexadecimal digits, [f"{b:02X}"]. *)
Definition fmt_02X (b : byte) : str :=
  [hex_upper (Byte.to_N b / 16); hex_upper (Byte.to_N b mod 16)].

(** The claim as it is written: the text is the two-digit values, joined
    by spaces. *)
Definition flag_claim : Prop :=
  forall b fw s,
    parse b = inr fw -> s ∈ sections fw ->
    endswith (lit ".sh") (path s) = false ->
    endswith (lit ".xml") (path s) = false ->
    data_size s <= 4 ->
    content_type s = Flag /\
    text_content s = Some (join (lit " ") (map fmt_02X (data s))).

(** Offsets and sizes of the sections, in order. *)
Definition layout (l : list HWNPSection) : list (N * N) :=
  map (fun s => (data_offset s, data_size s)) l.

(** The claim as it is written: any list whose encoding fits is read back
    as it was written. *)
Definition product_ids_claim : Prop :=
  forall fw ids,
    len (join (lit "|") ids ++ lit "|") <= PID_MAX_LEN ->
    exists fw', set_product_ids ids fw = (inr tt, fw') /\
                parse_product_ids (raw fw') = inr ids.

(** An identifier that survives the encoding: not empty, ASCII, without the
    delimiter and without a null character. *)
Definition plain_id (s : str) : Prop :=
  s <> [] /\ Forall (fun c => 0 < c < 128 /\ c <> 124) s.

(** Every identifier followed by the delimiter. *)
Definition delimited (ids : list str) : str :=
  concat (map (fun x => x ++ [124]) ids).

(** Matches in scanning order: each hash field lies in the text, starts with
    a hexadecimal digit and ends before the next one starts. *)
Fixpoint spaced (T : str) (lo : N) (ms : list (N * str)) : Prop :=
  match ms with
  | [] => True
  | m :: rest =>
      lo <= fst m /\ fst m + 64 <= len T /\
      (exists c, T !! N.to_nat (fst m) = Some c /\ is_hex_lower c = true) /\
      spaced T (fst m + 64) rest
  end.

(** The test of the inner loop of [fix_signinfo]. *)
Definition names (m : N * str) (sec : HWNPSection) : bool :=
  str_eqb (remove_all (lit "file:") (path sec)) (strip (snd m)).

(** Position [q] lies in the hash field of no match of [ms]. *)
Definition outside_fields (off : N) (ms : list (N * str)) (q : nat) : Prop :=
  forall m, m ∈ ms ->
    ~ (N.to_nat (off + fst m) <= q < N.to_nat (off + fst m) + 64)%nat.

(** The manifest with its header zeroed, as [fix_signinfo] scans it. *)
Definition zeroed (fw : HWNPFirmware) (sig : HWNPSection) : bytes :=
  slice_assign (raw fw) (data_offset sig) (data_offset sig + 60)
               (replicate 60 x00).

Definition scanned_text (fw : HWNPFirmware) (sig : HWNPSection) : str :=
  decode_ascii_replace
    (slice (zeroed fw sig) (data_offset sig) (data_offset sig + data_size sig)).

(** Used where a list has no section at the index. *)
Definition empty_section : HWNPSection :=
  mkSection 0 0 0 0 0 [] [] [] [] Binary None [].

Definition sample_section (i : nat) : HWNPSection :=
  nth i (sections sample_fw) empty_section.

(** The claim as it is written: after save the first 60 bytes of the
    manifest are zero and every matching line whose path is the name of a
    section carries the digest of that section's payload. *)
Definition manifest_claim : Prop :=
  forall fw k sig,
    reachable fw -> find_signinfo 0 (sections fw) = Some (k, sig) ->
    forall s', sections (snd (save fw)) !! k = Some s' ->
      Forall (fun x => x = x00) (take 60 (data s')) /\
      forall m sec,
        m ∈ finditer (decode_ascii_replace (data s')) ->
        sec ∈ sections (snd (save fw)) ->
        remove_all (lit "file:") (path sec) = strip (snd m) ->
        slice (decode_ascii_replace (data s')) (fst m) (fst m + 64)
        = SHA256.hexdigest (data sec).

(** The manifest of the sample image after save. *)
Definition saved_manifest : HWNPSection :=
  nth 2 (sections (snd (save sample_fw))) empty_section.

(** ** Notions used to state further properties *)

(** The item count as the header holds it: the low byte of the word at
    0x14. *)
Definition header_item_num (b : bytes) : N :=
  N.land (le_value (slice b 0x14 0x18)) 0xFF.

(** The first twelve bytes of every descriptor that the header announces
    lie in the buffer. *)
Definition descriptors_readable (b : bytes) : Prop :=
  forall i, i < header_item_num b ->
    (N.to_nat (SECT_DESC_START + i * SECT_DESC_SIZE + 12) <= length b)%nat.

(** What a decoded fixed-width field can hold: at most [width] characters,
    none of them null, each ASCII or the replacement character. *)
Definition clean_text (width : N) (t : str) : Prop :=
  len t <= width /\ Forall (fun c => 0 < c /\ (c < 128 \/ c = 0xFFFD)) t.

(** What a section takes from its descriptor and from its place in the
    image. *)
Definition descriptor_fields (s : HWNPSection)
  : N * N * N * N * N * str * str * str * bytes :=
  (index s, item_crc s, stored_offset s, data_offset s, data_size s,
   path s, file_name s, label s, desc_raw s).

(** What no method changes in a section: everything but the payload and
    its text. *)
Definition metadata (s : HWNPSection)
  : N * N * N * N * N * str * str * str * bytes * content :=
  (descriptor_fields s, content_type s).

(** The header attributes that no method changes. *)
Definition header_fields (fw : HWNPFirmware) : N * N * N * N * N * N :=
  (payload_size fw, head_len fw, file_crc fw, item_num fw, version fw,
   item_desc_size fw).

(** An image of two sections without a manifest. *)
Definition plain_image : bytes :=
  mk_image "A|"
    [("file:/etc/run.sh"%string, blit "echo ok"); ("file:/flag"%string, [x01])].

Definition plain_fw : HWNPFirmware :=
  match parse plain_image with
  | inr fw => fw
  | inl _ => empty_firmware
  end.

Definition plain_section (i : nat) : HWNPSection :=
  nth i (sections plain_fw) empty_section.

(** The image that [_parse] builds from a buffer, given the identifiers and
    the sections read from it. *)
Definition parsed_image (b : bytes) (ids : list str) (secs : list HWNPSection)
  : HWNPFirmware :=
  mkFirmware b (be_value (slice b 0x04 0x08)) (le_value (slice b 0x08 0x0C))
    (le_value (slice b 0x0C 0x10)) (le_value (slice b 0x10 0x14))
    (header_item_num b) (le_value (slice b 0x18 0x1C))
    (le_value (slice b 0x1C 0x20)) ids (crc32 (slice_from b 0x0C))
    (crc32 (slice_from b 0x0C) =? le_value (slice b 0x08 0x0C)) secs.

(** The end of the descriptor table. *)
Definition table_end (fw : HWNPFirmware) : N :=
  SECT_DESC_START + item_num fw * SECT_DESC_SIZE.

(** The buffer holds the descriptor table and the slot of every section. *)
Definition whole (fw : HWNPFirmware) : Prop :=
  (N.to_nat (table_end fw) <= length (raw fw))%nat /\
  Forall (fun s => (N.to_nat (data_offset s + data_size s)
                    <= length (raw fw))%nat) (sections fw).

(** Every section object holds the bytes of its slot of the buffer. *)
Definition mirrored (fw : HWNPFirmware) : Prop :=
  Forall (fun s => data s = slice (raw fw) (data_offset s)
                              (data_offset s + data_size s)) (sections fw).

(** The manifest, if there is one, has room for the 60 bytes that [save]
    zeroes. *)
Definition sound_manifest (fw : HWNPFirmware) : Prop :=
  forall k sig, find_signinfo 0 (sections fw) = Some (k, sig) ->
                60 <= data_size sig.

Definition coherent (fw : HWNPFirmware) : Prop :=
  wf fw /\ whole fw /\ mirrored fw /\ sound_manifest fw.

(** ** Hex dump *)

(** The digits of [n] in base 16, most significant first, put before
    [acc]. *)
Fixpoint hex_digits (fuel : nat) (n : N) (acc : str) : str :=
  match fuel with
  | O => acc
  | S f =>
      let acc' := hex_upper (n mod 16) :: acc in
      if n / 16 =? 0 then acc' else hex_digits f (n / 16) acc'
  end.

(** [f"{n:X}"]; a number has at most [log2 n + 1] digits. *)
Definition fmt_X (n : N) : str := hex_digits (S (N.to_nat (N.log2 n))) n [].

(** [f"{n:08X}"]: zeros on the left up to 8 characters, more digits when
    the number needs them. *)
Definition fmt_08X (n : N) : str :=
  replicate (8 - length (fmt_X n)) 48 ++ fmt_X n.

Fixpoint dec_digits (fuel : nat) (n : N) (acc : str) : str :=
  match fuel with
  | O => acc
  | S f =>
      let acc' := (48 + n mod 10) :: acc in
      if n / 10 =? 0 then acc' else dec_digits f (n / 10) acc'
  end.

(** [f"{n}"] for a natural number. *)
Definition fmt_d (n : N) : str := dec_digits (S (N.to_nat (N.log2 n))) n [].

(** [f"{s:<48s}"]: spaces on the right up to [w] characters; a longer text
    is not cut. *)
Definition ljust (w : nat) (s : str) : str := s ++ replicate (w - length s) 32.

(** [chr(b) if 0x20 <= b < 0x7F else "."] *)
Definition ascii_char (b : byte) : N :=
  if (0x20 <=? Byte.to_N b) && (Byte.to_N b <? 0x7F) then Byte.to_N b else 46.

(** One line of the loop, for the offset [i]. *)
Definition hex_row (data : bytes) (shown i : N) : str :=
  let chunk := slice data i (N.min (i + 16) shown) in
  let addr := fmt_08X i in
  let hex_part := join (lit " ") (map fmt_02X chunk) in
  let ascii_part := map ascii_char chunk in
  addr ++ lit "  " ++ ljust 48 hex_part ++ lit "  " ++ ascii_part.

(** The lines of [n] turns of the loop, from the offset [i] on. *)
Fixpoint hex_rows (data : bytes) (shown : N) (n : nat) (i : N) : list str :=
  match n with
  | O => []
  | S n' => hex_row data shown i :: hex_rows data shown n' (i + 16)
  end.

(** The list [lines]; [range(0, length, 16)] has [ceil(length / 16)]
    elements, none when [length <= 0]. *)
Definition hex_dump_lines (data : bytes) (max_bytes : Z) : list str :=
  let shown := Z.min (Z.of_N (len data)) max_bytes in
  let rows :=
    hex_rows data (Z.to_N shown) (Z.to_nat ((shown + 15) / 16)) 0 in
  if (max_bytes <? Z.of_N (len data))%Z
  then rows ++ [lit "... ("
                ++ fmt_d (Z.to_N (Z.of_N (len data) - max_bytes))
                ++ lit " more bytes)"]
  else rows.


(** The number of bytes that [hex_dump] shows. *)
Definition dumped (data : bytes) (max_bytes : Z) : N :=
  Z.to_N (Z.min (Z.of_N (len data)) max_bytes).

(** The value of an uppercase hexadecimal digit, and of a numeral. *)
Definition hex_digit_value (c : N) : N := if c <? 58 then c - 48 else c - 55.

Definition hex_value (s : str) : N :=
  fold_left (fun a c => 16 * a + hex_digit_value c) s 0.


(** A script of 27 bytes that ends with a byte that is not ASCII. *)
Definition dump_data : bytes :=
  blit "#!/bin/sh" ++ [x0a] ++ blit "echo ok; exit 0" ++ [x0a; xff].

(** * Properties *)

(** ** Slices and slice assignment *)

Section slices.
Context {A : Type}.
Implicit Types (l v : list A) (a b : N) (i : nat).

Lemma clamp_le l a : (clamp l a <= length l)%nat.
Proof. unfold clamp, len. lia. Qed.

Lemma clamp_le_arg l a : (clamp l a <= N.to_nat a)%nat.
Proof. unfold clamp, len. lia. Qed.

Lemma clamp_in_range l a : (N.to_nat a <= length l)%nat -> clamp l a = N.to_nat a.
Proof. unfold clamp, len. lia. Qed.

Lemma clamp_out_of_range l a : (length l <= N.to_nat a)%nat -> clamp l a = length l.
Proof. unfold clamp, len. lia. Qed.

Lemma slice_unclamped l a b :
  slice l a b = take (N.to_nat b - N.to_nat a) (drop (N.to_nat a) l).
Proof.
  unfold slice.
  destruct (decide (N.to_nat a <= length l)%nat) as [Ha|Ha].
  - rewrite (clamp_in_range l a) by done.
    destruct (decide (N.to_nat b <= length l)%nat) as [Hb|Hb].
    + by rewrite (clamp_in_range l b).
    + rewrite (clamp_out_of_range l b) by lia.
      rewrite !take_ge; [done | rewrite length_drop; lia ..].
  - rewrite (clamp_out_of_range l a), !drop_ge by lia.
    by rewrite !take_nil.
Qed.

Lemma lookup_slice l a b i :
  slice l a b !! i =
    if decide (i < N.to_nat b - N.to_nat a)%nat then l !! (N.to_nat a + i)%nat
    else None.
Proof. by rewrite slice_unclamped, lookup_take, lookup_drop. Qed.

Lemma length_slice l a b :
  length (slice l a b) = (clamp l b - clamp l a)%nat.
Proof.
  unfold slice. rewrite length_take, length_drop.
  pose proof (clamp_le l b). lia.
Qed.

Lemma length_slice_le l a b :
  (length (slice l a b) <= N.to_nat b - N.to_nat a)%nat.
Proof. rewrite slice_unclamped, length_take. lia. Qed.

Lemma length_slice_full l a b :
  (N.to_nat b <= length l)%nat ->
  length (slice l a b) = (N.to_nat b - N.to_nat a)%nat.
Proof. intros. rewrite slice_unclamped, length_take, length_drop. lia. Qed.

(** A slice of full width lies inside the buffer. *)
Lemma slice_full_inv l a b :
  (a < b)%N -> length (slice l a b) = N.to_nat (b - a) ->
  (N.to_nat b <= length l)%nat.
Proof.
  rewrite slice_unclamped, length_take, length_drop. lia.
Qed.

(** Two buffers that agree on a range have the same slice there. *)
Lemma slice_ext l l' a b :
  (forall i, (N.to_nat a <= i < N.to_nat b)%nat -> l !! i = l' !! i) ->
  slice l a b = slice l' a b.
Proof.
  intros H. apply list_eq. intros i. rewrite !lookup_slice.
  case_decide; [apply H; lia | done].
Qed.

Lemma length_slice_assign l a b v :
  length (slice_assign l a b v)
  = (clamp l a + length v + (length l - Nat.max (clamp l a) (clamp l b)))%nat.
Proof.
  unfold slice_assign. rewrite !length_app, length_take, length_drop.
  pose proof (clamp_le l a). lia.
Qed.

(** Assigning at least as many elements as the slice spans never shrinks
    the buffer. *)
Lemma length_slice_assign_ge l a b v :
  (N.to_nat b - N.to_nat a <= length v)%nat ->
  (length l <= length (slice_assign l a b v))%nat.
Proof.
  intros. rewrite length_slice_assign.
  pose proof (clamp_le l a). pose proof (clamp_le l b).
  pose proof (clamp_le_arg l b).
  unfold clamp, len in *. lia.
Qed.

(** Assigning exactly as many elements as the slice holds keeps the
    length when the slice lies inside the buffer. *)
Lemma length_slice_assign_inside l a b v :
  (a <= b)%N -> (N.to_nat b <= length l)%nat ->
  length v = N.to_nat (b - a) ->
  length (slice_assign l a b v) = length l.
Proof.
  intros. rewrite length_slice_assign.
  rewrite !clamp_in_range by lia. lia.
Qed.

(** Below the start of the slice nothing moves. *)
Lemma lookup_slice_assign_lt l a b v i :
  (i < clamp l a)%nat -> slice_assign l a b v !! i = l !! i.
Proof.
  intros. unfold slice_assign.
  rewrite lookup_app_l by (rewrite length_take; pose proof (clamp_le l a); lia).
  by rewrite lookup_take_lt.
Qed.

(** The assigned elements, when the start is inside the buffer. *)
Lemma lookup_slice_assign_mid l a b v i :
  (N.to_nat a <= length l)%nat ->
  (N.to_nat a <= i < N.to_nat a + length v)%nat ->
  slice_assign l a b v !! i = v !! (i - N.to_nat a)%nat.
Proof.
  intros Ha Hi. unfold slice_assign. rewrite clamp_in_range by done.
  rewrite lookup_app_r by (rewrite length_take; lia).
  rewrite length_take, Nat.min_l by lia.
  apply lookup_app_l. lia.
Qed.

(** An assignment of the same width as the slice leaves every element of
    the old buffer outside [[a, b)] where it was. *)
Lemma lookup_slice_assign_outside l a b v i :
  (a <= b)%N -> length v = N.to_nat (b - a) ->
  (i < length l)%nat -> (i < N.to_nat a \/ N.to_nat b <= i)%nat ->
  slice_assign l a b v !! i = l !! i.
Proof.
  intros Hab Hv Hi Hout.
  destruct (decide (i < clamp l a)%nat) as [Hlt|Hge].
  { by apply lookup_slice_assign_lt. }
  assert (N.to_nat b <= i)%nat as Hb by (unfold clamp, len in *; lia).
  unfold slice_assign.
  rewrite !clamp_in_range by lia.
  rewrite lookup_app_r by (rewrite length_take; lia).
  rewrite lookup_app_r by (rewrite length_take; lia).
  rewrite length_take, lookup_drop. f_equal. lia.
Qed.

Lemma slice_from_unclamped l a : slice_from l a = drop (N.to_nat a) l.
Proof.
  unfold slice_from.
  destruct (decide (N.to_nat a <= length l)%nat).
  - by rewrite clamp_in_range.
  - rewrite clamp_out_of_range, !drop_ge by lia. done.
Qed.

(** An assignment that ends at or before [c] does not change [l[c:]] when
    it keeps the width of its slice. *)
Lemma slice_from_slice_assign l a b c v :
  (a <= b)%N -> (b <= c)%N -> (N.to_nat b <= length l)%nat ->
  length v = N.to_nat (b - a) ->
  slice_from (slice_assign l a b v) c = slice_from l c.
Proof.
  intros. rewrite !slice_from_unclamped. unfold slice_assign.
  rewrite !clamp_in_range by lia.
  rewrite app_assoc, drop_app_ge; rewrite length_app, length_take; [|lia].
  rewrite drop_drop. f_equal. lia.
Qed.
End slices.

(** ** Packing, unpacking and the checksum *)

Lemma to_N_byte_of_N n : Byte.to_N (byte_of_N n) = n mod 256.
Proof.
  unfold byte_of_N. destruct (Byte.of_N (n mod 256)) as [b|] eqn:E.
  - by apply Byte.to_of_N.
  - apply Byte.of_N_None_iff in E.
    pose proof (N.mod_upper_bound n 256). lia.
Qed.

Lemma byte_of_to_N b : byte_of_N (Byte.to_N b) = b.
Proof.
  unfold byte_of_N. pose proof (Byte.to_N_bounded b).
  rewrite N.mod_small by lia. by rewrite Byte.of_to_N.
Qed.

Lemma length_pack_le32 v : length (pack_le32 v) = 4%nat.
Proof. done. Qed.

Lemma le_value_pack_le32 v : v < 2 ^ 32 -> le_value (pack_le32 v) = v.
Proof.
  intros Hv. unfold pack_le32, le_value. cbn [fold_right].
  rewrite !to_N_byte_of_N.
  set (q1 := v / 256). set (q2 := q1 / 256). set (q3 := q2 / 256).
  assert (N.shiftr v 8 = q1) as -> by (by rewrite N.shiftr_div_pow2).
  assert (N.shiftr v 16 = q2) as ->.
  { rewrite N.shiftr_div_pow2. subst q2 q1. by rewrite N.Div0.div_div. }
  assert (N.shiftr v 24 = q3) as ->.
  { rewrite N.shiftr_div_pow2. subst q3 q2 q1. by rewrite !N.Div0.div_div. }
  pose proof (N.div_mod' v 256) as H0. pose proof (N.div_mod' q1 256) as H1.
  pose proof (N.div_mod' q2 256) as H2.
  assert (q3 < 256) as H3.
  { subst q3 q2 q1. rewrite !N.Div0.div_div.
    apply N.Div0.div_lt_upper_bound.
    change (256 * 256 * 256 * 256) with (2 ^ 32). done. }
  rewrite (N.mod_small q3) by done.
  fold q1 in H0. fold q2 in H1. fold q3 in H2.
  generalize dependent (v mod 256). generalize dependent (q1 mod 256).
  generalize dependent (q2 mod 256).
  clearbody q3. clearbody q2. clearbody q1. clear Hv.
  intros r2 H2 r1 H1 r0 H0. lia.
Qed.

Lemma unpack_pack_le32 v : v < 2 ^ 32 -> unpack_le32 (pack_le32 v) = inr v.
Proof.
  intros. unfold unpack_le32. rewrite length_pack_le32.
  change (4 =? 4)%nat with true. cbv iota. by rewrite le_value_pack_le32.
Qed.

Lemma crc32_bound d : crc32 d < 2 ^ 32.
Proof.
  unfold crc32. change 0xFFFFFFFF with (N.ones 32).
  rewrite N.land_ones. apply N.mod_upper_bound. done.
Qed.

Lemma unpack_le32_ok l v : unpack_le32 l = inr v -> length l = 4%nat.
Proof.
  unfold unpack_le32. destruct (length l =? 4)%nat eqn:E; [|done].
  intros _. by apply Nat.eqb_eq.
Qed.

Lemma unpack_le32_length l : length l = 4%nat -> unpack_le32 l = inr (le_value l).
Proof. intros H. unfold unpack_le32. by rewrite H. Qed.

Lemma unpack_be32_ok l v : unpack_be32 l = inr v -> length l = 4%nat.
Proof.
  unfold unpack_be32. destruct (length l =? 4)%nat eqn:E; [|done].
  intros _. by apply Nat.eqb_eq.
Qed.

Lemma unpack_be32_length l : length l = 4%nat -> unpack_be32 l = inr (be_value l).
Proof. intros H. unfold unpack_be32. by rewrite H. Qed.

(** ** The digest is 64 lowercase hexadecimal characters *)

Module SHA256_facts.
Import SHA256.

Lemma length_round st kw : length st = 8%nat -> length (round st kw) = 8%nat.
Proof. do 9 (destruct st as [|? st]; try done). Qed.

Lemma length_rounds kws st :
  length st = 8%nat -> length (fold_left round kws st) = 8%nat.
Proof.
  revert st. induction kws as [|kw kws IH]; intros st H; simpl; [done|].
  apply IH. by apply length_round.
Qed.

Lemma length_compress st block :
  length st = 8%nat -> length (compress st block) = 8%nat.
Proof.
  intros H. unfold compress.
  rewrite length_zip_with, length_rounds, H; done.
Qed.

Lemma length_blocks n l st :
  length st = 8%nat -> length (blocks n l st) = 8%nat.
Proof.
  revert l st. induction n as [|n IH]; intros l st H; simpl; [done|].
  apply IH. by apply length_compress.
Qed.

Lemma length_digest_words msg : length (digest_words msg) = 8%nat.
Proof. unfold digest_words. by apply length_blocks. Qed.

Lemma hex_lower_spec d : d < 16 -> is_hex_lower (hex_lower d) = true.
Proof.
  intros H. unfold hex_lower, is_hex_lower, in_range.
  destruct (d <? 10) eqn:E.
  - apply N.ltb_lt in E. apply orb_true_iff. left.
    apply andb_true_iff. split; apply N.leb_le; lia.
  - apply N.ltb_ge in E. apply orb_true_iff. right.
    apply andb_true_iff. split; apply N.leb_le; lia.
Qed.

Lemma hex_word_spec w :
  length (hex_word w) = 8%nat /\ Forall (fun c => is_hex_lower c = true) (hex_word w).
Proof.
  unfold hex_word. split; [done|].
  apply Forall_fmap, Forall_forall. intros i _. simpl.
  apply hex_lower_spec, N.mod_upper_bound. done.
Qed.

Lemma hexdigest_spec msg :
  length (hexdigest msg) = 64%nat /\
  Forall (fun c => is_hex_lower c = true) (hexdigest msg).
Proof.
  unfold hexdigest. pose proof (length_digest_words msg) as H.
  generalize dependent (digest_words msg). intros ws H.
  do 8 (destruct ws as [|? ws]; [done|]). destruct ws; [|done].
  cbn [map concat]. split.
  - rewrite !length_app.
    repeat (rewrite (proj1 (hex_word_spec _))). done.
  - repeat (apply Forall_app; split); try apply hex_word_spec. done.
Qed.
End SHA256_facts.

Lemma is_hex_lower_ascii c : is_hex_lower c = true -> c < 128.
Proof.
  unfold is_hex_lower, in_range. intros H.
  apply orb_true_iff in H as [H|H]; apply andb_true_iff in H as [_ H];
    apply N.leb_le in H; lia.
Qed.

Lemma encode_ascii_ok s :
  Forall (fun c => c < 128) s ->
  encode_ascii s = inr (map byte_of_N s).
Proof.
  intros H. unfold encode_ascii.
  assert (forallb (fun c => c <? 128) s = true) as ->; [|done].
  apply forallb_forall. intros c Hc%list_elem_of_In.
  apply N.ltb_lt. by eapply Forall_forall in H.
Qed.

Lemma decode_encode_ascii s :
  Forall (fun c => c < 128) s ->
  decode_ascii_replace (map byte_of_N s) = s.
Proof.
  induction 1 as [|c s Hc _ IH]; [done|].
  simpl. rewrite to_N_byte_of_N, N.mod_small by lia.
  apply N.ltb_lt in Hc as ->. f_equal. apply IH.
Qed.

(** The digest always encodes, to 64 bytes that decode back to it. *)
Lemma encode_hexdigest msg :
  exists h, encode_ascii (SHA256.hexdigest msg) = inr h /\ length h = 64%nat /\
            decode_ascii_replace h = SHA256.hexdigest msg.
Proof.
  destruct (SHA256_facts.hexdigest_spec msg) as [Hlen Hhex].
  assert (Forall (fun c => c < 128) (SHA256.hexdigest msg)) as Hascii.
  { eapply Forall_impl; [exact Hhex|]. intros c. apply is_hex_lower_ascii. }
  exists (map byte_of_N (SHA256.hexdigest msg)). split; [|split].
  - by apply encode_ascii_ok.
  - by rewrite length_map.
  - by apply decode_encode_ascii.
Qed.

(** ** Buffers that only change from some position on *)

Lemma kept_below_refl {A} k (l : list A) : kept_below k l l.
Proof. by split. Qed.

Lemma kept_below_trans {A} k (l1 l2 l3 : list A) :
  kept_below k l1 l2 -> kept_below k l2 l3 -> kept_below k l1 l3.
Proof.
  intros [H1 H2] [H3 H4]. split; [lia|].
  intros i Hk Hi. rewrite H4 by lia. by apply H2.
Qed.

Lemma kept_below_weaken {A} k k' (l l' : list A) :
  (k' <= k)%nat -> kept_below k l l' -> kept_below k' l l'.
Proof. intros Hk [H1 H2]. split; [done|]. intros. apply H2; lia. Qed.

Lemma kept_below_slice_assign {A} (l v : list A) a b :
  (N.to_nat b - N.to_nat a <= length v)%nat ->
  kept_below (N.to_nat a) l (slice_assign l a b v).
Proof.
  intros Hv. split; [by apply length_slice_assign_ge|].
  intros i Hk Hi. apply lookup_slice_assign_lt. unfold clamp, len. lia.
Qed.

(** A slice that was complete and lies below [k] is still the same. *)
Lemma kept_below_slice {A} k (l l' : list A) a b :
  kept_below k l l' -> (N.to_nat b <= k)%nat -> (N.to_nat b <= length l)%nat ->
  slice l' a b = slice l a b.
Proof.
  intros [_ H] Hb Hl. apply slice_ext. intros i Hi. apply H; lia.
Qed.

(** ** The hash patcher never fails and only writes from the manifest on *)

Lemma patch_hash_cases secs sig_off buf m :
  patch_hash secs sig_off buf m = inr buf \/
  exists sec h,
    find (fun sec => str_eqb (remove_all (lit "file:") (path sec)) (strip (snd m)))
         secs = Some sec /\
    length h = 64%nat /\
    decode_ascii_replace h
    = SHA256.hexdigest (slice buf (data_offset sec) (data_offset sec + data_size sec)) /\
    patch_hash secs sig_off buf m
    = inr (slice_assign buf (sig_off + fst m) (sig_off + fst m + 64) h).
Proof.
  unfold patch_hash.
  destruct (find _ secs) as [sec|] eqn:E; [|by left].
  right.
  destruct (encode_hexdigest
              (slice buf (data_offset sec) (data_offset sec + data_size sec)))
    as (h & -> & Hlen & Hdec).
  by exists sec, h.
Qed.

Lemma patch_hash_kept secs sig_off buf m :
  exists buf', patch_hash secs sig_off buf m = inr buf' /\
               kept_below (N.to_nat sig_off) buf buf'.
Proof.
  destruct (patch_hash_cases secs sig_off buf m)
    as [->|(sec & h & _ & Hlen & _ & ->)].
  - eexists. split; [done|]. apply kept_below_refl.
  - eexists. split; [done|].
    eapply kept_below_weaken; [|apply kept_below_slice_assign; lia]. lia.
Qed.

Lemma patch_hashes_kept secs sig_off ms buf :
  exists buf', patch_hashes secs sig_off ms buf = inr buf' /\
               kept_below (N.to_nat sig_off) buf buf'.
Proof.
  unfold patch_hashes. revert buf.
  induction ms as [|m ms IH]; intros buf; simpl.
  - eexists. split; [done|]. apply kept_below_refl.
  - destruct (patch_hash_kept secs sig_off buf m) as (b1 & -> & H1).
    destruct (IH b1) as (b2 & -> & H2).
    eexists. split; [done|]. by eapply kept_below_trans.
Qed.

(** ** What [fix_signinfo] does, as one equation *)

Lemma find_signinfo_lookup l k0 k s :
  find_signinfo k0 l = Some (k, s) ->
  (k0 <= k)%nat /\ l !! (k - k0)%nat = Some s /\
  contains (lit "signinfo") (path s) = true /\
  forall j s', (j < k - k0)%nat -> l !! j = Some s' ->
               contains (lit "signinfo") (path s') = false.
Proof.
  revert k0. induction l as [|x l IH]; intros k0; simpl; [done|].
  destruct (contains (lit "signinfo") (path x)) eqn:E; simpl.
  - intros [= <- <-]. rewrite Nat.sub_diag. repeat split; [lia|done|].
    intros; lia.
  - intros H. destruct (IH _ H) as (Hle & Hl & Hc & Hbefore).
    split; [lia|]. split; [|split; [done|]].
    + replace (k - k0)%nat with (S (k - S k0)) by lia. done.
    + intros [|j] s' Hj; simpl.
      * by intros [= <-].
      * apply Hbefore. lia.
Qed.

Lemma fix_signinfo_eq fw :
  match find_signinfo 0 (sections fw) with
  | None => fix_signinfo fw = (inr tt, fw)
  | Some (k, section) =>
      let sig_off := data_offset section in
      let sig_size := data_size section in
      let raw1 := slice_assign (raw fw) sig_off (sig_off + 60) (replicate 60 x00) in
      let sig_text := decode_ascii_replace (slice raw1 sig_off (sig_off + sig_size)) in
      exists patched,
        patch_hashes (sections fw) sig_off (finditer sig_text) raw1 = inr patched /\
        fix_signinfo fw =
          (inr tt,
           set_sections
             (<[k := set_data (slice patched sig_off (sig_off + sig_size)) section]>
                (sections fw))
             (set_raw patched fw))
  end.
Proof.
  unfold fix_signinfo, bind, get.
  destruct (find_signinfo 0 (sections fw)) as [[k section]|] eqn:E; [|done].
  cbv zeta.
  set (raw1 := slice_assign (raw fw) (data_offset section)
                 (data_offset section + 60) (replicate 60 x00)).
  destruct (patch_hashes_kept (sections fw) (data_offset section)
    (finditer (decode_ascii_replace
       (slice raw1 (data_offset section)
              (data_offset section + data_size section)))) raw1)
    as (patched & Hp & _).
  exists patched. split; [exact Hp|].
  unfold modify, lift, ret. cbn [raw sections set_raw set_sections].
  fold raw1. rewrite Hp. reflexivity.
Qed.

(** ** Images of an editing session and their invariant *)

Lemma rbind_inr {A B} (r : result A) (k : A -> result B) b :
  rbind r k = inr b -> exists a, r = inr a /\ k a = inr b.
Proof. destruct r as [e|a]; simpl; [done|]. eauto. Qed.

Lemma parse_section_fields buf i off s :
  parse_section buf i off = inr s ->
  index s = i /\ data_offset s = off /\
  unpack_le32 (slice buf (SECT_DESC_START + i * SECT_DESC_SIZE + 8)
                          (SECT_DESC_START + i * SECT_DESC_SIZE + 12))
  = inr (data_size s) /\
  desc_raw s = slice buf (SECT_DESC_START + i * SECT_DESC_SIZE)
                          (SECT_DESC_START + i * SECT_DESC_SIZE + SECT_DESC_SIZE) /\
  data s = slice buf off (off + data_size s) /\
  file_name s = remove_all (lit "file:") (path s) /\
  (content_type s, text_content s) = classify (file_name s) (data_size s) (data s).
Proof.
  unfold parse_section. cbv zeta.
  intros (c & _ & H)%rbind_inr. apply rbind_inr in H as (so & _ & H).
  apply rbind_inr in H as (sz & Hsz & H).
  destruct (classify _ sz _) as [ct tc] eqn:Hc.
  injection H as <-. unfold new_section.
  cbn [index data_offset data_size desc_raw data file_name path
       content_type text_content].
  by rewrite Hc.
Qed.

Lemma parse_sections_spec buf n i off l :
  parse_sections buf n i off = inr l ->
  length l = n /\ laid_out off l.
Proof.
  revert i off l. induction n as [|n IH]; intros i off l; simpl.
  - by intros [= <-].
  - intros (s & Hs & H)%rbind_inr. apply rbind_inr in H as (rest & Hr & H).
    injection H as <-. apply parse_section_fields in Hs as (_ & Hoff & _).
    apply IH in Hr as [Hlen Hlay]. simpl. rewrite Hoff. by rewrite Hlen.
Qed.

(** What a successful parse tells about the header and the sections. *)
Lemma parse_inv b fw :
  parse b = inr fw ->
  raw fw = b /\ (32 <= length b)%nat /\
  slice b 0 4 = HWNP_MAGIC /\
  unpack_le32 (slice b 0x08 0x0C) = inr (head_crc fw) /\
  (exists w, unpack_le32 (slice b 0x14 0x18) = inr w /\
             item_num fw = N.land w 0xFF) /\
  unpack_le32 (slice b 0x1C 0x20) = inr (item_desc_size fw) /\
  parse_product_ids b = inr (product_ids fw) /\
  computed_crc fw = crc32 (slice_from b 0x0C) /\
  crc_valid fw = (computed_crc fw =? head_crc fw) /\
  parse_sections b (N.to_nat (item_num fw)) 0
                 (SECT_DESC_START + item_num fw * SECT_DESC_SIZE)
  = inr (sections fw).
Proof.
  unfold parse. destruct (bool_decide _) eqn:Hm; simpl; [|done].
  apply bool_decide_eq_true in Hm.
  intros (ps & _ & H)%rbind_inr. apply rbind_inr in H as (hc & Hhc & H).
  apply rbind_inr in H as (hl & _ & H). apply rbind_inr in H as (fc & _ & H).
  apply rbind_inr in H as (w & Hw & H). apply rbind_inr in H as (v & _ & H).
  apply rbind_inr in H as (ds & Hds & H).
  apply rbind_inr in H as (pids & Hpids & H).
  apply rbind_inr in H as (secs & Hsecs & H).
  injection H as <-. cbn.
  repeat split; try done; [|by exists w].
  apply unpack_le32_ok in Hds.
  pose proof (slice_full_inv b 0x1C 0x20) as Hf.
  rewrite Hds in Hf. specialize (Hf ltac:(lia) ltac:(done)). exact Hf.
Qed.

Lemma parse_wf b fw : parse b = inr fw -> wf fw.
Proof.
  intros H. apply parse_inv in H
    as (Hraw & Hlen & _ & _ & _ & _ & _ & _ & _ & Hsecs).
  apply parse_sections_spec in Hsecs as [_ Hlay].
  split; [by rewrite Hraw|done].
Qed.

Lemma laid_out_insert off l k s s' :
  l !! k = Some s -> data_offset s' = data_offset s ->
  data_size s' = data_size s -> laid_out off l -> laid_out off (<[k := s']> l).
Proof.
  revert off k. induction l as [|x l IH]; intros off [|k]; simpl; try done.
  - intros [= ->] Ho Hs [H1 H2]. by rewrite Ho, Hs.
  - intros Hk Ho Hs [H1 H2]. split; [done|]. by eapply IH.
Qed.

(** ** The methods as equations on the object *)

Lemma set_product_ids_eq ids fw :
  set_product_ids ids fw =
    match encode_ascii (join (lit "|") ids ++ lit "|") with
    | inl e => (inl e, fw)
    | inr pid_bytes =>
        if PID_MAX_LEN <? len pid_bytes then (inl ValueError_pid_too_long, fw)
        else
          let raw1 := slice_assign (raw fw) PID_OFFSET (PID_OFFSET + PID_MAX_LEN)
                        (replicate (N.to_nat PID_MAX_LEN) x00) in
          let raw2 := slice_assign raw1 PID_OFFSET (PID_OFFSET + len pid_bytes)
                        pid_bytes in
          (inr tt, set_product_ids_attr ids (set_raw raw2 fw))
    end.
Proof.
  unfold set_product_ids, bind, lift.
  destruct (encode_ascii _) as [e|pb]; [done|].
  destruct (PID_MAX_LEN <? len pb); done.
Qed.

Lemma set_section_data_eq idx new_data fw :
  set_section_data idx new_data fw =
    match py_index (sections fw) idx with
    | inl e => (inl e, fw)
    | inr k =>
        match sections fw !! k with
        | None => (inl IndexError, fw)
        | Some section =>
            if data_size section <? len new_data
            then (inl ValueError_too_large, fw)
            else
              let d := padded new_data (data_size section) in
              (inr tt,
               set_sections (<[k := with_payload section d]> (sections fw))
                 (set_raw (slice_assign (raw fw) (data_offset section)
                             (data_offset section + data_size section) d) fw))
        end
    end.
Proof.
  unfold set_section_data, bind, get, lift.
  destruct (py_index (sections fw) idx) as [e|k]; [done|].
  destruct (sections fw !! k) as [section|]; [|done].
  unfold padded, with_payload.
  destruct (len new_data =? data_size section) eqn:E1; cbn [negb].
  - apply N.eqb_eq in E1.
    destruct (data_size section <? len new_data) eqn:E2.
    { apply N.ltb_lt in E2. lia. }
    done.
  - apply N.eqb_neq in E1.
    destruct (len new_data <? data_size section) eqn:E2.
    + apply N.ltb_lt in E2.
      destruct (data_size section <? len new_data) eqn:E3.
      { apply N.ltb_lt in E3. lia. }
      done.
    + apply N.ltb_ge in E2.
      destruct (data_size section <? len new_data) eqn:E3; [done|].
      apply N.ltb_ge in E3. lia.
Qed.

Lemma length_padded d size :
  len d <= size -> length (padded d size) = N.to_nat size.
Proof.
  intros H. unfold padded, len in *.
  destruct (N.of_nat (length d) =? size) eqn:E; cbn [negb].
  - apply N.eqb_eq in E. lia.
  - rewrite length_app, length_replicate. lia.
Qed.

Lemma recalculate_crc_eq fw :
  (12 <= length (raw fw))%nat ->
  recalculate_crc fw =
    let c := crc32 (slice_from (raw fw) 0x0C) in
    (inr tt, set_crc c (set_raw (slice_assign (raw fw) 0x08 0x0C (pack_le32 c)) fw)).
Proof.
  intros H. unfold recalculate_crc, bind, get.
  destruct (len (raw fw) <? 12) eqn:E; [|done].
  apply N.ltb_lt in E. unfold len in E. lia.
Qed.

Lemma save_eq fw :
  save fw =
    match fix_signinfo fw with
    | (inl e, fw1) => (inl e, fw1)
    | (inr _, fw1) =>
        match recalculate_crc fw1 with
        | (inl e, fw2) => (inl e, fw2)
        | (inr _, fw2) => (inr (raw fw2), fw2)
        end
    end.
Proof.
  unfold save, bind, get, ret.
  destruct (fix_signinfo fw) as [[e|[]] fw1]; [done|].
  destruct (recalculate_crc fw1) as [[e|[]] fw2]; done.
Qed.

(** [fix_signinfo] always returns; the buffer keeps its length or grows, and
    keeps every byte below the start of the manifest. *)
Lemma fix_signinfo_kept fw :
  exists fw1, fix_signinfo fw = (inr tt, fw1) /\
    item_num fw1 = item_num fw /\
    match find_signinfo 0 (sections fw) with
    | None => fw1 = fw
    | Some (k, section) =>
        kept_below (N.to_nat (data_offset section)) (raw fw) (raw fw1) /\
        exists d, sections fw1 = <[k := set_data d section]> (sections fw)
    end.
Proof.
  pose proof (fix_signinfo_eq fw) as H.
  destruct (find_signinfo 0 (sections fw)) as [[k section]|] eqn:E.
  - cbv zeta in H. destruct H as (patched & Hp & ->).
    eexists. split; [done|]. split; [done|]. split; [|by eexists].
    cbn [raw set_sections set_raw].
    destruct (patch_hashes_kept (sections fw) (data_offset section)
      (finditer (decode_ascii_replace
        (slice (slice_assign (raw fw) (data_offset section)
                  (data_offset section + 60) (replicate 60 x00))
           (data_offset section) (data_offset section + data_size section))))
      (slice_assign (raw fw) (data_offset section) (data_offset section + 60)
         (replicate 60 x00))) as (p' & Hp' & Hk).
    rewrite Hp in Hp'. injection Hp' as <-.
    eapply kept_below_trans; [|exact Hk].
    apply kept_below_slice_assign. rewrite length_replicate. lia.
  - exists fw. by rewrite H.
Qed.

(** ** Every method keeps the invariant *)

Lemma wf_set_product_ids ids fw : wf fw -> wf (snd (set_product_ids ids fw)).
Proof.
  intros [Hlen Hlay]. rewrite set_product_ids_eq.
  destruct (encode_ascii _) as [e|pb]; [done|].
  destruct (PID_MAX_LEN <? len pb) eqn:E; [done|].
  apply N.ltb_ge in E. cbv zeta. cbn [snd]. split; [|done].
  cbn [raw set_product_ids_attr set_raw].
  etrans; [exact Hlen|]. etrans.
  - apply (length_slice_assign_ge (raw fw) PID_OFFSET (PID_OFFSET + PID_MAX_LEN)
             (replicate (N.to_nat PID_MAX_LEN) x00)).
    rewrite length_replicate. lia.
  - apply length_slice_assign_ge. unfold len. lia.
Qed.

Lemma with_payload_fields s d :
  data_offset (with_payload s d) = data_offset s /\
  data_size (with_payload s d) = data_size s /\
  data (with_payload s d) = d /\
  path (with_payload s d) = path s /\
  content_type (with_payload s d) = content_type s.
Proof.
  unfold with_payload. cbv zeta.
  destruct (text_like _); [destruct (decode_utf8 _)|]; done.
Qed.

Lemma wf_set_section_data idx d fw : wf fw -> wf (snd (set_section_data idx d fw)).
Proof.
  intros [Hlen Hlay]. rewrite set_section_data_eq.
  destruct (py_index (sections fw) idx) as [e|k]; [done|].
  destruct (sections fw !! k) as [section|] eqn:Hk; [|done].
  destruct (data_size section <? len d) eqn:E; [done|].
  apply N.ltb_ge in E. cbv zeta. cbn [snd]. split.
  - cbn [raw set_sections set_raw]. etrans; [exact Hlen|].
    apply length_slice_assign_ge. rewrite length_padded by done. lia.
  - cbn [sections item_num set_sections set_raw].
    destruct (with_payload_fields section (padded d (data_size section)))
      as (Ho & Hs & _).
    by eapply laid_out_insert.
Qed.

Lemma wf_fix_signinfo fw : wf fw -> wf (snd (fix_signinfo fw)).
Proof.
  intros [Hlen Hlay].
  destruct (fix_signinfo_kept fw) as (fw1 & -> & Hn & H). cbn [snd].
  destruct (find_signinfo 0 (sections fw)) as [[k section]|] eqn:E.
  - destruct H as [[Hl _] [d Hs]].
    apply find_signinfo_lookup in E as (_ & Hk & _).
    rewrite Nat.sub_0_r in Hk.
    split; [lia|]. rewrite Hn, Hs.
    by eapply laid_out_insert.
  - by subst fw1.
Qed.

Lemma wf_recalculate_crc fw : wf fw -> wf (snd (recalculate_crc fw)).
Proof.
  intros [Hlen Hlay]. rewrite recalculate_crc_eq by lia.
  cbv zeta. cbn [snd]. split; [|done].
  cbn [raw set_crc set_raw]. etrans; [exact Hlen|].
  apply length_slice_assign_ge. rewrite length_pack_le32. lia.
Qed.

Lemma save_steps fw :
  wf fw ->
  exists fw1, fix_signinfo fw = (inr tt, fw1) /\ wf fw1 /\
    let c := crc32 (slice_from (raw fw1) 0x0C) in
    let out := slice_assign (raw fw1) 0x08 0x0C (pack_le32 c) in
    save fw = (inr out, set_crc c (set_raw out fw1)).
Proof.
  intros Hwf. pose proof (wf_fix_signinfo fw Hwf) as Hwf1.
  destruct (fix_signinfo_kept fw) as (fw1 & Hfix & _).
  rewrite Hfix in Hwf1. cbn [snd] in Hwf1.
  exists fw1. split; [done|]. split; [done|].
  rewrite save_eq, Hfix, recalculate_crc_eq by (destruct Hwf1; lia).
  done.
Qed.

Lemma wf_save fw : wf fw -> wf (snd (save fw)).
Proof.
  intros Hwf. destruct (save_steps fw Hwf) as (fw1 & Hfix & Hwf1 & Hsave).
  cbv zeta in Hsave. rewrite Hsave. cbn [snd].
  pose proof (wf_recalculate_crc fw1 Hwf1) as H.
  rewrite recalculate_crc_eq in H by (destruct Hwf1; lia). exact H.
Qed.

Lemma reachable_wf fw : reachable fw -> wf fw.
Proof.
  induction 1 as [b fw Hp|ids fw _ IH|idx d fw _ IH|fw _ IH].
  - by eapply parse_wf.
  - by apply wf_set_product_ids.
  - by apply wf_set_section_data.
  - by apply wf_save.
Qed.

Lemma slice_slice_assign_same {A} (l v : list A) a b :
  (a <= b)%N -> (N.to_nat b <= length l)%nat -> length v = N.to_nat (b - a) ->
  slice (slice_assign l a b v) a b = v.
Proof.
  intros Hab Hb Hv. apply list_eq. intros i. rewrite lookup_slice.
  case_decide as Hi.
  - rewrite lookup_slice_assign_mid by lia. f_equal. lia.
  - symmetry. apply lookup_ge_None. lia.
Qed.

(** ** C1: the stored checksum after save *)

(** C1. For every image of an editing session, [save] succeeds; the four
    bytes at 0x08 of the written buffer are the little-endian CRC-32 of that
    buffer from 0x0C to its end, which is the buffer as [fix_signinfo] left
    it (the checksum is taken after the manifest patch); the cached checksum
    has the same value and the validity flag is true. *)
Theorem save_stores_crc fw :
  reachable fw ->
  exists out fw1 fw',
    fix_signinfo fw = (inr tt, fw1) /\
    save fw = (inr out, fw') /\ raw fw' = out /\
    slice_from out 0x0C = slice_from (raw fw1) 0x0C /\
    unpack_le32 (slice out 0x08 0x0C) = inr (crc32 (slice_from out 0x0C)) /\
    slice out 0x08 0x0C = pack_le32 (crc32 (slice_from out 0x0C)) /\
    head_crc fw' = crc32 (slice_from out 0x0C) /\
    crc_valid fw' = true.
Proof.
  intros Hwf%reachable_wf.
  destruct (save_steps fw Hwf) as (fw1 & Hfix & [Hlen1 _] & Hsave).
  cbv zeta in Hsave.
  set (c := crc32 (slice_from (raw fw1) 12)) in *.
  set (out := slice_assign (raw fw1) 8 12 (pack_le32 c)) in *.
  assert (slice_from out 12 = slice_from (raw fw1) 12) as Hfrom.
  { apply slice_from_slice_assign; [lia..|by rewrite length_pack_le32]. }
  assert (slice out 8 12 = pack_le32 c) as Hslice.
  { apply slice_slice_assign_same; [lia..|by rewrite length_pack_le32]. }
  exists out, fw1, (set_crc c (set_raw out fw1)).
  rewrite Hfrom, Hslice. fold c.
  repeat split; try done.
  apply unpack_pack_le32, crc32_bound.
Qed.

Lemma sample_parsed : parse sample_image = inr sample_fw.
Proof. vm_compute. reflexivity. Qed.

Lemma sample_reachable : reachable sample_fw.
Proof. exact (reach_parse _ _ sample_parsed). Qed.

Lemma save_stores_crc_witness :
  exists out fw1 fw',
    fix_signinfo sample_fw = (inr tt, fw1) /\
    save sample_fw = (inr out, fw') /\ raw fw' = out /\
    slice_from out 0x0C = slice_from (raw fw1) 0x0C /\
    unpack_le32 (slice out 0x08 0x0C) = inr (crc32 (slice_from out 0x0C)) /\
    slice out 0x08 0x0C = pack_le32 (crc32 (slice_from out 0x0C)) /\
    head_crc fw' = crc32 (slice_from out 0x0C) /\
    crc_valid fw' = true.
Proof. exact (save_stores_crc sample_fw sample_reachable). Defined.

(** ** C6, C7: replacing a section payload *)

Lemma py_index_nonneg {A} (l : list A) (i : Z) x :
  (0 <= i)%Z -> l !! Z.to_nat i = Some x -> py_index l i = inr (Z.to_nat i).
Proof.
  intros Hi Hl. apply lookup_lt_Some in Hl. unfold py_index.
  assert ((0 <=? i)%Z && (i <? Z.of_nat (length l))%Z = true) as ->; [|done].
  apply andb_true_iff. split; [apply Z.leb_le|apply Z.ltb_lt]; lia.
Qed.

Lemma padded_app d size :
  len d <= size -> padded d size = d ++ replicate (N.to_nat (size - len d)) x00.
Proof.
  intros H. unfold padded. destruct (len d =? size) eqn:E; cbn [negb]; [|done].
  apply N.eqb_eq in E. rewrite E, N.sub_diag. by rewrite app_nil_r.
Qed.

(** C6. With a valid index and at most [data_size] new bytes the call
    succeeds; the payload of the section is the new bytes followed by zero
    bytes up to exactly [data_size]; every other section object is what it
    was; and every byte of the buffer outside the slot of the section is
    what it was. *)
Theorem set_section_data_fits fw idx section b :
  (0 <= idx)%Z -> sections fw !! Z.to_nat idx = Some section ->
  len b <= data_size section ->
  exists fw' s',
    set_section_data idx b fw = (inr tt, fw') /\
    sections fw' !! Z.to_nat idx = Some s' /\
    data s' = b ++ replicate (N.to_nat (data_size section - len b)) x00 /\
    len (data s') = data_size section /\
    data_size s' = data_size section /\
    data_offset s' = data_offset section /\
    length (sections fw') = length (sections fw) /\
    (forall j, j <> Z.to_nat idx -> sections fw' !! j = sections fw !! j) /\
    (forall p, (p < length (raw fw))%nat ->
       (p < N.to_nat (data_offset section) \/
        N.to_nat (data_offset section + data_size section) <= p)%nat ->
       raw fw' !! p = raw fw !! p).
Proof.
  intros Hidx Hk Hlen. rewrite set_section_data_eq.
  rewrite (py_index_nonneg _ _ _ Hidx Hk), Hk.
  destruct (data_size section <? len b) eqn:E.
  { apply N.ltb_lt in E. lia. }
  cbv zeta.
  destruct (with_payload_fields section (padded b (data_size section)))
    as (Ho & Hs & Hd & _).
  eexists _, (with_payload section (padded b (data_size section))).
  split; [reflexivity|]. cbn [sections raw set_sections set_raw].
  split; [apply list_lookup_insert_eq; by eapply lookup_lt_Some|].
  rewrite Hd. split; [by apply padded_app|].
  split; [unfold len; rewrite length_padded by done; lia|].
  split; [done|]. split; [done|].
  split; [by rewrite length_insert|].
  split; [intros j Hj; by apply list_lookup_insert_ne|].
  intros p Hp Hout. apply lookup_slice_assign_outside; [lia| |done|lia].
  rewrite length_padded by done. lia.
Qed.

Lemma set_section_data_fits_witness :
  exists section fw' s',
    sections sample_fw !! 1%nat = Some section /\
    len [x07] <= data_size section /\
    set_section_data 1 [x07] sample_fw = (inr tt, fw') /\
    sections fw' !! 1%nat = Some s' /\
    data s' = [x07; x00; x00] /\
    (forall j, j <> 1%nat -> sections fw' !! j = sections sample_fw !! j).
Proof.
  destruct (sections sample_fw !! 1%nat) as [section|] eqn:Hs;
    [|vm_compute in Hs; discriminate Hs].
  assert (data_size section = 3) as Hsz.
  { vm_compute in Hs. injection Hs as <-. reflexivity. }
  assert (len [x07] <= data_size section) as Hle.
  { rewrite Hsz. vm_compute. discriminate. }
  destruct (set_section_data_fits sample_fw 1 section [x07])
    as (fw' & s' & H1 & H2 & H3 & _ & _ & _ & _ & H4 & _);
    [lia|exact Hs|exact Hle|].
  exists section, fw', s'. rewrite Hsz in H3.
  split; [reflexivity|]. split; [exact Hle|]. split; [exact H1|].
  split; [exact H2|]. split; [exact H3|exact H4].
Defined.

(** C7. With a valid index and more than [data_size] new bytes the call
    raises the size error and the object is left exactly as it was: buffer,
    payloads and header fields. *)
Theorem set_section_data_too_large fw idx section b :
  (0 <= idx)%Z -> sections fw !! Z.to_nat idx = Some section ->
  data_size section < len b ->
  set_section_data idx b fw = (inl ValueError_too_large, fw).
Proof.
  intros Hidx Hk Hlen. rewrite set_section_data_eq.
  rewrite (py_index_nonneg _ _ _ Hidx Hk), Hk.
  by apply N.ltb_lt in Hlen as ->.
Qed.

Lemma set_section_data_too_large_witness :
  exists section,
    sections sample_fw !! 1%nat = Some section /\
    data_size section < len [x01; x02; x03; x04] /\
    set_section_data 1 [x01; x02; x03; x04] sample_fw
    = (inl ValueError_too_large, sample_fw).
Proof.
  destruct (sections sample_fw !! 1%nat) as [section|] eqn:Hs;
    [|vm_compute in Hs; discriminate Hs].
  assert (data_size section = 3) as Hsz.
  { vm_compute in Hs. injection Hs as <-. reflexivity. }
  assert (data_size section < len [x01; x02; x03; x04]) as Hlt.
  { rewrite Hsz. vm_compute. reflexivity. }
  exists section. split; [reflexivity|]. split; [exact Hlt|].
  apply (set_section_data_too_large sample_fw 1 section); [lia|exact Hs|exact Hlt].
Defined.

(** ** C4: the computed data offsets *)

Lemma align4_spec x :
  x <= align4 x /\ align4 x < x + 4 /\ align4 x mod 4 = 0.
Proof.
  unfold align4. pose proof (N.mod_upper_bound x 4 ltac:(done)) as Hm.
  pose proof (N.div_mod' x 4) as Hd.
  destruct (x mod 4 =? 0) eqn:E; cbn [negb].
  - apply N.eqb_eq in E. split; [lia|]. split; [lia|done].
  - apply N.eqb_neq in E.
    assert (x + (4 - x mod 4) = (x / 4 + 1) * 4) as Heq.
    { revert Hm Hd E. generalize (x mod 4) (x / 4). intros m q. lia. }
    rewrite Heq, N.Div0.mod_mul.
    revert Hm Hd E. generalize (x mod 4) (x / 4). intros m q. lia.
Qed.

Lemma laid_out_offset off l i s :
  laid_out off l -> l !! i = Some s ->
  data_offset s = off + occupied (take i l).
Proof.
  revert off i. induction l as [|x l IH]; intros off i; [done|].
  destruct i as [|i]; cbn [laid_out].
  - intros [H _] [= <-]. cbn. lia.
  - intros [H1 H2] Hi. cbn in Hi. rewrite (IH _ _ H2 Hi).
    cbn [take occupied fold_right]. fold (occupied (take i l)).
    unfold padding. rewrite H1.
    pose proof (align4_spec (off + data_size x)). lia.
Qed.

(** C4. In every image of an editing session the data offset of section
    [i] is the end of the descriptor table, [SECT_DESC_START + item_num *
    SECT_DESC_SIZE] with the 360-byte entry size, plus the sizes and
    paddings of the sections before it; the padding of a section is the
    least number of bytes that brings its end to a multiple of 4. *)
Theorem data_offset_formula fw i s :
  reachable fw -> sections fw !! i = Some s ->
  SECT_DESC_SIZE = 360 /\
  data_offset s
  = SECT_DESC_START + item_num fw * SECT_DESC_SIZE
    + occupied (take i (sections fw)) /\
  forall t, t ∈ sections fw ->
    padding t < 4 /\
    (data_offset t + data_size t + padding t) mod 4 = 0.
Proof.
  intros [_ Hlay]%reachable_wf Hi. split; [done|]. split.
  - by apply laid_out_offset.
  - intros t _. unfold padding.
    pose proof (align4_spec (data_offset t + data_size t)) as (H1 & H2 & H3).
    split; [lia|].
    replace (data_offset t + data_size t
             + (align4 (data_offset t + data_size t)
                - (data_offset t + data_size t)))
      with (align4 (data_offset t + data_size t)) by lia.
    exact H3.
Qed.

Lemma data_offset_formula_witness :
  exists s,
    sections sample_fw !! 2%nat = Some s /\
    data_offset s = 0x128 + 3 * 360 + (1 + 3 + (3 + 1) + 0) /\
    data_offset s
    = SECT_DESC_START + item_num sample_fw * SECT_DESC_SIZE
      + occupied (take 2 (sections sample_fw)).
Proof.
  destruct (sections sample_fw !! 2%nat) as [s|] eqn:Hs;
    [|vm_compute in Hs; discriminate Hs].
  destruct (data_offset_formula sample_fw 2 s sample_reachable Hs)
    as (_ & H & _).
  exists s. split; [reflexivity|]. split; [|exact H].
  vm_compute in Hs. injection Hs as <-. reflexivity.
Defined.

(** ** Prefixes, suffixes and the removal of the scheme prefix *)

Lemma startswith_spec p s : startswith p s = true <-> exists t, s = p ++ t.
Proof.
  revert s. induction p as [|x p IH]; intros s; simpl.
  - split; [eauto|done].
  - destruct s as [|y s].
    + split; [done|]. intros [t Ht]. discriminate Ht.
    + rewrite andb_true_iff, N.eqb_eq, IH. split.
      * intros [-> [t ->]]. by exists t.
      * intros [t [= -> ->]]. eauto.
Qed.

Lemma endswith_spec p s : endswith p s = true <-> exists t, s = t ++ p.
Proof.
  unfold endswith. rewrite startswith_spec. split.
  - intros [t Ht]. exists (rev t).
    apply (f_equal (@rev N)) in Ht. rewrite rev_involutive in Ht.
    by rewrite Ht, rev_app_distr, rev_involutive.
  - intros [t ->]. exists (rev t). by rewrite rev_app_distr.
Qed.

Lemma lit_file : lit "file:" = [102; 105; 108; 101; 58].
Proof. reflexivity. Qed.

Lemma lit_xml : lit ".xml" = [46; 120; 109; 108].
Proof. reflexivity. Qed.

(** An occurrence of [file:] cannot reach into a trailing [.xml]. *)
Lemma startswith_file_app_xml t :
  startswith (lit "file:") (t ++ lit ".xml") = startswith (lit "file:") t /\
  (startswith (lit "file:") t = true -> (5 <= length t)%nat).
Proof.
  rewrite lit_file, lit_xml.
  destruct t as [|a [|b [|c [|d [|e t]]]]]; cbn [app startswith length];
    rewrite ?andb_false_r; cbn [N.eqb Pos.eqb andb];
    rewrite ?andb_false_r; (split; [done|]); (done || lia).
Qed.

Lemma remove_all_from_app_xml t k :
  (k <= length t)%nat ->
  remove_all_from k (lit "file:") (t ++ lit ".xml")
  = remove_all_from k (lit "file:") t ++ lit ".xml".
Proof.
  revert k. induction t as [|c t IH]; intros k Hk.
  - assert (k = 0%nat) as -> by (simpl in Hk; lia). reflexivity.
  - destruct k as [|k].
    + cbn [app remove_all_from].
      change (c :: t ++ lit ".xml") with ((c :: t) ++ lit ".xml").
      destruct (startswith_file_app_xml (c :: t)) as [-> Hlen].
      destruct (startswith (lit "file:") (c :: t)).
      * apply IH. specialize (Hlen eq_refl). simpl in *. lia.
      * cbn [app]. f_equal. apply IH. lia.
    + cbn [app remove_all_from]. apply IH. simpl in Hk. lia.
Qed.

(** A path with the XML extension gives a file name with it. *)
Lemma endswith_xml_remove_all p :
  endswith (lit ".xml") p = true ->
  endswith (lit ".xml") (remove_all (lit "file:") p) = true.
Proof.
  intros [t ->]%endswith_spec. apply endswith_spec.
  exists (remove_all (lit "file:") t). apply remove_all_from_app_xml. lia.
Qed.

Lemma endswith_xml_not_sh f :
  endswith (lit ".xml") f = true -> endswith (lit ".sh") f = false.
Proof.
  intros [t ->]%endswith_spec. unfold endswith.
  rewrite rev_app_distr. reflexivity.
Qed.

(** ** Sections of a parsed image come from the descriptor loop *)

Lemma parse_sections_elem buf n i off l s :
  parse_sections buf n i off = inr l -> s ∈ l ->
  exists j off', parse_section buf j off' = inr s.
Proof.
  revert i off l. induction n as [|n IH]; intros i off l; simpl.
  - intros [= <-] Hs. by apply elem_of_nil in Hs.
  - intros (x & Hx & H)%rbind_inr. apply rbind_inr in H as (rest & Hr & H).
    injection H as <-. intros [->|Hs]%elem_of_cons; [eauto|].
    by eapply IH.
Qed.

Lemma parsed_section_classified b fw s :
  parse b = inr fw -> s ∈ sections fw ->
  file_name s = remove_all (lit "file:") (path s) /\
  (content_type s, text_content s)
  = classify (file_name s) (data_size s) (data s).
Proof.
  intros H Hs.
  apply parse_inv in H as (_ & _ & _ & _ & _ & _ & _ & _ & _ & H).
  destruct (parse_sections_elem _ _ _ _ _ _ H Hs) as (j & off & Hj).
  by apply parse_section_fields in Hj as (_ & _ & _ & _ & _ & Hf & Hc).
Qed.

(** ** C8: an XML section that is not UTF-8 *)

(** C8, counterexample. The first section of the sample image has the path
    [file:/var/a.xml] and the payload [0xFF]; it is classified [binary]. *)
Lemma xml_claim_counterexample : ~ xml_claim.
Proof.
  intros H.
  destruct (sections sample_fw !! 0%nat) as [s|] eqn:Hs;
    [|vm_compute in Hs; discriminate Hs].
  destruct (H sample_image sample_fw s sample_parsed) as [Hc _].
  - by eapply list_elem_of_lookup_2.
  - vm_compute in Hs. injection Hs as <-. vm_compute. reflexivity.
  - vm_compute in Hs. injection Hs as <-. vm_compute. reflexivity.
  - vm_compute in Hs. injection Hs as <-. discriminate Hc.
Qed.

(** C8, as the code has it. A section of a parsed image whose path ends
    with [.xml] and whose payload is not valid UTF-8 is classified [binary]
    and has no decoded text. *)
Theorem xml_invalid_utf8_is_binary b fw s :
  parse b = inr fw -> s ∈ sections fw ->
  endswith (lit ".xml") (path s) = true -> decode_utf8 (data s) = None ->
  content_type s = Binary /\ text_content s = None.
Proof.
  intros Hp Hs Hx Hd.
  destruct (parsed_section_classified b fw s Hp Hs) as [Hf Hc].
  apply endswith_xml_remove_all in Hx. rewrite <- Hf in Hx.
  unfold classify in Hc.
  rewrite (endswith_xml_not_sh _ Hx), Hx, Hd in Hc.
  by injection Hc as -> ->.
Qed.

Lemma xml_invalid_utf8_is_binary_witness :
  exists s,
    sections sample_fw !! 0%nat = Some s /\
    endswith (lit ".xml") (path s) = true /\ decode_utf8 (data s) = None /\
    content_type s = Binary /\ text_content s = None.
Proof.
  destruct (sections sample_fw !! 0%nat) as [s|] eqn:Hs;
    [|vm_compute in Hs; discriminate Hs].
  assert (endswith (lit ".xml") (path s) = true) as Hx.
  { vm_compute in Hs. injection Hs as <-. vm_compute. reflexivity. }
  assert (decode_utf8 (data s) = None) as Hd.
  { vm_compute in Hs. injection Hs as <-. vm_compute. reflexivity. }
  exists s. split; [reflexivity|]. split; [exact Hx|]. split; [exact Hd|].
  apply (xml_invalid_utf8_is_binary sample_image sample_fw s sample_parsed);
    [by eapply list_elem_of_lookup_2|exact Hx|exact Hd].
Defined.

(** ** C9: flags *)

(** C9, counterexample. The second section of the sample image has the
    payload [01 0A FF]; its text is ["0x01 0x0A 0xFF"], not ["01 0A FF"]. *)
Lemma flag_claim_counterexample : ~ flag_claim.
Proof.
  intros H.
  destruct (sections sample_fw !! 1%nat) as [s|] eqn:Hs;
    [|vm_compute in Hs; discriminate Hs].
  destruct (H sample_image sample_fw s sample_parsed) as [_ Ht].
  - by eapply list_elem_of_lookup_2.
  - vm_compute in Hs. injection Hs as <-. vm_compute. reflexivity.
  - vm_compute in Hs. injection Hs as <-. vm_compute. reflexivity.
  - vm_compute in Hs. injection Hs as <-. vm_compute. discriminate.
  - vm_compute in Hs. injection Hs as <-. vm_compute in Ht. discriminate Ht.
Qed.

(** C9, as the code has it. A section of a parsed image whose file name
    (the path without [file:]) ends with neither [.sh] nor [.xml] and whose
    [data_size] is at most 4 is classified [flag]; its text is, for each
    payload byte, [0x] followed by the two uppercase hexadecimal digits of
    the byte, joined by single spaces, whatever the bytes are. *)
Theorem small_section_is_flag b fw s :
  parse b = inr fw -> s ∈ sections fw ->
  endswith (lit ".sh") (file_name s) = false ->
  endswith (lit ".xml") (file_name s) = false ->
  data_size s <= 4 ->
  content_type s = Flag /\
  text_content s
  = Some (join (lit " ") (map (fun x => lit "0x" ++ fmt_02X x) (data s))).
Proof.
  intros Hp Hs Hsh Hx Hsz.
  destruct (parsed_section_classified b fw s Hp Hs) as [_ Hc].
  unfold classify in Hc. rewrite Hsh, Hx in Hc.
  apply N.leb_le in Hsz. rewrite Hsz in Hc.
  by injection Hc as -> ->.
Qed.

Lemma small_section_is_flag_witness :
  exists s,
    sections sample_fw !! 1%nat = Some s /\
    endswith (lit ".sh") (file_name s) = false /\
    endswith (lit ".xml") (file_name s) = false /\
    data_size s <= 4 /\
    content_type s = Flag /\
    text_content s = Some (lit "0x01 0x0A 0xFF").
Proof.
  destruct (sections sample_fw !! 1%nat) as [s|] eqn:Hs;
    [|vm_compute in Hs; discriminate Hs].
  assert (endswith (lit ".sh") (file_name s) = false) as Hsh.
  { vm_compute in Hs. injection Hs as <-. vm_compute. reflexivity. }
  assert (endswith (lit ".xml") (file_name s) = false) as Hx.
  { vm_compute in Hs. injection Hs as <-. vm_compute. reflexivity. }
  assert (data_size s <= 4) as Hsz.
  { vm_compute in Hs. injection Hs as <-. vm_compute. discriminate. }
  destruct (small_section_is_flag sample_image sample_fw s sample_parsed)
    as [Hc Ht]; [by eapply list_elem_of_lookup_2|exact Hsh|exact Hx|exact Hsz|].
  exists s. split; [reflexivity|]. split; [exact Hsh|]. split; [exact Hx|].
  split; [exact Hsz|]. split; [exact Hc|]. rewrite Ht.
  vm_compute in Hs. injection Hs as <-. vm_compute. reflexivity.
Defined.

(** ** C10: the stored descriptor-entry size is never used *)

Lemma parse_sections_lookup buf n i0 off l j s :
  parse_sections buf n i0 off = inr l -> l !! j = Some s ->
  exists off', parse_section buf (i0 + N.of_nat j) off' = inr s.
Proof.
  revert i0 off l j. induction n as [|n IH]; intros i0 off l j; simpl.
  - by intros [= <-].
  - intros (x & Hx & H)%rbind_inr. apply rbind_inr in H as (rest & Hr & H).
    injection H as <-. destruct j as [|j]; simpl.
    + intros [= <-]. exists off. by rewrite N.add_0_r.
    + intros Hj. destruct (IH _ _ _ _ Hr Hj) as [off' H].
      exists off'. rewrite <- H. f_equal. lia.
Qed.

Section entry_size_field.
Variables (b v : bytes).
Hypothesis Hb : (32 <= length b)%nat.
Hypothesis Hv : length v = 4%nat.

Let b' := slice_assign b 0x1C 0x20 v.

Lemma entry_size_length : length b' = length b.
Proof. apply length_slice_assign_inside; [lia..|by rewrite Hv]. Qed.

Lemma entry_size_lookup p :
  (p < 28 \/ 32 <= p)%nat -> b' !! p = b !! p.
Proof.
  intros Hp. destruct (decide (p < length b)%nat).
  - apply lookup_slice_assign_outside; [lia|by rewrite Hv|done|lia].
  - rewrite !lookup_ge_None_2; [done|lia|rewrite entry_size_length; lia].
Qed.

Lemma entry_size_slice a c :
  (c <= 28 \/ 32 <= a)%N -> slice b' a c = slice b a c.
Proof. intros H. apply slice_ext. intros i Hi. apply entry_size_lookup. lia. Qed.

Lemma entry_size_slice_from a :
  (32 <= a)%N -> slice_from b' a = slice_from b a.
Proof.
  intros H. apply slice_from_slice_assign; [lia..|by rewrite Hv].
Qed.

Lemma entry_size_product_ids : parse_product_ids b' = parse_product_ids b.
Proof.
  unfold parse_product_ids, index_from.
  rewrite !entry_size_slice by (cbv; right; discriminate).
  rewrite entry_size_slice_from by (cbv; discriminate).
  assert (clamp b' PID_OFFSET = clamp b PID_OFFSET) as ->
    by (unfold clamp, len; by rewrite entry_size_length).
  destruct (byte_in x00 _); [|cbn [rbind]; by rewrite entry_size_slice
                                 by (cbv; right; discriminate)].
  destruct (index_of x00 (slice_from b PID_OFFSET)) as [k|]; [|done].
  cbn [rbind]. rewrite entry_size_slice; [done|]. cbv. right. discriminate.
Qed.

Lemma entry_size_section i off :
  (32 <= off)%N -> parse_section b' i off = parse_section b i off.
Proof.
  intros Hoff. unfold parse_section. cbv zeta.
  assert (32 <= SECT_DESC_START + i * SECT_DESC_SIZE)%N as Hd
    by (unfold SECT_DESC_START; lia).
  rewrite !entry_size_slice by (right; lia).
  do 3 (destruct (unpack_le32 _) as [e|?]; [done|]; cbn [rbind]).
  by rewrite entry_size_slice by (right; lia).
Qed.

Lemma entry_size_sections n i off :
  (32 <= off)%N -> parse_sections b' n i off = parse_sections b n i off.
Proof.
  revert i off. induction n as [|n IH]; intros i off Hoff; [done|].
  cbn [parse_sections]. rewrite entry_size_section by done.
  destruct (parse_section b i off) as [e|s]; [done|]. cbn [rbind].
  rewrite IH; [done|].
  pose proof (align4_spec (off + data_size s)). lia.
Qed.
End entry_size_field.

(** C10. Every descriptor of a parsed image is read at [0x128 + 360 * i],
    with the constant 360 for every entry; and writing any four bytes over
    the header field at 0x1C gives an image that parses with the same item
    count and the same sections (descriptors, offsets, sizes, payloads):
    only the cached field itself follows the stored value. *)
Theorem stored_entry_size_unused b fw v :
  parse b = inr fw -> length v = 4%nat ->
  (forall i s, sections fw !! i = Some s ->
     desc_raw s = slice b (296 + 360 * N.of_nat i) (296 + 360 * N.of_nat i + 360)) /\
  exists fw',
    parse (slice_assign b 0x1C 0x20 v) = inr fw' /\
    item_desc_size fw' = le_value v /\
    item_num fw' = item_num fw /\
    sections fw' = sections fw.
Proof.
  intros Hp Hv. split.
  - apply parse_inv in Hp as (_ & _ & _ & _ & _ & _ & _ & _ & _ & Hs).
    intros i s Hi.
    destruct (parse_sections_lookup _ _ _ _ _ _ _ Hs Hi) as [off Hsec].
    apply parse_section_fields in Hsec as (_ & _ & _ & Hd & _).
    rewrite Hd. unfold SECT_DESC_START, SECT_DESC_SIZE. f_equal; lia.
  - pose proof Hp as Hinv.
    apply parse_inv in Hinv as (_ & Hb & _).
    unfold parse in Hp |- *.
    rewrite !(entry_size_slice b v Hb Hv) by (cbv; left; discriminate).
    destruct (negb _); [done|].
    destruct (unpack_be32 _) as [e|ps]; [done|]. cbn [rbind] in *.
    do 5 (rewrite ?(entry_size_slice b v Hb Hv) by (cbv; left; discriminate);
          destruct (unpack_le32 _) as [e|?]; [done|]; cbn [rbind] in * ).
    rewrite (slice_slice_assign_same b v 0x1C 0x20) by (lia || by rewrite Hv).
    rewrite (unpack_le32_length v Hv). cbn [rbind].
    destruct (unpack_le32 (slice b 28 32)) as [e|ds]; [done|]. cbn [rbind] in *.
    rewrite (entry_size_product_ids b v Hb Hv).
    destruct (parse_product_ids b) as [e|pids]; [done|]. cbn [rbind] in *.
    rewrite (entry_size_sections b v Hb Hv)
      by (unfold SECT_DESC_START; lia).
    destruct (parse_sections b _ 0 _) as [e|secs]; [done|]. cbn [rbind] in *.
    injection Hp as <-. eexists. split; [reflexivity|]. done.
Qed.

Lemma stored_entry_size_unused_witness :
  exists fw',
    parse (slice_assign sample_image 0x1C 0x20 [xff; xff; x00; x00]) = inr fw' /\
    item_desc_size fw' = 65535 /\
    item_desc_size sample_fw = 360 /\
    sections fw' = sections sample_fw.
Proof.
  destruct (stored_entry_size_unused sample_image sample_fw
              [xff; xff; x00; x00] sample_parsed eq_refl)
    as (_ & fw' & H1 & H2 & _ & H3).
  exists fw'. split; [exact H1|]. split; [exact H2|].
  split; [vm_compute; reflexivity|exact H3].
Defined.

(** ** C3: the structure survives save and a second parse *)

Lemma index_of_byte_in x l :
  byte_in x l = true -> exists k, index_of x l = Some k.
Proof.
  induction l as [|y l IH]; simpl; [done|].
  destruct (Byte.eqb x y); [eauto|]. simpl.
  intros [k ->]%IH. eauto.
Qed.

Lemma byte_in_take x n l : byte_in x (take n l) = true -> byte_in x l = true.
Proof.
  unfold byte_in. rewrite <- (take_drop n l) at 2.
  rewrite existsb_app. by intros ->.
Qed.

(** The identifier window always decodes. *)
Lemma parse_product_ids_total buf : exists ids, parse_product_ids buf = inr ids.
Proof.
  unfold parse_product_ids.
  destruct (byte_in x00 _) eqn:E; [|cbn [rbind]; eauto].
  unfold slice in E. apply byte_in_take in E.
  unfold index_from, slice_from.
  destruct (index_of_byte_in _ _ E) as [k ->]. cbn [rbind]. eauto.
Qed.

Lemma parse_section_unpacks buf i off s :
  parse_section buf i off = inr s ->
  exists c so,
    unpack_le32 (slice buf (SECT_DESC_START + i * SECT_DESC_SIZE)
                   (SECT_DESC_START + i * SECT_DESC_SIZE + 4)) = inr c /\
    unpack_le32 (slice buf (SECT_DESC_START + i * SECT_DESC_SIZE + 4)
                   (SECT_DESC_START + i * SECT_DESC_SIZE + 8)) = inr so /\
    unpack_le32 (slice buf (SECT_DESC_START + i * SECT_DESC_SIZE + 8)
                   (SECT_DESC_START + i * SECT_DESC_SIZE + 12))
    = inr (data_size s) /\
    data_offset s = off.
Proof.
  intros H. pose proof (parse_section_fields _ _ _ _ H) as (_ & Ho & Hs & _).
  unfold parse_section in H. cbv zeta in H.
  apply rbind_inr in H as (c & Hc & H). apply rbind_inr in H as (so & Hso & _).
  by exists c, so.
Qed.

Lemma parse_section_ok buf i off c so sz :
  unpack_le32 (slice buf (SECT_DESC_START + i * SECT_DESC_SIZE)
                 (SECT_DESC_START + i * SECT_DESC_SIZE + 4)) = inr c ->
  unpack_le32 (slice buf (SECT_DESC_START + i * SECT_DESC_SIZE + 4)
                 (SECT_DESC_START + i * SECT_DESC_SIZE + 8)) = inr so ->
  unpack_le32 (slice buf (SECT_DESC_START + i * SECT_DESC_SIZE + 8)
                 (SECT_DESC_START + i * SECT_DESC_SIZE + 12)) = inr sz ->
  exists s, parse_section buf i off = inr s /\
            data_offset s = off /\ data_size s = sz.
Proof.
  intros Hc Hso Hsz. unfold parse_section. cbv zeta.
  rewrite Hc, Hso, Hsz. cbn [rbind].
  destruct (classify _ _ _) as [ct tc]. eexists. split; [reflexivity|]. done.
Qed.

(** The descriptor table decides the layout: a buffer that is at least as
    long and has the same bytes in the descriptors gives the same one. *)
Lemma parse_sections_layout buf buf' n i off l :
  parse_sections buf n i off = inr l ->
  (length buf <= length buf')%nat ->
  (forall p, (N.to_nat SECT_DESC_START <= p < length buf)%nat ->
             (p < N.to_nat (SECT_DESC_START + (i + N.of_nat n) * SECT_DESC_SIZE))%nat ->
             buf' !! p = buf !! p) ->
  exists l', parse_sections buf' n i off = inr l' /\ layout l' = layout l.
Proof.
  revert i off l. induction n as [|n IH]; intros i off l H Hlen Hsame.
  - injection H as <-. by exists [].
  - cbn [parse_sections] in H |- *.
    apply rbind_inr in H as (s & Hs & H). apply rbind_inr in H as (rest & Hr & H).
    injection H as <-.
    destruct (parse_section_unpacks _ _ _ _ Hs) as (c & so & Hc & Hso & Hsz & Ho).
    set (d := SECT_DESC_START + i * SECT_DESC_SIZE) in *.
    assert (N.to_nat (d + 12) <= length buf)%nat as Hin.
    { apply unpack_le32_ok in Hsz.
      apply (slice_full_inv buf (d + 8) (d + 12)); [lia|]. rewrite Hsz. lia. }
    assert (forall a e, d <= a -> e <= d + 12 -> slice buf' a e = slice buf a e)
      as Hsl.
    { intros a e Ha He. apply slice_ext. intros p Hp. apply Hsame.
      - subst d. unfold SECT_DESC_START in *. lia.
      - subst d. unfold SECT_DESC_SIZE in *. lia. }
    destruct (parse_section_ok buf' i off c so (data_size s))
      as (s' & Hs' & Ho' & Hsz').
    { subst d. rewrite Hsl by lia. exact Hc. }
    { subst d. rewrite Hsl by lia. exact Hso. }
    { subst d. rewrite Hsl by lia. exact Hsz. }
    rewrite Hs'. cbn [rbind]. rewrite Hsz'.
    destruct (IH (i + 1) (align4 (off + data_size s)) rest Hr Hlen)
      as (rest' & Hr' & Hl').
    { intros p Hp1 Hp2. apply Hsame; [done|]. lia. }
    rewrite Hr'. cbn [rbind]. eexists. split; [reflexivity|].
    cbn [layout map]. fold (layout rest') (layout rest).
    by rewrite Ho, Ho', Hsz', Hl'.
Qed.

(** The manifest starts at or after the end of the descriptor table. *)
Lemma find_signinfo_offset fw k section :
  wf fw -> find_signinfo 0 (sections fw) = Some (k, section) ->
  SECT_DESC_START + item_num fw * SECT_DESC_SIZE <= data_offset section.
Proof.
  intros [_ Hlay] (_ & Hk & _)%find_signinfo_lookup.
  rewrite Nat.sub_0_r in Hk.
  rewrite (laid_out_offset _ _ _ _ Hlay Hk). lia.
Qed.

(** C3. For every buffer that parses, [save] of the parsed image succeeds
    and the written bytes parse again, to an image with the same item
    count, the same number of sections and, section by section, the same
    computed data offset and the same data size.  (The written bytes
    themselves differ in general: the checksum field and the manifest are
    rewritten.) *)
Theorem parse_save_parse_structure b fw :
  parse b = inr fw ->
  exists out fw' fw2,
    save fw = (inr out, fw') /\
    parse out = inr fw2 /\
    item_num fw2 = item_num fw /\
    length (sections fw2) = length (sections fw) /\
    layout (sections fw2) = layout (sections fw).
Proof.
  intros Hp. pose proof (parse_wf _ _ Hp) as Hwf.
  apply parse_inv in Hp
    as (Hraw & Hlen & Hmagic & _ & (w & Hw & Hn) & _ & _ & _ & _ & Hsecs).
  destruct (save_steps fw Hwf) as (fw1 & Hfix & [Hlen1 _] & Hsave).
  cbv zeta in Hsave.
  set (c := crc32 (slice_from (raw fw1) 12)) in *.
  set (out := slice_assign (raw fw1) 8 12 (pack_le32 c)) in *.
  set (tend := SECT_DESC_START + item_num fw * SECT_DESC_SIZE) in *.
  assert (296 <= tend) as Htend by (unfold tend, SECT_DESC_START; lia).
  assert (kept_below (N.to_nat tend) b (raw fw1)) as [Hk1 Hk2].
  { destruct (fix_signinfo_kept fw) as (fw1' & Hfix' & _ & H).
    rewrite Hfix in Hfix'. injection Hfix' as <-.
    destruct (find_signinfo 0 (sections fw)) as [[k section]|] eqn:E.
    - destruct H as [H _]. rewrite Hraw in H.
      eapply kept_below_weaken; [|exact H].
      pose proof (find_signinfo_offset fw k section Hwf E). unfold tend. lia.
    - subst fw1. rewrite Hraw. apply kept_below_refl. }
  assert (length out = length (raw fw1)) as Hlo.
  { apply length_slice_assign_inside; [lia..|by rewrite length_pack_le32]. }
  assert (forall p, (p < length b)%nat -> (p < N.to_nat tend)%nat ->
                    (p < 8 \/ 12 <= p)%nat -> out !! p = b !! p) as Hsame.
  { intros p H1 H2 H3. unfold out.
    rewrite lookup_slice_assign_outside;
      [apply Hk2; lia|lia|by rewrite length_pack_le32|lia|lia]. }
  assert (forall a e, (e <= 8 \/ 12 <= a) -> e <= 32 ->
                      slice out a e = slice b a e) as Hhdr.
  { intros a e H1 H2. apply slice_ext. intros p Hp. apply Hsame; lia. }
  assert (forall a, a + 4 <= 32 -> length (slice out a (a + 4)) = 4%nat) as Hl4.
  { intros a Ha. rewrite length_slice_full; lia. }
  destruct (parse_product_ids_total out) as [ids Hids].
  destruct (parse_sections_layout b out _ 0 _ _ Hsecs) as (l' & Hl' & Hlay).
  { lia. }
  { intros p Hp1 Hp2. apply Hsame; [lia|unfold tend; lia|].
    right. unfold SECT_DESC_START in Hp1. lia. }
  assert (N.land (le_value (slice out 20 24)) 255 = item_num fw) as Hitem.
  { rewrite Hhdr by lia. rewrite Hn. f_equal.
    rewrite unpack_le32_length in Hw; [by injection Hw|].
    apply length_slice_full; lia. }
  assert (exists fw2, parse out = inr fw2 /\ item_num fw2 = item_num fw /\
                      sections fw2 = l') as (fw2 & Hp2 & Hn2 & Hs2).
  { unfold parse. rewrite (Hhdr 0 4) by lia.
    rewrite bool_decide_eq_true_2 by exact Hmagic. cbn [negb].
    rewrite (unpack_be32_length (slice out 4 8)) by (apply (Hl4 4); lia).
    cbn [rbind].
    rewrite (unpack_le32_length (slice out 8 12)) by (apply (Hl4 8); lia).
    cbn [rbind].
    rewrite (unpack_le32_length (slice out 12 16)) by (apply (Hl4 12); lia).
    cbn [rbind].
    rewrite (unpack_le32_length (slice out 16 20)) by (apply (Hl4 16); lia).
    cbn [rbind].
    rewrite (unpack_le32_length (slice out 20 24)) by (apply (Hl4 20); lia).
    cbn [rbind].
    rewrite (unpack_le32_length (slice out 24 28)) by (apply (Hl4 24); lia).
    cbn [rbind].
    rewrite (unpack_le32_length (slice out 28 32)) by (apply (Hl4 28); lia).
    cbn [rbind]. rewrite Hids. cbn [rbind]. rewrite Hitem.
    fold tend. rewrite Hl'. cbn [rbind].
    eexists. split; [reflexivity|]. done. }
  exists out, (set_crc c (set_raw out fw1)), fw2.
  split; [exact Hsave|]. split; [exact Hp2|]. split; [exact Hn2|].
  rewrite Hs2. split; [|exact Hlay].
  apply (f_equal length) in Hlay. unfold layout in Hlay.
  by rewrite !length_map in Hlay.
Qed.

Lemma parse_save_parse_structure_witness :
  exists out fw' fw2,
    save sample_fw = (inr out, fw') /\
    parse out = inr fw2 /\
    item_num fw2 = 3 /\
    layout (sections fw2) = [(1376, 1); (1380, 3); (1384, 287)] /\
    layout (sections sample_fw) = [(1376, 1); (1380, 3); (1384, 287)].
Proof.
  destruct (parse_save_parse_structure sample_image sample_fw sample_parsed)
    as (out & fw' & fw2 & H1 & H2 & H3 & _ & H4).
  exists out, fw', fw2. split; [exact H1|]. split; [exact H2|].
  assert (layout (sections sample_fw) = [(1376, 1); (1380, 3); (1384, 287)])
    as Hl by (vm_compute; reflexivity).
  split; [rewrite H3; vm_compute; reflexivity|].
  split; [by rewrite H4|exact Hl].
Defined.

(** ** C5: writing and reading back the product identifiers *)

(** C5, counterexample. The one identifier ["a|b"] fits, and is read back
    as the two identifiers ["a"] and ["b"]. *)
Lemma product_ids_claim_counterexample : ~ product_ids_claim.
Proof.
  intros H. destruct (H sample_fw [lit "a|b"]) as (fw' & H1 & H2).
  { vm_compute. discriminate. }
  apply (f_equal snd) in H1. cbn [snd] in H1. rewrite <- H1 in H2.
  vm_compute in H2. discriminate H2.
Qed.

Lemma split_app_delim d s t :
  Forall (fun c => c <> d) s -> split d (s ++ d :: t) = s :: split d t.
Proof.
  induction 1 as [|c s Hc _ IH]; simpl.
  - by rewrite N.eqb_refl.
  - apply N.eqb_neq in Hc as ->. by rewrite IH.
Qed.

Lemma join_delimited ids :
  ids <> [] -> join (lit "|") ids ++ lit "|" = delimited ids.
Proof.
  change (lit "|") with [124]. unfold delimited.
  induction ids as [|x ids IH]; [done|]. intros _.
  destruct ids as [|y ids].
  - simpl. by rewrite app_nil_r.
  - change (join [124] (x :: y :: ids)) with (x ++ [124] ++ join [124] (y :: ids)).
    rewrite <- !app_assoc. rewrite IH by done.
    cbn [map concat]. by rewrite (app_assoc x [124]).
Qed.

Lemma split_delimited ids :
  Forall plain_id ids -> split 124 (delimited ids) = ids ++ [[]].
Proof.
  unfold delimited. induction 1 as [|x ids [_ Hx] _ IH]; [done|].
  simpl. rewrite <- app_assoc. simpl. rewrite split_app_delim, IH; [done|].
  eapply Forall_impl; [exact Hx|]. by intros c [_ ?].
Qed.

Lemma filter_plain ids :
  Forall plain_id ids -> filter (fun s : str => s <> []) (ids ++ [[]]) = ids.
Proof.
  induction 1 as [|x ids [Hx _] _ IH]; [done|].
  simpl. rewrite filter_cons_True by done. by rewrite IH.
Qed.

(** Splitting the encoded text and dropping empty fragments gives the list
    back. *)
Lemma split_join_plain ids :
  Forall plain_id ids ->
  filter (fun s : str => s <> []) (split 124 (join (lit "|") ids ++ lit "|")) = ids.
Proof.
  intros H. destruct ids as [|x ids]; [done|].
  rewrite join_delimited by done. rewrite split_delimited by done.
  by apply filter_plain.
Qed.

Lemma plain_text_ascii ids :
  Forall plain_id ids ->
  Forall (fun c => 0 < c < 128) (join (lit "|") ids ++ lit "|").
Proof.
  intros H. destruct ids as [|x ids].
  { repeat constructor. }
  rewrite join_delimited by done. unfold delimited.
  induction H as [|y l [_ Hy] _ IH]; [constructor|].
  simpl. rewrite <- app_assoc. apply Forall_app. split.
  - eapply Forall_impl; [exact Hy|]. by intros c [? _].
  - constructor; [lia|exact IH].
Qed.

Lemma byte_eqb_eq x y : Byte.eqb x y = true <-> x = y.
Proof. split; [apply Byte.byte_dec_bl|apply Byte.byte_dec_lb]. Qed.

Lemma byte_in_spec x l : byte_in x l = true <-> exists j, l !! j = Some x.
Proof.
  unfold byte_in. induction l as [|y l IH]; simpl.
  - split; [done|]. by intros [j ?].
  - rewrite orb_true_iff, byte_eqb_eq, IH. split.
    + intros [->|[j Hj]]; [by exists 0%nat|by exists (S j)].
    + intros [[|j] Hj]; [left; by injection Hj|right; eauto].
Qed.

Lemma index_of_first x l n :
  l !! n = Some x ->
  (forall i y, (i < n)%nat -> l !! i = Some y -> y <> x) ->
  index_of x l = Some (N.of_nat n).
Proof.
  revert n. induction l as [|y l IH]; intros n Hn Hbefore; [done|].
  simpl. destruct n as [|n].
  - injection Hn as ->. by rewrite (proj2 (byte_eqb_eq x x) eq_refl).
  - destruct (Byte.eqb x y) eqn:E.
    { apply byte_eqb_eq in E. subst y.
      by destruct (Hbefore 0%nat x ltac:(lia) eq_refl). }
    rewrite (IH n); [f_equal; lia|exact Hn|].
    intros i z Hi Hz. apply (Hbefore (S i)); [lia|exact Hz].
Qed.

(** The window after the zero fill of [set_product_ids]. *)
Lemma zero_filled_window (r : bytes) :
  let raw1 := slice_assign r PID_OFFSET (PID_OFFSET + PID_MAX_LEN)
                (replicate (N.to_nat PID_MAX_LEN) x00) in
  (36 <= length raw1)%nat /\
  forall p, (36 <= p < 296)%nat -> (p < length raw1)%nat ->
            raw1 !! p = Some x00.
Proof.
  cbv zeta. change PID_OFFSET with 36. change (36 + PID_MAX_LEN) with 296.
  change (N.to_nat PID_MAX_LEN) with 260%nat.
  split.
  - rewrite length_slice_assign, length_replicate. lia.
  - intros p Hp. rewrite length_slice_assign, length_replicate.
    unfold slice_assign. intros Hlen.
    pose proof (clamp_le r 36). pose proof (clamp_le_arg r 36).
    rewrite lookup_app_r by (rewrite length_take; lia).
    rewrite length_take, Nat.min_l by lia.
    rewrite lookup_app_l.
    + apply lookup_replicate_2. unfold clamp, len in *. lia.
    + rewrite length_replicate. unfold clamp, len in *. lia.
Qed.

(** The window after the identifiers are written over the zero fill. *)
Lemma written_window (r pid : bytes) :
  (length pid <= 260)%nat ->
  let raw1 := slice_assign r PID_OFFSET (PID_OFFSET + PID_MAX_LEN)
                (replicate (N.to_nat PID_MAX_LEN) x00) in
  let raw2 := slice_assign raw1 PID_OFFSET (PID_OFFSET + len pid) pid in
  slice raw2 36 (36 + len pid) = pid /\
  forall p, (36 + length pid <= p < 296)%nat -> (p < length raw2)%nat ->
            raw2 !! p = Some x00.
Proof.
  intros Hn. cbv zeta.
  destruct (zero_filled_window r) as [Hlen1 Hzero]. cbv zeta in Hlen1, Hzero.
  set (raw1 := slice_assign r PID_OFFSET (PID_OFFSET + PID_MAX_LEN)
                 (replicate (N.to_nat PID_MAX_LEN) x00)) in *.
  change PID_OFFSET with 36. split.
  - apply list_eq. intros i. rewrite lookup_slice. unfold len.
    case_decide as Hi.
    + rewrite lookup_slice_assign_mid by lia. f_equal. lia.
    + symmetry. apply lookup_ge_None. lia.
  - intros p Hp. rewrite length_slice_assign. unfold slice_assign.
    rewrite (clamp_in_range raw1 36) by lia. intros Hlen.
    rewrite lookup_app_r by (rewrite length_take; lia).
    rewrite length_take, Nat.min_l by lia.
    rewrite lookup_app_r by lia.
    rewrite lookup_drop.
    destruct (decide (36 + length pid <= length raw1)%nat) as [Hin|Hout].
    + rewrite clamp_in_range in * by (unfold len; lia).
      match goal with
      | |- raw1 !! ?k = _ => replace k with p by (unfold len; lia)
      end.
      apply Hzero; [lia|]. unfold len in *. lia.
    + rewrite clamp_out_of_range in Hlen by (unfold len; lia). lia.
Qed.

(** Reading a window that holds [pid] followed by zero bytes only. *)
Lemma read_window (buf pid : bytes) :
  (0 < length pid <= 260)%nat ->
  Forall (fun x => x <> x00) pid ->
  slice buf 36 (36 + len pid) = pid ->
  (forall p, (36 + length pid <= p < 296)%nat -> (p < length buf)%nat ->
             buf !! p = Some x00) ->
  parse_product_ids buf
  = inr (filter (fun s : str => s <> []) (split 124 (decode_ascii_replace pid))).
Proof.
  intros Hn Hnz Hslice Hzero.
  assert (36 + length pid <= length buf)%nat as Hlenb.
  { pose proof (slice_full_inv buf 36 (36 + len pid)) as H.
    rewrite Hslice in H. unfold len in H.
    lapply H; [intros H'; lapply H'; lia|lia]. }
  assert (forall i, (i < length pid)%nat ->
                    buf !! (N.to_nat 36 + i)%nat = pid !! i) as Hpre.
  { intros i Hi. pose proof (lookup_slice buf 36 (36 + len pid) i) as H.
    rewrite Hslice in H. unfold len in H.
    case_decide as Hd; [|lia]. rewrite H. reflexivity. }
  unfold parse_product_ids. change PID_OFFSET with 36.
  change (36 + PID_MAX_LEN) with 296.
  destruct (byte_in x00 (slice buf 36 296)) eqn:E.
  - apply byte_in_spec in E as [j Hj]. rewrite lookup_slice in Hj.
    case_decide as Hj260; [|done].
    assert (length pid <= j)%nat as Hnj.
    { destruct (decide (length pid <= j)%nat) as [|Hlt]; [done|].
      rewrite (Hpre j) in Hj by lia.
      eapply Forall_lookup_1 in Hnz; [|exact Hj]. done. }
    apply lookup_lt_Some in Hj as Hjlen.
    assert (index_from x00 36 buf = Some (36 + len pid)) as ->.
    { unfold index_from, slice_from. rewrite clamp_in_range by lia.
      rewrite (index_of_first x00 (drop (N.to_nat 36) buf) (length pid)).
      - f_equal.
      - rewrite lookup_drop. apply Hzero; lia.
      - intros i y Hi. rewrite lookup_drop, (Hpre i) by lia. intros Hy.
        by eapply Forall_lookup_1 in Hnz; [|exact Hy]. }
    cbn [rbind]. by rewrite Hslice.
  - cbn [rbind]. replace (slice buf 36 296) with pid; [done|].
    symmetry. apply list_eq. intros i.
    rewrite lookup_slice. case_decide as Hi.
    + destruct (decide (i < length pid)%nat) as [Hlt|Hge].
      { rewrite <- (Hpre i) by done. f_equal. }
      rewrite (lookup_ge_None_2 pid) by lia.
      destruct (buf !! (N.to_nat 36 + i)%nat) as [y|] eqn:Hy; [|done].
      apply lookup_lt_Some in Hy as Hylen.
      rewrite Hzero in Hy by lia. injection Hy as <-.
      assert (byte_in x00 (slice buf 36 296) = true) as Hin; [|congruence].
      apply byte_in_spec. exists i. rewrite lookup_slice.
      case_decide; [|lia]. apply Hzero; lia.
    + symmetry. apply lookup_ge_None. lia.
Qed.

(** C5, as the code has it. For every object and every list of
    identifiers that are not empty, are ASCII and contain neither the
    delimiter nor a null character, whose joined encoding with its trailing
    delimiter fits in the 260-byte window, [set_product_ids] succeeds, and
    decoding the window of the buffer it leaves (up to the first null, split
    on the delimiter, empty fragments dropped) gives the list back in
    order. *)
Theorem product_ids_round_trip fw ids :
  Forall plain_id ids ->
  len (join (lit "|") ids ++ lit "|") <= PID_MAX_LEN ->
  exists fw', set_product_ids ids fw = (inr tt, fw') /\
              product_ids fw' = ids /\
              parse_product_ids (raw fw') = inr ids.
Proof.
  intros Hplain Hfit. rewrite set_product_ids_eq.
  set (text := join (lit "|") ids ++ lit "|") in *.
  pose proof (plain_text_ascii ids Hplain) as Hascii. fold text in Hascii.
  rewrite encode_ascii_ok
    by (eapply Forall_impl; [exact Hascii|]; intros c; simpl; lia).
  set (pid := map byte_of_N text).
  assert (length pid = length text) as Hlen by apply length_map.
  assert (len pid <= PID_MAX_LEN) as Hfit' by (unfold len in *; by rewrite Hlen).
  apply N.ltb_ge in Hfit' as Hltb. rewrite Hltb. cbv zeta.
  eexists. split; [reflexivity|].
  cbn [product_ids raw set_product_ids_attr set_raw]. split; [done|].
  destruct (written_window (raw fw) pid) as [Hslice Hzero].
  { unfold len in Hfit'. change PID_MAX_LEN with 260 in Hfit'. lia. }
  cbv zeta in Hslice, Hzero.
  rewrite (read_window _ pid); [| | |exact Hslice|exact Hzero].
  - unfold pid. rewrite decode_encode_ascii
      by (eapply Forall_impl; [exact Hascii|]; intros c; simpl; lia).
    f_equal. by apply split_join_plain.
  - split.
    + rewrite Hlen. unfold text. rewrite length_app. simpl. lia.
    + unfold len in Hfit'. change PID_MAX_LEN with 260 in Hfit'. lia.
  - unfold pid. apply Forall_fmap. eapply Forall_impl; [exact Hascii|].
    intros c Hc Hz. cbv beta in Hc.
    apply (f_equal Byte.to_N) in Hz. rewrite to_N_byte_of_N in Hz.
    rewrite N.mod_small in Hz by lia. change (Byte.to_N x00) with 0 in Hz. lia.
Qed.

Lemma product_ids_round_trip_witness :
  Forall plain_id [lit "X1"; lit "YY"] /\
  len (join (lit "|") [lit "X1"; lit "YY"] ++ lit "|") <= PID_MAX_LEN /\
  exists fw', set_product_ids [lit "X1"; lit "YY"] sample_fw = (inr tt, fw') /\
              product_ids fw' = [lit "X1"; lit "YY"] /\
              parse_product_ids (raw fw') = inr [lit "X1"; lit "YY"].
Proof.
  assert (Forall plain_id [lit "X1"; lit "YY"]) as H1.
  { repeat constructor; (discriminate || lia). }
  assert (len (join (lit "|") [lit "X1"; lit "YY"] ++ lit "|") <= PID_MAX_LEN)
    as H2 by (vm_compute; discriminate).
  split; [exact H1|]. split; [exact H2|].
  exact (product_ids_round_trip sample_fw _ H1 H2).
Defined.

(** ** C2: the manifest after save *)

(** *** Matches of the manifest pattern *)

Lemma span_length {A} (p : A -> bool) s a b :
  span p s = (a, b) -> s = a ++ b.
Proof.
  revert a b. induction s as [|c s IH]; intros a b; simpl.
  - by intros [= <- <-].
  - destruct (p c); [|by intros [= <- <-]].
    destruct (span p s) as [a' b'] eqn:E. intros [= <- <-].
    simpl. f_equal. by apply IH.
Qed.

(** A match starts with a hexadecimal digit, has 64 characters of hash and
    at least three more. *)
Lemma match_here_spec s n g :
  match_here s = Some (n, g) ->
  (64 <= length s)%nat /\ (67 <= n)%nat /\ (n <= length s)%nat /\
  exists c, s !! 0%nat = Some c /\ is_hex_lower c = true.
Proof.
  unfold match_here.
  destruct ((length (take 64 s) =? 64)%nat && forallb is_hex_lower (take 64 s))
    eqn:E; [|done].
  apply andb_true_iff in E as [E1 E2]. apply Nat.eqb_eq in E1.
  rewrite length_take in E1.
  destruct (span is_space (drop 64 s)) as [ws r] eqn:Hws.
  destruct ws as [|w ws]; [done|]. destruct r as [|c r]; [done|].
  destruct (c =? 47) eqn:Hc; [|done].
  apply N.eqb_eq in Hc. subst c.
  destruct (span (fun c => negb (c =? 10)) r) as [g' rest] eqn:Hg.
  destruct g' as [|g0 g']; [done|]. intros [= <- <-].
  apply span_length in Hws. apply span_length in Hg.
  apply (f_equal length) in Hws. apply (f_equal length) in Hg.
  rewrite length_drop, length_app in Hws. rewrite length_app in Hg.
  cbn [length] in *.
  split; [lia|]. split; [lia|]. split; [lia|].
  destruct s as [|c s]; [cbn [length] in E1; lia|]. exists c. split; [done|].
  cbn [take forallb] in E2. by apply andb_true_iff in E2 as [-> _].
Qed.

Lemma spaced_weaken T lo lo' ms : lo' <= lo -> spaced T lo ms -> spaced T lo' ms.
Proof. destruct ms as [|m rest]; [done|]. simpl. intros ? (? & ? & ? & ?). repeat split; try done. lia. Qed.

Lemma spaced_bounds T lo ms m :
  spaced T lo ms -> m ∈ ms -> lo <= fst m /\ fst m + 64 <= len T.
Proof.
  revert lo. induction ms as [|x rest IH]; intros lo; simpl.
  - intros _ H. by apply elem_of_nil in H.
  - intros (H1 & H2 & _ & H3) [->|Hin]%elem_of_cons; [done|].
    destruct (IH _ H3 Hin). lia.
Qed.

Lemma finditer_from_spaced s pre skip :
  spaced (pre ++ s) (len pre + N.of_nat skip) (finditer_from skip (len pre) s).
Proof.
  revert pre skip. induction s as [|c t IH]; intros pre skip; [done|].
  assert (len (pre ++ [c]) = len pre + 1) as Hlen1
    by (unfold len; rewrite length_app; simpl; lia).
  assert ((pre ++ [c]) ++ t = pre ++ c :: t) as Happ by (by rewrite <- app_assoc).
  cbn [finditer_from]. destruct skip as [|k].
  - destruct (match_here (c :: t)) as [[n g]|] eqn:E.
    + apply match_here_spec in E as (H64 & Hn & Hnl & c0 & Hc0 & Hhex).
      injection Hc0 as <-. cbn [spaced fst].
      split; [lia|]. split; [unfold len in *; rewrite length_app; lia|].
      split.
      * exists c. split; [|done]. unfold len. rewrite Nat2N.id.
        by rewrite lookup_app_r, Nat.sub_diag by lia.
      * specialize (IH (pre ++ [c]) (n - 1)%nat).
        rewrite Happ, Hlen1 in IH.
        eapply spaced_weaken; [|exact IH]. lia.
    + specialize (IH (pre ++ [c]) 0%nat). rewrite Happ, Hlen1 in IH.
      eapply spaced_weaken; [|exact IH]. lia.
  - specialize (IH (pre ++ [c]) k). rewrite Happ, Hlen1 in IH.
    eapply spaced_weaken; [|exact IH]. lia.
Qed.

Lemma finditer_spaced T : spaced T 0 (finditer T).
Proof. exact (finditer_from_spaced T [] 0). Qed.

Lemma is_hex_lower_zero : is_hex_lower 0 = false.
Proof. reflexivity. Qed.

(** No match starts in a zeroed header. *)
Lemma spaced_after_zeros T ms :
  (forall i c, (i < 60)%nat -> T !! i = Some c -> c = 0) ->
  spaced T 0 ms -> spaced T 60 ms.
Proof.
  intros Hz. destruct ms as [|m rest]; [done|]. simpl.
  intros (H1 & H2 & (c & Hc & Hhex) & H3). repeat split; try done; [|eauto].
  destruct (decide (60 <= fst m)) as [|Hlt]; [done|].
  rewrite (Hz (N.to_nat (fst m)) c) in Hhex by (lia || done).
  by rewrite is_hex_lower_zero in Hhex.
Qed.

Lemma lookup_slice_assign_inside {A} (l v : list A) a b q :
  (a <= b)%N -> (N.to_nat b <= length l)%nat -> length v = N.to_nat (b - a) ->
  (q < N.to_nat a \/ N.to_nat b <= q)%nat ->
  slice_assign l a b v !! q = l !! q.
Proof.
  intros Hab Hb Hv Hq. destruct (decide (q < length l)%nat).
  - by apply lookup_slice_assign_outside.
  - rewrite !lookup_ge_None_2; [done|lia|].
    rewrite length_slice_assign_inside by done. lia.
Qed.

(** *** The patch loop, field by field *)

Lemma patch_hashes_cons secs off m ms B B1 :
  patch_hash secs off B m = inr B1 ->
  patch_hashes secs off (m :: ms) B = patch_hashes secs off ms B1.
Proof. intros H. unfold patch_hashes. cbn [fold_left rbind]. by rewrite H. Qed.

Lemma patch_hashes_fields secs off T ms lo B :
  spaced T lo ms -> (N.to_nat off + length T <= length B)%nat ->
  exists B',
    patch_hashes secs off ms B = inr B' /\
    length B' = length B /\
    (forall q, outside_fields off ms q -> B' !! q = B !! q) /\
    (forall m sec,
       m ∈ ms -> find (names m) secs = Some sec ->
       (data_offset sec + data_size sec <= off \/
        off + len T <= data_offset sec) ->
       decode_ascii_replace (slice B' (off + fst m) (off + fst m + 64))
       = SHA256.hexdigest
           (slice B' (data_offset sec) (data_offset sec + data_size sec))).
Proof.
  revert lo B. induction ms as [|m rest IH]; intros lo B Hsp HB.
  { exists B. repeat split; try done. intros m sec H. by apply elem_of_nil in H. }
  destruct Hsp as (Hlo & Hhi & _ & Hrest).
  assert (N.to_nat (off + fst m + 64) <= length B)%nat as Hin
    by (unfold len in Hhi; lia).
  (* the buffer after the patch for [m] *)
  assert (exists B1,
    patch_hash secs off B m = inr B1 /\ length B1 = length B /\
    (forall q, (q < N.to_nat (off + fst m) \/
                N.to_nat (off + fst m) + 64 <= q)%nat -> B1 !! q = B !! q) /\
    (forall sec, find (names m) secs = Some sec ->
       decode_ascii_replace (slice B1 (off + fst m) (off + fst m + 64))
       = SHA256.hexdigest
           (slice B (data_offset sec) (data_offset sec + data_size sec))))
    as (B1 & HB1 & Hlen1 & Hout1 & Hfield1).
  { destruct (patch_hash_cases secs off B m)
      as [H|(sec & h & Hfind & Hh & Hdec & H)].
    - exists B. repeat split; try done.
      intros sec Hsec. unfold patch_hash in H. fold (names m) in H.
      rewrite Hsec in H.
      destruct (encode_hexdigest
        (slice B (data_offset sec) (data_offset sec + data_size sec)))
        as (h & Hh & Hl & Hd).
      rewrite Hh in H. cbn [rbind] in H. injection H as H.
      rewrite <- Hd. f_equal. rewrite <- H at 1.
      apply slice_slice_assign_same; lia.
    - eexists. split; [exact H|].
      split; [apply length_slice_assign_inside; lia|]. split.
      + intros q Hq. apply lookup_slice_assign_inside; lia.
      + intros sec' Hsec'. fold (names m) in Hfind.
        rewrite Hfind in Hsec'. injection Hsec' as <-.
        rewrite slice_slice_assign_same by lia. exact Hdec. }
  destruct (IH (fst m + 64) B1 Hrest ltac:(lia))
    as (B' & HB' & Hlen' & Hout' & Hfield').
  assert (forall q, (q < N.to_nat (off + fst m) + 64)%nat \/
                    (N.to_nat off + length T <= q)%nat ->
                    outside_fields off rest q) as Hrest_out.
  { intros q Hq m' Hm'. destruct (spaced_bounds _ _ _ _ Hrest Hm') as [H1 H2].
    unfold len in H2. lia. }
  exists B'. split; [by rewrite (patch_hashes_cons _ _ _ _ _ _ HB1)|].
  split; [lia|]. split.
  - intros q Hq. rewrite Hout'.
    + apply Hout1. specialize (Hq m ltac:(left)). lia.
    + intros m' Hm'. apply Hq. by right.
  - intros m' sec [->|Hm']%elem_of_cons Hfind Hdisj.
    + assert (slice B' (off + fst m) (off + fst m + 64)
              = slice B1 (off + fst m) (off + fst m + 64)) as ->.
      { apply slice_ext. intros q Hq. apply Hout', Hrest_out. lia. }
      rewrite (Hfield1 sec Hfind). f_equal. symmetry.
      apply slice_ext. intros q Hq. rewrite Hout'.
      * apply Hout1. unfold len in *. lia.
      * apply Hrest_out. unfold len in *. lia.
    + by apply Hfield'.
Qed.

(** *** Slots of different sections do not meet *)

Lemma laid_out_ge off l i s :
  laid_out off l -> l !! i = Some s -> off <= data_offset s.
Proof. intros H Hi. rewrite (laid_out_offset _ _ _ _ H Hi). lia. Qed.

Lemma laid_out_disjoint off l j k a b :
  laid_out off l -> l !! j = Some a -> l !! k = Some b -> (j < k)%nat ->
  data_offset a + data_size a <= data_offset b.
Proof.
  revert off j k. induction l as [|x l IH]; intros off j k; [done|].
  cbn [laid_out]. intros [Hx Hl] Hj Hk Hjk.
  destruct k as [|k]; [lia|]. cbn in Hk.
  destruct j as [|j].
  - injection Hj as <-. pose proof (laid_out_ge _ _ _ _ Hl Hk).
    pose proof (align4_spec (off + data_size x)). lia.
  - cbn in Hj. eapply IH; [exact Hl|exact Hj|exact Hk|lia].
Qed.

Lemma slice_decode (B : bytes) a b :
  decode_ascii_replace (slice B a b) = slice (decode_ascii_replace B) a b.
Proof.
  unfold decode_ascii_replace. apply list_eq. intros i.
  rewrite list_lookup_fmap, !lookup_slice.
  case_decide; [by rewrite list_lookup_fmap|done].
Qed.

Lemma slice_slice {A} (l : list A) a b c d :
  (a + d <= b)%N -> slice (slice l a b) c d = slice l (a + c) (a + d).
Proof.
  intros H. apply list_eq. intros i. rewrite !lookup_slice.
  case_decide as H1; case_decide as H2; try lia; [|done].
  case_decide as H3; [f_equal; lia|lia].
Qed.

(** *** The zeroed header *)

Lemma zeroed_header (r : bytes) off q :
  (N.to_nat off <= q < N.to_nat off + 60)%nat ->
  (q < length (slice_assign r off (off + 60) (replicate 60 x00)))%nat ->
  slice_assign r off (off + 60) (replicate 60 x00) !! q = Some x00.
Proof.
  intros Hq. rewrite length_slice_assign, length_replicate.
  unfold slice_assign. intros Hlen.
  pose proof (clamp_le r off). pose proof (clamp_le_arg r off).
  rewrite lookup_app_r by (rewrite length_take; lia).
  rewrite length_take, Nat.min_l by lia.
  rewrite lookup_app_l.
  - apply lookup_replicate_2. unfold clamp, len in *. lia.
  - rewrite length_replicate. unfold clamp, len in *. lia.
Qed.

(** A slice that is not empty starts inside the buffer. *)
Lemma slice_nonempty_inside {A} (l : list A) a b :
  (0 < length (slice l a b))%nat ->
  (N.to_nat a + length (slice l a b) <= length l)%nat.
Proof.
  rewrite length_slice. unfold clamp, len. lia.
Qed.

Lemma scanned_text_zeros fw sig i c :
  (i < 60)%nat -> scanned_text fw sig !! i = Some c -> c = 0.
Proof.
  intros Hi. unfold scanned_text, decode_ascii_replace.
  rewrite list_lookup_fmap, lookup_slice.
  case_decide as Hd; [|done].
  destruct (zeroed fw sig !! (N.to_nat (data_offset sig) + i)%nat)
    as [x|] eqn:Hx; [|done].
  apply lookup_lt_Some in Hx as Hlt. unfold zeroed in Hx, Hlt.
  rewrite zeroed_header in Hx by lia. injection Hx as <-.
  cbn. by intros [= <-].
Qed.

(** C2, as the code has it. In every image of an editing session that has
    a section whose path contains [signinfo], let [sig] be the first one.
    [save] succeeds and afterwards: the payload of that section is its slot
    of the written buffer; its first 60 bytes are zero; its text has the
    length of the text scanned by the patcher (the manifest with the header
    zeroed) and is that text outside the 64-character hash fields of the
    matches of the pattern; and for every match whose (stripped) path is
    the name of a section, the first such section not being the manifest
    itself, the hash field holds the lowercase SHA-256 hex digest of the
    bytes of that section in the written buffer. *)
Theorem save_patches_manifest fw k sig :
  reachable fw -> find_signinfo 0 (sections fw) = Some (k, sig) ->
  exists out fw' s',
    save fw = (inr out, fw') /\
    sections fw' !! k = Some s' /\
    path s' = path sig /\
    data s' = slice out (data_offset sig) (data_offset sig + data_size sig) /\
    Forall (fun x => x = x00) (take 60 (data s')) /\
    length (decode_ascii_replace (data s')) = length (scanned_text fw sig) /\
    (forall i,
       (forall m, m ∈ finditer (scanned_text fw sig) ->
                  ~ (N.to_nat (fst m) <= i < N.to_nat (fst m) + 64)%nat) ->
       decode_ascii_replace (data s') !! i = scanned_text fw sig !! i) /\
    (forall m sec j,
       m ∈ finditer (scanned_text fw sig) ->
       find (names m) (sections fw) = Some sec ->
       sections fw !! j = Some sec -> j <> k ->
       slice (decode_ascii_replace (data s')) (fst m) (fst m + 64)
       = SHA256.hexdigest
           (slice out (data_offset sec) (data_offset sec + data_size sec))).
Proof.
  intros Hwf%reachable_wf Hfind. pose proof Hwf as [Hlen Hlay].
  pose proof (find_signinfo_offset fw k sig Hwf Hfind) as Hoff.
  pose proof Hfind as (_ & Hk & _)%find_signinfo_lookup.
  rewrite Nat.sub_0_r in Hk.
  (* the patch loop *)
  pose proof (fix_signinfo_eq fw) as Hfix. rewrite Hfind in Hfix.
  cbv zeta in Hfix. destruct Hfix as (patched & Hp0 & Hfix).
  assert (patch_hashes (sections fw) (data_offset sig)
            (finditer (scanned_text fw sig)) (zeroed fw sig) = inr patched)
    as Hp by exact Hp0.
  clear Hp0.
  set (off := data_offset sig) in *. set (size := data_size sig) in *.
  assert (296 <= off) as Hoff296 by (unfold SECT_DESC_START in Hoff; lia).
  set (raw1 := zeroed fw sig) in *. set (T0 := scanned_text fw sig) in *.
  assert (length (raw fw) <= length raw1)%nat as Hlen1.
  { apply length_slice_assign_ge. rewrite length_replicate. lia. }
  set (ms := finditer T0) in *.
  assert (spaced T0 60 ms) as Hsp.
  { apply spaced_after_zeros; [apply scanned_text_zeros|apply finditer_spaced]. }
  assert (length T0 = length (slice raw1 off (off + size))) as HT0
    by apply length_map.
  clearbody ms.
  assert (length patched = length raw1 /\
          (forall q, outside_fields off ms q -> patched !! q = raw1 !! q) /\
          (forall m sec, m ∈ ms -> find (names m) (sections fw) = Some sec ->
             (data_offset sec + data_size sec <= off \/
              off + len T0 <= data_offset sec) ->
             decode_ascii_replace (slice patched (off + fst m) (off + fst m + 64))
             = SHA256.hexdigest
                 (slice patched (data_offset sec)
                        (data_offset sec + data_size sec))))
    as (Hplen & Hpout & Hpfield).
  { destruct ms as [|m0 rest] eqn:Hms.
    - unfold patch_hashes in Hp. cbn [fold_left] in Hp.
      injection Hp as <-. repeat split; try done.
      intros m sec H. by apply elem_of_nil in H.
    - destruct (patch_hashes_fields (sections fw) off T0 (m0 :: rest) 60 raw1 Hsp)
        as (B' & HB' & H1 & H2 & H3).
      { rewrite HT0. apply slice_nonempty_inside. rewrite <- HT0.
        destruct Hsp as (_ & H & _). unfold len in H. lia. }
      rewrite Hp in HB'. injection HB' as <-. done. }
  (* the checksum write *)
  rewrite save_eq, Hfix.
  rewrite recalculate_crc_eq by (cbn [raw set_sections set_raw]; lia).
  cbv zeta. cbn [raw set_sections set_raw].
  set (c := crc32 (slice_from patched 12)).
  set (out := slice_assign patched 8 12 (pack_le32 c)).
  assert (forall a b, 12 <= a -> slice out a b = slice patched a b) as Hout.
  { intros a b Ha. apply slice_ext. intros q Hq.
    apply lookup_slice_assign_inside; [lia|lia|by rewrite length_pack_le32|lia]. }
  set (s' := set_data (slice patched off (off + size)) sig).
  exists out, (set_crc c (set_raw out
    (set_sections (<[k := s']> (sections fw)) (set_raw patched fw)))), s'.
  split; [reflexivity|]. cbn [sections set_crc set_raw set_sections].
  split; [apply list_lookup_insert_eq; by eapply lookup_lt_Some|].
  split; [done|].
  cbn [data s' set_data]. rewrite Hout by lia.
  split; [done|].
  assert (forall q, (q < N.to_nat off + 60)%nat -> outside_fields off ms q)
    as Hbelow.
  { intros q Hq m Hm. destruct (spaced_bounds _ _ _ _ Hsp Hm). lia. }
  split.
  { apply Forall_forall. intros x Hx.
    apply list_elem_of_lookup in Hx as [i Hi].
    rewrite lookup_take in Hi. case_decide as Hi60; [|done].
    rewrite lookup_slice in Hi. case_decide; [|done].
    apply lookup_lt_Some in Hi as Hlt.
    rewrite Hpout in Hi by (apply Hbelow; lia).
    unfold raw1, zeroed in Hi. fold off in Hi.
    rewrite zeroed_header in Hi; [by injection Hi|lia|].
    fold off in Hlt. unfold raw1, zeroed in Hplen. fold off in Hplen. lia. }
  split.
  { unfold decode_ascii_replace at 1. rewrite length_map, HT0, !length_slice.
    unfold clamp, len. by rewrite Hplen. }
  split.
  { intros i Hi. unfold T0, scanned_text, decode_ascii_replace.
    fold off size raw1. rewrite !list_lookup_fmap, !lookup_slice.
    case_decide; [|done]. rewrite Hpout; [done|].
    intros m Hm. specialize (Hi m Hm). lia. }
  intros m sec j Hm Hsec Hj Hjk.
  destruct (spaced_bounds _ _ _ _ Hsp Hm) as [Hm1 Hm2].
  assert (len T0 <= size) as HTsize.
  { unfold len. rewrite HT0. pose proof (length_slice_le raw1 off (off + size)). lia. }
  rewrite <- slice_decode, slice_slice by lia.
  rewrite Hout by (pose proof (laid_out_ge _ _ _ _ Hlay Hj);
                   unfold SECT_DESC_START in *; lia).
  rewrite N.add_assoc. apply Hpfield; [done|done|].
  destruct (decide (j < k)%nat).
  - left. by eapply laid_out_disjoint.
  - right. pose proof (laid_out_disjoint _ _ k j _ _ Hlay Hk Hj ltac:(lia)).
    fold off size in H. lia.
Qed.

Lemma sample_manifest_found :
  find_signinfo 0 (sections sample_fw) = Some (2%nat, sample_section 2).
Proof. vm_compute. reflexivity. Qed.

Lemma save_patches_manifest_witness :
  exists out fw' s',
    save sample_fw = (inr out, fw') /\
    sections fw' !! 2%nat = Some s' /\
    data s' = slice out (data_offset (sample_section 2))
                (data_offset (sample_section 2) + data_size (sample_section 2)) /\
    Forall (fun x => x = x00) (take 60 (data s')) /\
    slice (decode_ascii_replace (data s')) 60 (60 + 64)
    = SHA256.hexdigest
        (slice out (data_offset (sample_section 0))
           (data_offset (sample_section 0) + data_size (sample_section 0))).
Proof.
  destruct (save_patches_manifest sample_fw 2 (sample_section 2)
              sample_reachable sample_manifest_found)
    as (out & fw' & s' & H1 & H2 & _ & H3 & H4 & _ & _ & H5).
  exists out, fw', s'.
  split; [exact H1|]. split; [exact H2|]. split; [exact H3|].
  split; [exact H4|].
  apply (H5 (60, lit "/var/a.xml") (sample_section 0) 0%nat); [| | |lia].
  - apply (list_elem_of_lookup_2 _ 0%nat). vm_compute. reflexivity.
  - vm_compute. reflexivity.
  - vm_compute. reflexivity.
Defined.

(** C2, counterexample. The second line of the manifest of the sample image
    names the manifest itself: the digest written there was taken before
    the line was rewritten, and is not the digest of the saved manifest. *)
Lemma manifest_claim_counterexample : ~ manifest_claim.
Proof.
  intros H.
  destruct (H sample_fw 2%nat (sample_section 2) sample_reachable
              sample_manifest_found saved_manifest) as [_ Hh].
  { vm_compute. reflexivity. }
  specialize (Hh (136, lit "/var/signinfo") saved_manifest).
  assert (slice (decode_ascii_replace (data saved_manifest)) 136 (136 + 64)
          <> SHA256.hexdigest (data saved_manifest)) as Hne.
  { vm_compute. discriminate. }
  apply Hne, Hh.
  - apply (list_elem_of_lookup_2 _ 1%nat). vm_compute. reflexivity.
  - apply (list_elem_of_lookup_2 _ 2%nat). vm_compute. reflexivity.
  - vm_compute. reflexivity.
Qed.

(** * Further properties *)

(** ** Failures of the parser *)

Lemma unpack_le32_error l e : unpack_le32 l = inl e -> e = StructError.
Proof. unfold unpack_le32. destruct (_ =? _)%nat; intros [= <-]. done. Qed.

Lemma unpack_be32_error l e : unpack_be32 l = inl e -> e = StructError.
Proof. unfold unpack_be32. destruct (_ =? _)%nat; intros [= <-]. done. Qed.

Lemma rbind_inl {A B} (r : result A) (k : A -> result B) e :
  rbind r k = inl e -> r = inl e \/ exists a, r = inr a /\ k a = inl e.
Proof.
  destruct r as [e'|a]; simpl; intros H; [left; congruence|]. right. eauto.
Qed.

Lemma parse_section_error buf i off e :
  parse_section buf i off = inl e -> e = StructError.
Proof.
  unfold parse_section. cbv zeta.
  intros [H|(c & _ & H)]%rbind_inl; [by eapply unpack_le32_error|].
  apply rbind_inl in H as [H|(so & _ & H)]; [by eapply unpack_le32_error|].
  apply rbind_inl in H as [H|(sz & _ & H)]; [by eapply unpack_le32_error|].
  by destruct (classify _ _ _).
Qed.

Lemma parse_sections_error buf n i off e :
  parse_sections buf n i off = inl e -> e = StructError.
Proof.
  revert i off. induction n as [|n IH]; intros i off; simpl; [done|].
  intros [H|(s & _ & H)]%rbind_inl; [by eapply parse_section_error|].
  apply rbind_inl in H as [H|(rest & _ & H)]; [by eapply IH|done].
Qed.

(** X1. The parser raises nothing but the magic error and [struct.error]:
    the magic error exactly when the first four bytes are not [HWNP], before
    anything else is read, and [struct.error] otherwise; the search for the
    null byte of the identifier window is guarded and never raises. *)
Theorem parse_failure b e :
  parse b = inl e ->
  (slice b 0 4 <> HWNP_MAGIC /\ e = ValueError_magic) \/
  (slice b 0 4 = HWNP_MAGIC /\ e = StructError).
Proof.
  unfold parse. destruct (bool_decide _) eqn:Hm; cbn [negb].
  - apply bool_decide_eq_true in Hm. intros H. right. split; [done|].
    apply rbind_inl in H as [H|(? & _ & H)]; [by eapply unpack_be32_error|].
    do 6 (apply rbind_inl in H as [H|(? & _ & H)];
          [by eapply unpack_le32_error|]).
    apply rbind_inl in H as [H|(? & _ & H)].
    { destruct (parse_product_ids_total b) as [ids Hids]. congruence. }
    apply rbind_inl in H as [H|(? & _ & H)]; [by eapply parse_sections_error|].
    done.
  - apply bool_decide_eq_false in Hm. intros [= <-]. by left.
Qed.

Lemma parse_failure_witness :
  parse (blit "HWNP") = inl StructError /\
  ((slice (blit "HWNP") 0 4 <> HWNP_MAGIC /\ StructError = ValueError_magic) \/
   (slice (blit "HWNP") 0 4 = HWNP_MAGIC /\ StructError = StructError)).
Proof.
  split; [reflexivity|]. apply (parse_failure (blit "HWNP")). reflexivity.
Defined.

(** ** Buffers that parse *)

Lemma parse_sections_readable buf n i off l :
  parse_sections buf n i off = inr l ->
  forall j, j < N.of_nat n ->
    (N.to_nat (SECT_DESC_START + (i + j) * SECT_DESC_SIZE + 12) <= length buf)%nat.
Proof.
  revert i off l. induction n as [|n IH]; intros i off l; simpl; [lia|].
  intros (s & Hs & H)%rbind_inr. apply rbind_inr in H as (rest & Hr & H).
  intros j Hj. destruct (N.eq_dec j 0) as [->|Hj0].
  - apply parse_section_unpacks in Hs as (c & so & _ & _ & Hsz & _).
    apply unpack_le32_ok in Hsz. rewrite N.add_0_r.
    apply (slice_full_inv buf (SECT_DESC_START + i * SECT_DESC_SIZE + 8));
      [lia|]. rewrite Hsz. lia.
  - specialize (IH _ _ _ Hr (j - 1) ltac:(lia)).
    replace (i + 1 + (j - 1)) with (i + j) in IH by lia. exact IH.
Qed.

Lemma parse_sections_total buf n i off :
  (forall j, j < N.of_nat n ->
     (N.to_nat (SECT_DESC_START + (i + j) * SECT_DESC_SIZE + 12) <= length buf)%nat) ->
  exists l, parse_sections buf n i off = inr l.
Proof.
  revert i off. induction n as [|n IH]; intros i off H; simpl; [eauto|].
  pose proof (H 0 ltac:(lia)) as H0. rewrite N.add_0_r in H0.
  set (d := SECT_DESC_START + i * SECT_DESC_SIZE) in *.
  destruct (parse_section_ok buf i off
              (le_value (slice buf d (d + 4)))
              (le_value (slice buf (d + 4) (d + 8)))
              (le_value (slice buf (d + 8) (d + 12))))
    as (s & Hs & _ & Hsz).
  1-3: apply unpack_le32_length; rewrite length_slice_full; lia.
  rewrite Hs. cbn [rbind].
  destruct (IH (i + 1) (align4 (off + data_size s))) as [rest ->].
  { intros j Hj. specialize (H (j + 1) ltac:(lia)).
    replace (i + 1 + j) with (i + (j + 1)) by lia. exact H. }
  cbn [rbind]. eauto.
Qed.

(** X2. A buffer parses exactly when it starts with [HWNP], holds the 32
    bytes of the fixed header fields, and holds the first twelve bytes
    (checksum, stored offset, size) of every descriptor that the item count
    announces.  Neither the rest of a descriptor nor any payload need be
    there: the slices that read them are clamped. *)
Theorem parse_succeeds_iff b :
  (exists fw, parse b = inr fw) <->
  slice b 0 4 = HWNP_MAGIC /\ (32 <= length b)%nat /\ descriptors_readable b.
Proof.
  split.
  - intros [fw H].
    apply parse_inv in H
      as (_ & Hlen & Hmagic & _ & (w & Hw & Hn) & _ & _ & _ & _ & Hsecs).
    split; [done|]. split; [done|].
    intros i Hi. unfold header_item_num in Hi.
    rewrite unpack_le32_length in Hw by (rewrite length_slice_full; lia).
    injection Hw as Hw. rewrite Hw, <- Hn in Hi.
    pose proof (parse_sections_readable _ _ _ _ _ Hsecs i) as H.
    rewrite N.add_0_l in H. apply H. lia.
  - intros (Hmagic & Hlen & Hdesc).
    assert (forall a, a + 4 <= 32 -> length (slice b a (a + 4)) = 4%nat) as Hl4.
    { intros a Ha. rewrite length_slice_full; lia. }
    destruct (parse_product_ids_total b) as [ids Hids].
    destruct (parse_sections_total b (N.to_nat (header_item_num b)) 0
                (SECT_DESC_START + header_item_num b * SECT_DESC_SIZE))
      as [l Hl].
    { intros j Hj. rewrite N.add_0_l. apply Hdesc. lia. }
    unfold parse. rewrite bool_decide_eq_true_2 by exact Hmagic. cbn [negb].
    rewrite (unpack_be32_length (slice b 4 8)) by (apply (Hl4 4); lia).
    cbn [rbind].
    rewrite (unpack_le32_length (slice b 8 12)) by (apply (Hl4 8); lia).
    cbn [rbind].
    rewrite (unpack_le32_length (slice b 12 16)) by (apply (Hl4 12); lia).
    cbn [rbind].
    rewrite (unpack_le32_length (slice b 16 20)) by (apply (Hl4 16); lia).
    cbn [rbind].
    rewrite (unpack_le32_length (slice b 20 24)) by (apply (Hl4 20); lia).
    cbn [rbind].
    rewrite (unpack_le32_length (slice b 24 28)) by (apply (Hl4 24); lia).
    cbn [rbind].
    rewrite (unpack_le32_length (slice b 28 32)) by (apply (Hl4 28); lia).
    cbn [rbind]. rewrite Hids. cbn [rbind].
    fold (header_item_num b). rewrite Hl. cbn [rbind]. eauto.
Qed.

(** ** The section list of a parsed image *)

Lemma land_255_bound w : N.land w 0xFF < 256.
Proof.
  change 0xFF with (N.ones 8). rewrite N.land_ones.
  apply N.mod_upper_bound. done.
Qed.

(** X3. A parsed image has exactly [item_num] sections, at most 255, and
    the [index] of each one is its position in the list. *)
Theorem parsed_sections_indexed b fw :
  parse b = inr fw ->
  length (sections fw) = N.to_nat (item_num fw) /\ item_num fw < 256 /\
  forall i s, sections fw !! i = Some s -> index s = N.of_nat i.
Proof.
  intros H. apply parse_inv in H
    as (_ & _ & _ & _ & (w & _ & Hn) & _ & _ & _ & _ & Hsecs).
  split; [by apply parse_sections_spec in Hsecs as [? _]|].
  split; [rewrite Hn; apply land_255_bound|].
  intros i s Hi.
  destruct (parse_sections_lookup _ _ _ _ _ _ _ Hsecs Hi) as [off Hs].
  by apply parse_section_fields in Hs as (-> & _).
Qed.

Lemma parsed_sections_indexed_witness :
  length (sections sample_fw) = N.to_nat (item_num sample_fw) /\
  item_num sample_fw < 256 /\
  forall i s, sections sample_fw !! i = Some s -> index s = N.of_nat i.
Proof. exact (parsed_sections_indexed sample_image sample_fw sample_parsed). Defined.

(** ** What the methods leave alone *)

Lemma map_metadata_insert l k s s' :
  l !! k = Some s -> metadata s' = metadata s ->
  map metadata (<[k := s']> l) = map metadata l.
Proof.
  intros Hk Hm. change (map metadata) with (fmap (M := list) metadata).
  rewrite list_fmap_insert, Hm. apply list_insert_id.
  by rewrite list_lookup_fmap, Hk.
Qed.

Lemma metadata_with_payload s d : metadata (with_payload s d) = metadata s.
Proof.
  unfold with_payload. cbv zeta.
  destruct (text_like _); [destruct (decode_utf8 _)|]; reflexivity.
Qed.

Lemma kept_set_product_ids ids fw :
  header_fields (snd (set_product_ids ids fw)) = header_fields fw /\
  sections (snd (set_product_ids ids fw)) = sections fw.
Proof.
  rewrite set_product_ids_eq.
  destruct (encode_ascii _) as [e|pb]; [done|].
  destruct (PID_MAX_LEN <? len pb); done.
Qed.

Lemma kept_set_section_data idx d fw :
  header_fields (snd (set_section_data idx d fw)) = header_fields fw /\
  (sections (snd (set_section_data idx d fw)) = sections fw \/
   exists k s, sections fw !! k = Some s /\ len d <= data_size s /\
     sections (snd (set_section_data idx d fw))
     = <[k := with_payload s (padded d (data_size s))]> (sections fw)).
Proof.
  rewrite set_section_data_eq.
  destruct (py_index (sections fw) idx) as [e|k]; [by split; [|left]|].
  destruct (sections fw !! k) as [s|] eqn:Hk; [|by split; [|left]].
  destruct (data_size s <? len d) eqn:E; [by split; [|left]|].
  apply N.ltb_ge in E. cbv zeta. cbn [snd]. split; [done|].
  right. by exists k, s.
Qed.

Lemma kept_fix_signinfo fw :
  header_fields (snd (fix_signinfo fw)) = header_fields fw /\
  (sections (snd (fix_signinfo fw)) = sections fw \/
   exists k s d, sections fw !! k = Some s /\ len d <= data_size s /\
     sections (snd (fix_signinfo fw)) = <[k := set_data d s]> (sections fw)).
Proof.
  pose proof (fix_signinfo_eq fw) as H.
  destruct (find_signinfo 0 (sections fw)) as [[k s]|] eqn:E.
  - cbv zeta in H. destruct H as (patched & _ & ->). cbn [snd].
    split; [done|]. right.
    apply find_signinfo_lookup in E as (_ & Hk & _).
    rewrite Nat.sub_0_r in Hk.
    exists k, s, (slice patched (data_offset s) (data_offset s + data_size s)).
    split; [done|]. split; [|done].
    pose proof (length_slice_le patched (data_offset s)
                  (data_offset s + data_size s)).
    unfold len. lia.
  - rewrite H. by split; [|left].
Qed.

Lemma kept_recalculate_crc fw :
  header_fields (snd (recalculate_crc fw)) = header_fields fw /\
  sections (snd (recalculate_crc fw)) = sections fw.
Proof.
  unfold recalculate_crc, bind, get.
  destruct (len (raw fw) <? 12); done.
Qed.

Lemma save_state fw :
  snd (save fw) = snd (recalculate_crc (snd (fix_signinfo fw))).
Proof.
  rewrite save_eq.
  destruct (fix_signinfo_kept fw) as (fw1 & -> & _). cbn [snd].
  by destruct (recalculate_crc fw1) as [[e|[]] fw2].
Qed.

Lemma kept_save fw :
  header_fields (snd (save fw)) = header_fields fw /\
  (sections (snd (save fw)) = sections fw \/
   exists k s d, sections fw !! k = Some s /\ len d <= data_size s /\
     sections (snd (save fw)) = <[k := set_data d s]> (sections fw)).
Proof.
  rewrite save_state.
  destruct (kept_recalculate_crc (snd (fix_signinfo fw))) as [-> ->].
  apply kept_fix_signinfo.
Qed.

(** X4. No method changes the fixed header attributes (payload size, header
    length, file checksum, item count, version, entry size) or, in any
    section, anything but the payload and its text: index, checksum,
    offsets, size, path, file name, label, descriptor bytes and content type
    stay as the parser set them, whether the call returns or raises.  In
    particular the content type is not revised when a payload is replaced. *)
Theorem edits_keep_metadata fw :
  (forall ids,
     header_fields (snd (set_product_ids ids fw)) = header_fields fw /\
     map metadata (sections (snd (set_product_ids ids fw)))
     = map metadata (sections fw)) /\
  (forall idx d,
     header_fields (snd (set_section_data idx d fw)) = header_fields fw /\
     map metadata (sections (snd (set_section_data idx d fw)))
     = map metadata (sections fw)) /\
  header_fields (snd (save fw)) = header_fields fw /\
  map metadata (sections (snd (save fw))) = map metadata (sections fw).
Proof.
  split; [|split].
  - intros ids. destruct (kept_set_product_ids ids fw) as [-> ->]. done.
  - intros idx d.
    destruct (kept_set_section_data idx d fw) as [-> [->|(k & s & Hk & _ & ->)]];
      [done|].
    split; [done|]. eapply map_metadata_insert; [exact Hk|].
    apply metadata_with_payload.
  - destruct (kept_save fw) as [-> [->|(k & s & d & Hk & _ & ->)]]; [done|].
    split; [done|]. by eapply map_metadata_insert.
Qed.

(** ** Induction over the sections of an editing session *)

(** A property of sections holds throughout a session when it holds after
    parsing and survives a new payload of at most [data_size] bytes, stored
    with or without a refreshed text. *)
Lemma reachable_sections_ind (P : HWNPSection -> Prop) :
  (forall b fw s, parse b = inr fw -> s ∈ sections fw -> P s) ->
  (forall s d, P s -> len d <= data_size s -> P (set_data d s)) ->
  (forall s d, P s -> len d = data_size s -> P (with_payload s d)) ->
  forall fw, reachable fw -> Forall P (sections fw).
Proof.
  intros Hparse Hdata Hpay fw.
  induction 1 as [b fw Hp|ids fw _ IH|idx d fw _ IH|fw _ IH].
  - apply Forall_forall. intros s Hs. by eapply Hparse.
  - by destruct (kept_set_product_ids ids fw) as [_ ->].
  - destruct (kept_set_section_data idx d fw) as [_ [->|(k & s & Hk & Hd & ->)]];
      [done|].
    apply Forall_insert; [done|]. apply Hpay.
    + eapply Forall_lookup_1; [exact IH|exact Hk].
    + unfold len. rewrite length_padded by done. lia.
  - destruct (kept_save fw) as [_ [->|(k & s & d & Hk & Hd & ->)]]; [done|].
    apply Forall_insert; [done|]. apply Hdata; [|done].
    eapply Forall_lookup_1; [exact IH|exact Hk].
Qed.

(** ** Paths and labels *)

Lemma to_N_zero x : Byte.to_N x = 0 -> x = x00.
Proof. intros H. rewrite <- (byte_of_to_N x), H. reflexivity. Qed.

Lemma byte_in_false x l : byte_in x l = false -> Forall (fun y => y <> x) l.
Proof.
  intros H. apply Forall_forall. intros y Hy ->.
  apply list_elem_of_lookup in Hy as [j Hj].
  assert (byte_in x l = true) as H'; [|congruence].
  apply byte_in_spec. eauto.
Qed.

Lemma index_of_before x l k :
  index_of x l = Some k ->
  Forall (fun y => y <> x) (take (N.to_nat k) l).
Proof.
  revert k. induction l as [|y l IH]; intros k; simpl; [done|].
  destruct (Byte.eqb x y) eqn:E.
  - intros [= <-]. cbn. constructor.
  - destruct (index_of x l) as [j|]; [|done]. intros [= <-].
    replace (N.to_nat (j + 1)) with (S (N.to_nat j)) by lia.
    cbn [take]. constructor; [|by apply IH].
    intros ->. by rewrite (proj2 (byte_eqb_eq x x) eq_refl) in E.
Qed.

Lemma decode_nonzero (l : bytes) :
  Forall (fun y => y <> x00) l ->
  Forall (fun c => 0 < c /\ (c < 128 \/ c = 0xFFFD)) (decode_ascii_replace l).
Proof.
  intros H. unfold decode_ascii_replace. apply Forall_fmap.
  eapply Forall_impl; [exact H|]. intros y Hy. unfold compose.
  destruct (Byte.to_N y <? 128) eqn:E.
  - apply N.ltb_lt in E. split; [|by left].
    destruct (N.eq_dec (Byte.to_N y) 0) as [H0|]; [|lia].
    by apply to_N_zero in H0.
  - split; [lia|by right].
Qed.

Lemma slice_0 {A} (l : list A) k : slice l 0 k = take (N.to_nat k) l.
Proof. rewrite slice_unclamped. f_equal. lia. Qed.

Lemma field_text_clean field width :
  len field <= width -> clean_text width (field_text field width).
Proof.
  intros Hw. unfold field_text, clean_text. split.
  - unfold len, decode_ascii_replace in *. rewrite length_map.
    pose proof (length_slice (A := byte) field 0
      (if byte_in x00 field
       then match index_of x00 field with Some k => k | None => width end
       else width)) as Hl.
    pose proof (clamp_le (A := byte) field
      (if byte_in x00 field
       then match index_of x00 field with Some k => k | None => width end
       else width)). lia.
  - apply decode_nonzero. rewrite slice_0.
    destruct (byte_in x00 field) eqn:E.
    + destruct (index_of_byte_in _ _ E) as [k Hk]. rewrite Hk.
      by apply index_of_before.
    + apply Forall_take. by apply byte_in_false.
Qed.

Lemma parse_section_names buf i off s :
  parse_section buf i off = inr s ->
  clean_text 256 (path s) /\ clean_text 92 (label s).
Proof.
  unfold parse_section. cbv zeta.
  intros (c & _ & H)%rbind_inr. apply rbind_inr in H as (so & _ & H).
  apply rbind_inr in H as (sz & Hsz & H).
  destruct (classify _ sz _) as [ct tc] eqn:Hc.
  injection H as <-. unfold new_section. cbn [path label].
  split; apply field_text_clean; unfold len.
  - pose proof (length_slice_le buf
      (SECT_DESC_START + i * SECT_DESC_SIZE + 12)
      (SECT_DESC_START + i * SECT_DESC_SIZE + 12 + 256)). lia.
  - pose proof (length_slice_le buf
      (SECT_DESC_START + i * SECT_DESC_SIZE + 268)
      (SECT_DESC_START + i * SECT_DESC_SIZE + 268 + 92)). lia.
Qed.

(** X5. Throughout an editing session the path of a section has at most
    256 characters and its label at most 92; neither holds a null
    character, and every character is ASCII or U+FFFD (the replacement of a
    byte above 0x7F); the file name is the path with every [file:]
    removed. *)
Theorem section_names_clean fw s :
  reachable fw -> s ∈ sections fw ->
  clean_text 256 (path s) /\ clean_text 92 (label s) /\
  file_name s = remove_all (lit "file:") (path s).
Proof.
  intros Hr Hs.
  pose proof (reachable_sections_ind
    (fun s => clean_text 256 (path s) /\ clean_text 92 (label s) /\
              file_name s = remove_all (lit "file:") (path s))) as H.
  eapply Forall_forall in H; [exact H| | | |exact Hr|exact Hs].
  - clear. intros b fw s Hp Hs.
    destruct (parsed_section_classified b fw s Hp Hs) as [Hf _].
    apply parse_inv in Hp as (_ & _ & _ & _ & _ & _ & _ & _ & _ & Hp).
    destruct (parse_sections_elem _ _ _ _ _ _ Hp Hs) as (j & off & Hj).
    destruct (parse_section_names _ _ _ _ Hj). done.
  - intros s0 d Hs0 _. exact Hs0.
  - intros s0 d Hs0 _.
    pose proof (metadata_with_payload s0 d) as Hm.
    unfold metadata, descriptor_fields in Hm.
    injection Hm as _ _ _ _ _ Hp Hf Hl _ _. by rewrite Hp, Hf, Hl.
Qed.

Lemma section_names_clean_witness :
  sample_section 1 ∈ sections sample_fw /\
  clean_text 256 (path (sample_section 1)) /\
  clean_text 92 (label (sample_section 1)) /\
  file_name (sample_section 1)
  = remove_all (lit "file:") (path (sample_section 1)).
Proof.
  assert (sample_section 1 ∈ sections sample_fw) as Hs.
  { apply (list_elem_of_lookup_2 _ 1%nat). vm_compute. reflexivity. }
  split; [exact Hs|].
  exact (section_names_clean sample_fw _ sample_reachable Hs).
Defined.

(** ** Payloads and their text *)

Lemma decode_utf8_ascii b0 t0 :
  Byte.to_N b0 < 0x80 ->
  decode_utf8 (b0 :: t0) = option_map (cons (Byte.to_N b0)) (decode_utf8 t0).
Proof.
  intros H. apply N.ltb_lt in H. cbn [decode_utf8]. cbv zeta.
  by rewrite H.
Qed.

Lemma is_text_byte_ascii x : is_text_byte x = true -> Byte.to_N x < 0x80.
Proof.
  unfold is_text_byte, in_range. cbv zeta.
  rewrite !orb_true_iff, !andb_true_iff, N.eqb_eq, !N.leb_le. lia.
Qed.

(** A payload of text bytes is valid UTF-8: it decodes to itself. *)
Lemma text_bytes_decode d :
  forallb is_text_byte d = true -> decode_utf8 d = Some (map Byte.to_N d).
Proof.
  induction d as [|x d IH]; [done|].
  cbn [forallb]. intros [Hx Hd]%andb_true_iff.
  rewrite decode_utf8_ascii by by apply is_text_byte_ascii.
  by rewrite IH.
Qed.

Lemma classify_view f sz d ct tc :
  classify f sz d = (ct, tc) -> (tc = None <-> ct = Binary).
Proof.
  unfold classify.
  destruct (endswith (lit ".sh") f).
  { destruct (decode_utf8 d); intros [= <- <-]; done. }
  destruct (endswith (lit ".xml") f).
  { destruct (decode_utf8 d); intros [= <- <-]; done. }
  destruct (sz <=? 4); [intros [= <- <-]; done|].
  cbv zeta. destruct (forallb is_text_byte d) eqn:Ht; cbn [andb].
  - destruct (sz <? 65536); intros [= <- <-]; [|done].
    by rewrite (text_bytes_decode d Ht).
  - intros [= <- <-]; done.
Qed.

(** X6. Throughout an editing session the payload of a section is never
    longer than its [data_size], and a section has no text exactly when its
    content type is [binary]. *)
Theorem section_payload_view fw s :
  reachable fw -> s ∈ sections fw ->
  len (data s) <= data_size s /\
  (text_content s = None <-> content_type s = Binary).
Proof.
  intros Hr Hs.
  pose proof (reachable_sections_ind
    (fun s => len (data s) <= data_size s /\
              (text_content s = None <-> content_type s = Binary))) as H.
  eapply Forall_forall in H; [exact H| | | |exact Hr|exact Hs].
  - clear. intros b fw s Hp Hs.
    destruct (parsed_section_classified b fw s Hp Hs) as [_ Hc].
    apply parse_inv in Hp as (_ & _ & _ & _ & _ & _ & _ & _ & _ & Hp).
    destruct (parse_sections_elem _ _ _ _ _ _ Hp Hs) as (j & off & Hj).
    apply parse_section_fields in Hj as (_ & _ & _ & _ & Hd & _).
    split.
    + rewrite Hd. unfold len.
      pose proof (length_slice_le b off (off + data_size s)). lia.
    + eapply classify_view. symmetry. exact Hc.
  - intros s0 d [_ Hv] Hd. split; [exact Hd|exact Hv].
  - intros s0 d [_ Hv] Hd. unfold with_payload. cbv zeta.
    cbn [content_type set_data].
    destruct (content_type s0) eqn:Hct; cbn [text_like];
      try destruct (decode_utf8 d);
      cbn [data data_size text_content content_type set_data set_text_content];
      rewrite ?Hct; (split; [lia|]); try done.
    all: rewrite <- Hct; exact Hv.
Qed.

Lemma section_payload_view_witness :
  sample_section 1 ∈ sections sample_fw /\
  len (data (sample_section 1)) <= data_size (sample_section 1) /\
  (text_content (sample_section 1) = None
   <-> content_type (sample_section 1) = Binary).
Proof.
  assert (sample_section 1 ∈ sections sample_fw) as Hs.
  { apply (list_elem_of_lookup_2 _ 1%nat). vm_compute. reflexivity. }
  split; [exact Hs|].
  exact (section_payload_view sample_fw _ sample_reachable Hs).
Defined.

(** X7. A section that the parser classifies [text] has a name without
    the shell or XML extension, a size above 4 and below 65536, and a
    payload of text bytes only (null, 0x09..0x0D, 0x20..0x7E); its text is
    the payload, byte for byte: the decode of such a section cannot fail,
    so a [text] section always has a text. *)
Theorem text_section_decodes b fw s :
  parse b = inr fw -> s ∈ sections fw -> content_type s = Text ->
  endswith (lit ".sh") (file_name s) = false /\
  endswith (lit ".xml") (file_name s) = false /\
  4 < data_size s < 65536 /\
  forallb is_text_byte (data s) = true /\
  text_content s = Some (map Byte.to_N (data s)).
Proof.
  intros Hp Hs Ht.
  destruct (parsed_section_classified b fw s Hp Hs) as [_ Hc].
  rewrite Ht in Hc. unfold classify in Hc.
  destruct (endswith (lit ".sh") (file_name s)).
  { destruct (decode_utf8 (data s)); discriminate Hc. }
  destruct (endswith (lit ".xml") (file_name s)).
  { destruct (decode_utf8 (data s)); discriminate Hc. }
  destruct (data_size s <=? 4) eqn:E4; [discriminate Hc|].
  apply N.leb_gt in E4. cbv zeta in Hc.
  destruct (forallb is_text_byte (data s)) eqn:Hb; cbn [andb] in Hc;
    [|discriminate Hc].
  destruct (data_size s <? 65536) eqn:E; [|discriminate Hc].
  apply N.ltb_lt in E. injection Hc as Hc.
  rewrite (text_bytes_decode _ Hb) in Hc. done.
Qed.

Lemma text_section_decodes_witness :
  sample_section 2 ∈ sections sample_fw /\
  content_type (sample_section 2) = Text /\
  4 < data_size (sample_section 2) < 65536 /\
  text_content (sample_section 2) = Some (map Byte.to_N (data (sample_section 2))).
Proof.
  assert (sample_section 2 ∈ sections sample_fw) as Hs.
  { apply (list_elem_of_lookup_2 _ 2%nat). vm_compute. reflexivity. }
  assert (content_type (sample_section 2) = Text) as Ht
    by (vm_compute; reflexivity).
  destruct (text_section_decodes sample_image sample_fw _ sample_parsed Hs Ht)
    as (_ & _ & H1 & _ & H2).
  split; [exact Hs|]. split; [exact Ht|]. split; [exact H1|exact H2].
Defined.

(** ** The identifiers read from the header *)

Lemma split_fragments (P : N -> Prop) d s :
  Forall P s -> Forall (Forall (fun c => c <> d /\ P c)) (split d s).
Proof.
  induction 1 as [|c s Hc _ IH]; simpl.
  - repeat constructor.
  - destruct (c =? d) eqn:E.
    + constructor; [constructor|exact IH].
    + apply N.eqb_neq in E. destruct (split d s) as [|h r].
      * repeat constructor; done.
      * apply Forall_cons in IH as [Hh Hr].
        constructor; [|exact Hr]. by constructor.
Qed.

Lemma length_concat_split d s :
  (length (concat (split d s)) <= length s)%nat.
Proof.
  induction s as [|c s IH]; simpl; [done|].
  destruct (c =? d); [simpl; lia|].
  destruct (split d s) as [|h r]; simpl in *; lia.
Qed.

Lemma length_concat_filter (l : list str) :
  (length (concat (filter (fun s : str => s <> []) l)) <= length (concat l))%nat.
Proof.
  induction l as [|x l IH]; [done|].
  destruct (decide (x <> [])) as [Hx|Hx].
  - rewrite filter_cons_True by done. simpl. rewrite !length_app. lia.
  - rewrite filter_cons_False by done. simpl. rewrite length_app. lia.
Qed.

(** The bytes that [parse_product_ids] decodes hold no null byte. *)
Lemma product_ids_text buf ids :
  parse_product_ids buf = inr ids ->
  exists w : bytes, Forall (fun y => y <> x00) w /\ (length w <= 260)%nat /\
    ids = filter (fun s : str => s <> []) (split 124 (decode_ascii_replace w)).
Proof.
  unfold parse_product_ids. change PID_OFFSET with 36.
  change (36 + PID_MAX_LEN) with 296.
  destruct (byte_in x00 (slice buf 36 296)) eqn:E.
  - assert (36 < length buf)%nat as Hlen.
    { destruct (slice buf 36 296) as [|x w] eqn:Hw; [discriminate E|].
      pose proof (slice_nonempty_inside buf 36 296) as H.
      rewrite Hw in H. cbn [length] in H. lia. }
    unfold index_from, slice_from. rewrite clamp_in_range by lia.
    destruct (index_of x00 (drop (N.to_nat 36) buf)) as [k|] eqn:Hk;
      cbn [rbind]; [|done].
    intros [= <-].
    exists (slice buf 36 (N.of_nat (N.to_nat 36) + k)).
    split; [|split; [|done]].
    + rewrite slice_unclamped.
      replace (N.to_nat (N.of_nat (N.to_nat 36) + k) - N.to_nat 36)%nat
        with (N.to_nat k) by lia.
      by apply index_of_before.
    + (* the first null byte lies in the window *)
      apply byte_in_spec in E as [j Hj]. rewrite lookup_slice in Hj.
      case_decide as Hj260; [|done].
      assert (N.to_nat k <= j)%nat.
      { destruct (decide (N.to_nat k <= j)%nat) as [|Hlt]; [done|].
        pose proof (index_of_before _ _ _ Hk) as Hb.
        assert (take (N.to_nat k) (drop (N.to_nat 36) buf) !! j = Some x00)
          as Hj'.
        { rewrite lookup_take_lt by lia. rewrite lookup_drop. exact Hj. }
        eapply Forall_lookup_1 in Hb; [|exact Hj']. done. }
      pose proof (length_slice_le buf 36 (N.of_nat (N.to_nat 36) + k)). lia.
  - cbn [rbind]. intros [= <-]. exists (slice buf 36 296).
    split; [by apply byte_in_false|]. split; [|done].
    pose proof (length_slice_le buf 36 296). lia.
Qed.

(** X8. The identifiers of a parsed image are not empty and hold neither
    the delimiter nor a null character; every character is ASCII or U+FFFD;
    together they have at most 260 characters. *)
Theorem parsed_product_ids_clean b fw :
  parse b = inr fw ->
  Forall (fun id => id <> [] /\
            Forall (fun c => c <> 124 /\ 0 < c /\ (c < 128 \/ c = 0xFFFD)) id)
         (product_ids fw) /\
  len (concat (product_ids fw)) <= 260.
Proof.
  intros H. apply parse_inv in H as (_ & _ & _ & _ & _ & _ & H & _).
  apply product_ids_text in H as (w & Hw & Hlen & ->).
  pose proof (split_fragments _ 124 _ (decode_nonzero w Hw)) as Hs.
  split.
  - apply Forall_forall. intros id [Hne Hid]%list_elem_of_filter.
    split; [done|]. eapply Forall_forall in Hs; [|exact Hid]. exact Hs.
  - unfold len.
    pose proof (length_concat_filter (split 124 (decode_ascii_replace w))).
    pose proof (length_concat_split 124 (decode_ascii_replace w)) as H2.
    unfold decode_ascii_replace in H2 at 2. rewrite length_map in H2. lia.
Qed.

Lemma parsed_product_ids_clean_witness :
  Forall (fun id => id <> [] /\
            Forall (fun c => c <> 124 /\ 0 < c /\ (c < 128 \/ c = 0xFFFD)) id)
         (product_ids sample_fw) /\
  len (concat (product_ids sample_fw)) <= 260.
Proof. exact (parsed_product_ids_clean sample_image sample_fw sample_parsed). Defined.

(** ** Writing the identifiers: errors and the bytes written *)

Lemma join_Forall (P : N -> Prop) sep (l : list str) :
  Forall P sep -> Forall (Forall P) l -> Forall P (join sep l).
Proof.
  intros Hsep. induction 1 as [|x l Hx Hl IH]; [constructor|].
  destruct l as [|y l]; [exact Hx|].
  change (join sep (x :: y :: l)) with (x ++ sep ++ join sep (y :: l)).
  rewrite !Forall_app. auto.
Qed.

Lemma join_Exists (P : N -> Prop) sep (l : list str) :
  Exists (Exists P) l -> Exists P (join sep l).
Proof.
  induction 1 as [x l Hx|x l Hl IH].
  - destruct l as [|y l]; [exact Hx|].
    change (join sep (x :: y :: l)) with (x ++ sep ++ join sep (y :: l)).
    apply Exists_app. by left.
  - destruct l as [|y l]; [by apply Exists_nil in Hl|].
    change (join sep (x :: y :: l)) with (x ++ sep ++ join sep (y :: l)).
    rewrite !Exists_app. auto.
Qed.

Lemma encode_ascii_fails s :
  Exists (fun c => 128 <= c) s -> encode_ascii s = inl UnicodeEncodeError.
Proof.
  intros H. unfold encode_ascii.
  assert (forallb (fun c => c <? 128) s = false) as ->; [|done].
  induction H as [c s Hc|c s _ IH]; cbn [forallb].
  - apply N.ltb_ge in Hc. by rewrite Hc.
  - rewrite IH. apply andb_false_r.
Qed.

(** X9. Identifiers that are ASCII but whose joined text, with its
    trailing delimiter, is longer than the 260-byte window: the call raises
    the length error and the object is left as it was. *)
Theorem set_product_ids_too_long fw ids :
  Forall (Forall (fun c => c < 128)) ids ->
  PID_MAX_LEN < len (join (lit "|") ids ++ lit "|") ->
  set_product_ids ids fw = (inl ValueError_pid_too_long, fw).
Proof.
  intros Hascii Hlong. rewrite set_product_ids_eq.
  rewrite encode_ascii_ok.
  - unfold len in *. rewrite length_map.
    by apply N.ltb_lt in Hlong as ->.
  - apply Forall_app. split; [|repeat constructor].
    apply join_Forall; [repeat constructor|exact Hascii].
Qed.

Lemma set_product_ids_too_long_witness :
  Forall (Forall (fun c => c < 128)) [replicate 260 65] /\
  PID_MAX_LEN < len (join (lit "|") [replicate 260 65] ++ lit "|") /\
  set_product_ids [replicate 260 65] sample_fw
  = (inl ValueError_pid_too_long, sample_fw).
Proof.
  assert (Forall (Forall (fun c => c < 128)) [replicate 260 65]) as H1.
  { constructor; [|constructor]. apply Forall_replicate. lia. }
  assert (PID_MAX_LEN < len (join (lit "|") [replicate 260 65] ++ lit "|"))
    as H2 by (vm_compute; reflexivity).
  split; [exact H1|]. split; [exact H2|].
  exact (set_product_ids_too_long sample_fw _ H1 H2).
Defined.

(** X10. An identifier with a character that is not ASCII: the call raises
    the encoding error, whatever the length of the list, and the object is
    left as it was. *)
Theorem set_product_ids_non_ascii fw ids :
  Exists (Exists (fun c => 128 <= c)) ids ->
  set_product_ids ids fw = (inl UnicodeEncodeError, fw).
Proof.
  intros H. rewrite set_product_ids_eq.
  rewrite encode_ascii_fails; [done|].
  apply Exists_app. left. by apply join_Exists.
Qed.

Lemma set_product_ids_non_ascii_witness :
  Exists (Exists (fun c => 128 <= c)) [lit "A"; [233]] /\
  set_product_ids [lit "A"; [233]] sample_fw
  = (inl UnicodeEncodeError, sample_fw).
Proof.
  assert (Exists (Exists (fun c => 128 <= c)) [lit "A"; [233]]) as H.
  { apply Exists_cons_tl, Exists_cons_hd, Exists_cons_hd. lia. }
  split; [exact H|]. exact (set_product_ids_non_ascii sample_fw _ H).
Defined.

(** X11. On a buffer that holds the whole header, a call that returns
    leaves in the window the encoded identifiers followed by null bytes up
    to its end (nothing of the old content survives), keeps the length of
    the buffer and every byte outside the window, and keeps the sections;
    the cached checksum and its validity flag are not touched, so the flag
    no longer tells whether the stored checksum fits the buffer. *)
Theorem set_product_ids_window fw ids fw' :
  (296 <= length (raw fw))%nat ->
  set_product_ids ids fw = (inr tt, fw') ->
  exists pid,
    encode_ascii (join (lit "|") ids ++ lit "|") = inr pid /\
    len pid <= PID_MAX_LEN /\
    length (raw fw') = length (raw fw) /\
    slice (raw fw') PID_OFFSET (PID_OFFSET + PID_MAX_LEN)
    = pid ++ replicate (260 - length pid) x00 /\
    (forall p, (p < 36 \/ 296 <= p)%nat -> raw fw' !! p = raw fw !! p) /\
    product_ids fw' = ids /\ sections fw' = sections fw /\
    head_crc fw' = head_crc fw /\ computed_crc fw' = computed_crc fw /\
    crc_valid fw' = crc_valid fw.
Proof.
  intros Hlen. rewrite set_product_ids_eq.
  destruct (encode_ascii _) as [e|pid]; [done|].
  destruct (PID_MAX_LEN <? len pid) eqn:E; [done|].
  apply N.ltb_ge in E. cbv zeta. intros H.
  apply (f_equal snd) in H. cbn [snd] in H. subst fw'.
  cbn [raw product_ids sections head_crc computed_crc crc_valid
       set_product_ids_attr set_raw].
  change PID_OFFSET with 36 in *. change (36 + PID_MAX_LEN) with 296 in *.
  change PID_MAX_LEN with 260 in *. unfold len in E.
  set (raw1 := slice_assign (raw fw) 36 296 (replicate (N.to_nat 260) x00)).
  assert (length raw1 = length (raw fw)) as Hlen1.
  { apply length_slice_assign_inside; [lia..|]. by rewrite length_replicate. }
  assert (forall p, (p < 36 \/ 296 <= p)%nat -> raw1 !! p = raw fw !! p) as Hout1.
  { intros p Hp. apply lookup_slice_assign_inside; [lia..| |lia].
    by rewrite length_replicate. }
  assert (forall p, (36 <= p < 296)%nat -> raw1 !! p = Some x00) as Hin1.
  { intros p Hp. unfold raw1. rewrite lookup_slice_assign_mid.
    - apply lookup_replicate_2. lia.
    - lia.
    - rewrite length_replicate. lia. }
  set (raw2 := slice_assign raw1 36 (36 + len pid) pid).
  assert (length raw2 = length raw1) as Hlen2.
  { apply length_slice_assign_inside; unfold len; lia. }
  exists pid. split; [done|]. split; [unfold len; lia|].
  split; [lia|]. split; [|split; [|done]].
  - apply list_eq. intros i. rewrite lookup_slice.
    case_decide as Hi.
    + destruct (decide (i < length pid)%nat) as [Hlt|Hge].
      * rewrite lookup_app_l by done. unfold raw2.
        rewrite lookup_slice_assign_mid by lia. f_equal. lia.
      * rewrite lookup_app_r by lia. rewrite lookup_replicate_2 by lia.
        unfold raw2. rewrite lookup_slice_assign_inside; unfold len; try lia.
        apply Hin1. lia.
    + symmetry. apply lookup_ge_None.
      rewrite length_app, length_replicate. lia.
  - intros p Hp. unfold raw2.
    rewrite lookup_slice_assign_inside; unfold len; try lia.
    by apply Hout1.
Qed.

Lemma set_product_ids_window_witness :
  exists fw' pid,
    (296 <= length (raw sample_fw))%nat /\
    set_product_ids [lit "X1"] sample_fw = (inr tt, fw') /\
    encode_ascii (join (lit "|") [lit "X1"] ++ lit "|") = inr pid /\
    slice (raw fw') PID_OFFSET (PID_OFFSET + PID_MAX_LEN)
    = pid ++ replicate (260 - length pid) x00.
Proof.
  assert (296 <= length (raw sample_fw))%nat as Hlen
    by (apply Nat.leb_le; vm_compute; reflexivity).
  destruct (set_product_ids [lit "X1"] sample_fw) as [[e|[]] fw'] eqn:E.
  { vm_compute in E. discriminate E. }
  destruct (set_product_ids_window sample_fw [lit "X1"] fw' Hlen E)
    as (pid & H1 & _ & _ & H2 & _).
  exists fw', pid. split; [exact Hlen|]. split; [reflexivity|].
  split; [exact H1|exact H2].
Defined.

(** ** Indexing the section list *)

(** X12. An index outside [-n, n), for [n] sections, raises the index
    error and the object is left as it was. *)
Theorem set_section_data_bad_index fw idx d :
  (idx < - Z.of_nat (length (sections fw))
   \/ Z.of_nat (length (sections fw)) <= idx)%Z ->
  set_section_data idx d fw = (inl IndexError, fw).
Proof.
  intros H. rewrite set_section_data_eq. unfold py_index.
  destruct ((0 <=? idx)%Z && (idx <? Z.of_nat (length (sections fw)))%Z) eqn:E1.
  { apply andb_true_iff in E1 as [H1%Z.leb_le H2%Z.ltb_lt]. lia. }
  destruct ((- Z.of_nat (length (sections fw)) <=? idx)%Z && (idx <? 0)%Z) eqn:E2.
  { apply andb_true_iff in E2 as [H1%Z.leb_le H2%Z.ltb_lt]. lia. }
  done.
Qed.

Lemma set_section_data_bad_index_witness :
  (3 < - Z.of_nat (length (sections sample_fw))
   \/ Z.of_nat (length (sections sample_fw)) <= 3)%Z /\
  set_section_data 3 [x01] sample_fw = (inl IndexError, sample_fw).
Proof.
  assert (3 < - Z.of_nat (length (sections sample_fw))
          \/ Z.of_nat (length (sections sample_fw)) <= 3)%Z as H.
  { right. vm_compute. discriminate. }
  split; [exact H|]. exact (set_section_data_bad_index sample_fw 3 [x01] H).
Defined.

(** X13. A negative index counts from the end: with [n] sections, the call
    with index [-n <= i < 0] is the call with index [n + i]. *)
Theorem set_section_data_negative_index fw idx d :
  (- Z.of_nat (length (sections fw)) <= idx < 0)%Z ->
  set_section_data idx d fw
  = set_section_data (Z.of_nat (length (sections fw)) + idx) d fw.
Proof.
  intros H. rewrite !set_section_data_eq. unfold py_index.
  assert ((0 <=? idx)%Z = false) as -> by (apply Z.leb_gt; lia).
  assert ((- Z.of_nat (length (sections fw)) <=? idx)%Z = true) as ->
    by (apply Z.leb_le; lia).
  assert ((idx <? 0)%Z = true) as -> by (apply Z.ltb_lt; lia).
  assert ((0 <=? Z.of_nat (length (sections fw)) + idx)%Z = true) as ->
    by (apply Z.leb_le; lia).
  assert ((Z.of_nat (length (sections fw)) + idx
           <? Z.of_nat (length (sections fw)))%Z = true) as ->
    by (apply Z.ltb_lt; lia).
  reflexivity.
Qed.

Lemma set_section_data_negative_index_witness :
  (- Z.of_nat (length (sections sample_fw)) <= -2 < 0)%Z /\
  set_section_data (-2) [x07] sample_fw
  = set_section_data (Z.of_nat (length (sections sample_fw)) + -2) [x07] sample_fw.
Proof.
  assert (- Z.of_nat (length (sections sample_fw)) <= -2 < 0)%Z as H.
  { split; vm_compute; [discriminate|reflexivity]. }
  split; [exact H|].
  exact (set_section_data_negative_index sample_fw (-2) [x07] H).
Defined.

(** ** The checksum and images without a manifest *)

Lemma slice_assign_twice {A} (l v : list A) a b :
  (a <= b)%N -> (N.to_nat b <= length l)%nat -> length v = N.to_nat (b - a) ->
  slice_assign (slice_assign l a b v) a b v = slice_assign l a b v.
Proof.
  intros Hab Hb Hv. unfold slice_assign at 1.
  rewrite !clamp_in_range by (rewrite length_slice_assign_inside; lia).
  unfold slice_assign. rewrite !clamp_in_range by lia.
  rewrite take_app_le by (rewrite length_take; lia).
  rewrite take_take, Nat.min_id. f_equal. f_equal.
  rewrite app_assoc, drop_app_ge; rewrite length_app, length_take; [|lia].
  rewrite drop_drop. f_equal. lia.
Qed.

(** The object that [recalculate_crc] leaves is one that it maps to
    itself. *)
Lemma recalculate_crc_fixed fw :
  (12 <= length (raw fw))%nat ->
  let c := crc32 (slice_from (raw fw) 0x0C) in
  let fw1 := set_crc c (set_raw (slice_assign (raw fw) 0x08 0x0C (pack_le32 c)) fw) in
  recalculate_crc fw1 = (inr tt, fw1).
Proof.
  intros Hlen0. cbv zeta.
  set (c := crc32 (slice_from (raw fw) 12)).
  set (raw1 := slice_assign (raw fw) 8 12 (pack_le32 c)).
  assert (length raw1 = length (raw fw)) as Hlen.
  { apply length_slice_assign_inside; [lia..|by rewrite length_pack_le32]. }
  rewrite recalculate_crc_eq by (cbn [raw set_crc set_raw]; lia).
  cbv zeta. cbn [raw set_crc set_raw].
  assert (crc32 (slice_from raw1 12) = c) as ->.
  { unfold c. f_equal.
    apply slice_from_slice_assign; [lia..|by rewrite length_pack_le32]. }
  unfold raw1 at 1.
  rewrite slice_assign_twice; [|lia..|by rewrite length_pack_le32].
  reflexivity.
Qed.

(** X14. Recomputing the checksum a second time changes nothing: the
    checksum covers the buffer from 0x0C on, so storing it at 0x08 does not
    change it. *)
Theorem recalculate_crc_idempotent fw fw1 :
  recalculate_crc fw = (inr tt, fw1) -> recalculate_crc fw1 = (inr tt, fw1).
Proof.
  intros H.
  assert (12 <= length (raw fw))%nat as Hlen.
  { unfold recalculate_crc, bind, get in H.
    destruct (len (raw fw) <? 12) eqn:E; [discriminate H|].
    apply N.ltb_ge in E. unfold len in E. lia. }
  rewrite recalculate_crc_eq in H by done. cbv zeta in H.
  injection H as <-. by apply recalculate_crc_fixed.
Qed.

Lemma recalculate_crc_idempotent_witness :
  exists fw1, recalculate_crc sample_fw = (inr tt, fw1) /\
              recalculate_crc fw1 = (inr tt, fw1).
Proof.
  destruct (recalculate_crc sample_fw) as [[e|[]] fw1] eqn:E.
  { vm_compute in E. discriminate E. }
  exists fw1. split; [reflexivity|].
  exact (recalculate_crc_idempotent sample_fw fw1 E).
Defined.

Lemma find_signinfo_none k l :
  Forall (fun s => contains (lit "signinfo") (path s) = false) l ->
  find_signinfo k l = None.
Proof.
  intros H. revert k. induction H as [|s l Hs _ IH]; intros k; simpl; [done|].
  rewrite Hs. cbn [negb]. apply IH.
Qed.

(** X15. When no section has [signinfo] in its path, [fix_signinfo] does
    nothing, and [save] on a buffer of at least 12 bytes writes the buffer
    with nothing changed but the four checksum bytes at 0x08; sections and
    identifiers stay, and a second [save] writes the same bytes. *)
Theorem save_without_manifest fw :
  (12 <= length (raw fw))%nat ->
  Forall (fun s => contains (lit "signinfo") (path s) = false) (sections fw) ->
  exists out fw',
    fix_signinfo fw = (inr tt, fw) /\
    save fw = (inr out, fw') /\
    out = take 8 (raw fw) ++ pack_le32 (crc32 (drop 12 (raw fw)))
          ++ drop 12 (raw fw) /\
    sections fw' = sections fw /\ product_ids fw' = product_ids fw /\
    save fw' = (inr out, fw').
Proof.
  intros Hlen Hno.
  pose proof (fix_signinfo_eq fw) as Hfix.
  rewrite (find_signinfo_none 0 _ Hno) in Hfix.
  set (c := crc32 (slice_from (raw fw) 12)).
  set (out := slice_assign (raw fw) 8 12 (pack_le32 c)).
  set (fw' := set_crc c (set_raw out fw)).
  assert (recalculate_crc fw = (inr tt, fw')) as Hcrc
    by (by rewrite recalculate_crc_eq).
  assert (save fw = (inr out, fw')) as Hsave
    by (by rewrite save_eq, Hfix, Hcrc).
  exists out, fw'. split; [done|]. split; [done|]. split; [|split; [done|]].
  - unfold out, c, slice_assign. rewrite slice_from_unclamped.
    rewrite !clamp_in_range by lia. reflexivity.
  - split; [done|].
    pose proof (fix_signinfo_eq fw') as Hfix'.
    change (sections fw') with (sections fw) in Hfix'.
    rewrite (find_signinfo_none 0 _ Hno) in Hfix'.
    pose proof (recalculate_crc_fixed fw Hlen) as Hfixed.
    change (recalculate_crc fw' = (inr tt, fw')) in Hfixed.
    by rewrite save_eq, Hfix', Hfixed.
Qed.

Lemma plain_parsed : parse plain_image = inr plain_fw.
Proof. vm_compute. reflexivity. Qed.

Lemma plain_sections : sections plain_fw = [plain_section 0; plain_section 1].
Proof. vm_compute. reflexivity. Qed.

Lemma save_without_manifest_witness :
  (12 <= length (raw plain_fw))%nat /\
  Forall (fun s => contains (lit "signinfo") (path s) = false)
         (sections plain_fw) /\
  exists out fw',
    save plain_fw = (inr out, fw') /\
    out = take 8 (raw plain_fw) ++ pack_le32 (crc32 (drop 12 (raw plain_fw)))
          ++ drop 12 (raw plain_fw) /\
    save fw' = (inr out, fw').
Proof.
  assert (12 <= length (raw plain_fw))%nat as Hlen
    by (apply Nat.leb_le; vm_compute; reflexivity).
  assert (Forall (fun s => contains (lit "signinfo") (path s) = false)
                 (sections plain_fw)) as Hno.
  { rewrite plain_sections.
    do 2 (constructor; [vm_compute; reflexivity|]). constructor. }
  destruct (save_without_manifest plain_fw Hlen Hno)
    as (out & fw' & _ & H1 & H2 & _ & _ & H3).
  split; [exact Hlen|]. split; [exact Hno|]. exists out, fw'.
  split; [exact H1|]. split; [exact H2|exact H3].
Defined.

(** ** The text of a replaced payload *)

Lemma decode_utf8_zeros n :
  decode_utf8 (replicate n x00) = Some (replicate n 0).
Proof.
  rewrite text_bytes_decode.
  - f_equal. induction n as [|n IH]; [done|]. cbn [replicate map]. by rewrite IH.
  - induction n as [|n IH]; [done|]. cbn [replicate forallb]. by rewrite IH.
Qed.

(** Null bytes after a payload neither repair nor break its decoding. *)
Lemma decode_utf8_app_zeros d n :
  decode_utf8 (d ++ replicate n x00)
  = option_map (fun t => t ++ replicate n 0) (decode_utf8 d).
Proof.
  remember (length d) as m eqn:Hm. revert d Hm.
  induction m as [m IH] using lt_wf_ind. intros d ->.
  destruct d as [|b0 t0]; [cbn [app]; by rewrite decode_utf8_zeros|].
  assert (forall t, (length t < length (b0 :: t0))%nat ->
            decode_utf8 (t ++ replicate n x00)
            = option_map (fun t => t ++ replicate n 0) (decode_utf8 t)) as IH'.
  { intros t Ht. by eapply IH. }
  clear IH.
  cbn [app decode_utf8]. cbv zeta.
  destruct (Byte.to_N b0 <? 128) eqn:E0.
  { rewrite IH' by (simpl; lia). by destruct (decode_utf8 t0). }
  destruct t0 as [|b1 t1].
  { destruct n as [|n]; [done|]. cbn [app replicate].
    change (Byte.to_N x00) with 0.
    destruct (in_range 194 223 (Byte.to_N b0)); [done|].
    destruct n as [|n]; [done|]. cbn [replicate].
    change (Byte.to_N x00) with 0.
    destruct (in_range 224 239 (Byte.to_N b0)).
    { by destruct (Byte.to_N b0 =? 224), (Byte.to_N b0 =? 237). }
    destruct n as [|n]; [done|]. cbn [replicate].
    change (Byte.to_N x00) with 0.
    destruct (in_range 240 244 (Byte.to_N b0)); [|done].
    by destruct (Byte.to_N b0 =? 240), (Byte.to_N b0 =? 244). }
  cbn [app].
  destruct (in_range 194 223 (Byte.to_N b0)).
  { destruct (is_cont (Byte.to_N b1)); [|done].
    rewrite IH' by (simpl; lia). by destruct (decode_utf8 t1). }
  destruct t1 as [|b2 t2].
  { destruct n as [|n]; [done|]. cbn [app replicate].
    change (Byte.to_N x00) with 0.
    destruct (in_range 224 239 (Byte.to_N b0)).
    { change (is_cont 0) with false. by rewrite andb_false_r. }
    destruct n as [|n]; [done|]. cbn [replicate].
    change (Byte.to_N x00) with 0.
    destruct (in_range 240 244 (Byte.to_N b0)); [|done].
    change (is_cont 0) with false. by rewrite !andb_false_r. }
  cbn [app].
  destruct (in_range 224 239 (Byte.to_N b0)).
  { destruct (_ && is_cont (Byte.to_N b2)); [|done].
    rewrite IH' by (simpl; lia). by destruct (decode_utf8 t2). }
  destruct t2 as [|b3 t3].
  { destruct n as [|n]; [done|]. cbn [app replicate].
    change (Byte.to_N x00) with 0.
    destruct (in_range 240 244 (Byte.to_N b0)); [|done].
    change (is_cont 0) with false. by rewrite !andb_false_r. }
  cbn [app].
  destruct (in_range 240 244 (Byte.to_N b0)); [|done].
  destruct (_ && is_cont (Byte.to_N b3)); [|done].
  rewrite IH' by (simpl; lia). by destruct (decode_utf8 t3).
Qed.

(** ** Parsing, field by field *)

Lemma parse_parsed_image b fw :
  parse b = inr fw <->
  slice b 0 4 = HWNP_MAGIC /\ (32 <= length b)%nat /\
  exists ids secs,
    parse_product_ids b = inr ids /\
    parse_sections b (N.to_nat (header_item_num b)) 0
      (SECT_DESC_START + header_item_num b * SECT_DESC_SIZE) = inr secs /\
    fw = parsed_image b ids secs.
Proof.
  assert (forall a, (32 <= length b)%nat -> a + 4 <= 32 ->
                    length (slice b a (a + 4)) = 4%nat) as Hl4.
  { intros a Hb Ha. rewrite length_slice_full; lia. }
  split.
  - intros H. pose proof (parse_inv _ _ H) as (_ & Hlen & Hmagic & _).
    split; [done|]. split; [done|].
    unfold parse in H. rewrite bool_decide_eq_true_2 in H by exact Hmagic.
    cbn [negb] in H.
    rewrite (unpack_be32_length (slice b 4 8)) in H by (apply (Hl4 4); lia).
    cbn [rbind] in H.
    rewrite (unpack_le32_length (slice b 8 12)) in H by (apply (Hl4 8); lia).
    cbn [rbind] in H.
    rewrite (unpack_le32_length (slice b 12 16)) in H by (apply (Hl4 12); lia).
    cbn [rbind] in H.
    rewrite (unpack_le32_length (slice b 16 20)) in H by (apply (Hl4 16); lia).
    cbn [rbind] in H.
    rewrite (unpack_le32_length (slice b 20 24)) in H by (apply (Hl4 20); lia).
    cbn [rbind] in H.
    rewrite (unpack_le32_length (slice b 24 28)) in H by (apply (Hl4 24); lia).
    cbn [rbind] in H.
    rewrite (unpack_le32_length (slice b 28 32)) in H by (apply (Hl4 28); lia).
    cbn [rbind] in H.
    apply rbind_inr in H as (ids & Hids & H).
    apply rbind_inr in H as (secs & Hsecs & H).
    exists ids, secs. split; [done|]. split; [exact Hsecs|].
    by injection H as <-.
  - intros (Hmagic & Hlen & ids & secs & Hids & Hsecs & ->).
    unfold parse. rewrite bool_decide_eq_true_2 by exact Hmagic. cbn [negb].
    rewrite (unpack_be32_length (slice b 4 8)) by (apply (Hl4 4); lia).
    cbn [rbind].
    rewrite (unpack_le32_length (slice b 8 12)) by (apply (Hl4 8); lia).
    cbn [rbind].
    rewrite (unpack_le32_length (slice b 12 16)) by (apply (Hl4 12); lia).
    cbn [rbind].
    rewrite (unpack_le32_length (slice b 16 20)) by (apply (Hl4 16); lia).
    cbn [rbind].
    rewrite (unpack_le32_length (slice b 20 24)) by (apply (Hl4 20); lia).
    cbn [rbind].
    rewrite (unpack_le32_length (slice b 24 28)) by (apply (Hl4 24); lia).
    cbn [rbind].
    rewrite (unpack_le32_length (slice b 28 32)) by (apply (Hl4 28); lia).
    cbn [rbind]. rewrite Hids. cbn [rbind].
    fold (header_item_num b). rewrite Hsecs. reflexivity.
Qed.

(** ** What a second parse reads from a changed buffer *)

Lemma index_of_take x n l k :
  index_of x (take n l) = Some k -> index_of x l = Some k.
Proof.
  revert n k. induction l as [|y l IH]; intros [|n] k; simpl; try done.
  destruct (Byte.eqb x y); [done|].
  destruct (index_of x (take n l)) as [j|] eqn:E; [|done].
  by rewrite (IH _ _ E).
Qed.

(** The identifiers depend on the window only. *)
Lemma parse_product_ids_window buf buf' :
  (forall p, (36 <= p < 296)%nat -> buf' !! p = buf !! p) ->
  parse_product_ids buf' = parse_product_ids buf.
Proof.
  intros Hsame.
  assert (forall e, e <= 296 -> slice buf' 36 e = slice buf 36 e) as Hsl.
  { intros e He. apply slice_ext. intros p Hp. apply Hsame. lia. }
  assert (forall buf : bytes, byte_in x00 (slice buf 36 296) = true ->
            exists k, k < 260 /\ index_of x00 (slice buf 36 296) = Some k /\
                      index_from x00 36 buf = Some (36 + k)) as Hidx.
  { clear. intros buf E.
    assert (36 < length buf)%nat as Hlen.
    { destruct (slice buf 36 296) as [|x w] eqn:Hw; [discriminate E|].
      pose proof (slice_nonempty_inside buf 36 296) as H.
      rewrite Hw in H. cbn [length] in H. lia. }
    destruct (index_of_byte_in _ _ E) as [k Hk]. exists k.
    assert (k < 260) as Hk260.
    { pose proof (index_of_before _ _ _ Hk) as Hb.
      apply byte_in_spec in E as [j Hj].
      apply lookup_lt_Some in Hj as Hjl.
      pose proof (length_slice_le buf 36 296).
      destruct (decide (N.to_nat k <= j)%nat) as [|Hlt]; [lia|].
      assert (take (N.to_nat k) (slice buf 36 296) !! j = Some x00) as Hj'
        by (rewrite lookup_take_lt by lia; exact Hj).
      eapply Forall_lookup_1 in Hb; [|exact Hj']. done. }
    split; [done|]. split; [done|].
    unfold index_from, slice_from. rewrite clamp_in_range by lia.
    rewrite slice_unclamped in Hk. apply index_of_take in Hk. rewrite Hk.
    f_equal; lia. }
  unfold parse_product_ids. change PID_OFFSET with 36.
  change (36 + PID_MAX_LEN) with 296. rewrite (Hsl 296) by lia.
  destruct (byte_in x00 (slice buf 36 296)) eqn:E;
    [|cbn [rbind]; by rewrite Hsl by lia].
  destruct (Hidx buf E) as (k & Hk & Hk1 & ->).
  assert (byte_in x00 (slice buf' 36 296) = true) as E'
    by (by rewrite Hsl by lia).
  destruct (Hidx buf' E') as (k' & Hk' & Hk1' & ->).
  rewrite Hsl in Hk1' by lia. assert (k' = k) as -> by congruence.
  cbn [rbind]. by rewrite Hsl by lia.
Qed.

Lemma parse_section_same buf buf' i off s :
  parse_section buf i off = inr s ->
  (forall p, (N.to_nat (SECT_DESC_START + i * SECT_DESC_SIZE) <= p
              < N.to_nat (SECT_DESC_START + (i + 1) * SECT_DESC_SIZE))%nat ->
             buf' !! p = buf !! p) ->
  exists s', parse_section buf' i off = inr s' /\
             descriptor_fields s' = descriptor_fields s.
Proof.
  intros H Hsame.
  set (d := SECT_DESC_START + i * SECT_DESC_SIZE) in *.
  assert (forall a e, d <= a -> e <= d + 360 -> slice buf' a e = slice buf a e)
    as Hsl.
  { intros a e Ha He. apply slice_ext. intros p Hp. apply Hsame.
    subst d. unfold SECT_DESC_SIZE in *. lia. }
  unfold parse_section in *. cbv zeta in *. fold d in H |- *.
  rewrite !Hsl by (unfold SECT_DESC_SIZE; lia).
  apply rbind_inr in H as (c & -> & H). apply rbind_inr in H as (so & -> & H).
  apply rbind_inr in H as (sz & -> & H). cbn [rbind].
  destruct (classify _ sz (slice buf _ _)) as [ct tc].
  destruct (classify _ sz (slice buf' _ _)) as [ct' tc'].
  injection H as <-. eexists. split; reflexivity.
Qed.

Lemma parse_sections_same buf buf' n i off l :
  parse_sections buf n i off = inr l ->
  (forall p, (N.to_nat (SECT_DESC_START + i * SECT_DESC_SIZE) <= p
              < N.to_nat (SECT_DESC_START + (i + N.of_nat n) * SECT_DESC_SIZE))%nat ->
             buf' !! p = buf !! p) ->
  exists l', parse_sections buf' n i off = inr l' /\
             map descriptor_fields l' = map descriptor_fields l.
Proof.
  revert i off l. induction n as [|n IH]; intros i off l H Hsame.
  - injection H as <-. by exists [].
  - cbn [parse_sections] in H |- *.
    apply rbind_inr in H as (s & Hs & H). apply rbind_inr in H as (rest & Hr & H).
    injection H as <-.
    destruct (parse_section_same buf buf' i off s Hs) as (s' & Hs' & Hd).
    { intros p Hp. apply Hsame. unfold SECT_DESC_SIZE in *. lia. }
    rewrite Hs'. cbn [rbind].
    assert (data_size s' = data_size s) as ->.
    { unfold descriptor_fields in Hd. by injection Hd. }
    destruct (IH (i + 1) (align4 (off + data_size s)) rest Hr) as (rest' & -> & Hl).
    { intros p Hp. apply Hsame. unfold SECT_DESC_SIZE in *. lia. }
    cbn [rbind]. eexists. split; [reflexivity|]. cbn [map]. by rewrite Hd, Hl.
Qed.

(** A buffer that keeps the header fields other than the stored checksum
    and the identifiers, and the whole descriptor table, parses to an image
    with the same header attributes and the same descriptors. *)
Lemma reparse b fw out :
  parse b = inr fw ->
  (N.to_nat (table_end fw) <= length b)%nat ->
  (length b <= length out)%nat ->
  (forall p, (p < N.to_nat (table_end fw))%nat ->
             (p < 8 \/ 12 <= p < 36 \/ 296 <= p)%nat -> out !! p = b !! p) ->
  exists ids secs,
    parse out = inr (parsed_image out ids secs) /\
    parse_product_ids out = inr ids /\
    header_fields (parsed_image out ids secs) = header_fields fw /\
    map descriptor_fields secs = map descriptor_fields (sections fw) /\
    Forall (fun s => data s = slice out (data_offset s)
                                (data_offset s + data_size s)) secs.
Proof.
  intros Hp Hin Hlen Hsame.
  apply parse_parsed_image in Hp
    as (Hmagic & H32 & ids & secs & Hids & Hsecs & ->).
  unfold table_end in *. cbn [item_num parsed_image] in *.
  assert (296 <= N.to_nat (SECT_DESC_START + header_item_num b * SECT_DESC_SIZE))%nat
    as Htend by (unfold SECT_DESC_START; lia).
  assert (forall a e, (e <= 8 \/ 12 <= a) -> e <= 36 ->
                      slice out a e = slice b a e) as Hhdr.
  { intros a e H1 H2. apply slice_ext. intros p Hp. apply Hsame; lia. }
  assert (header_item_num out = header_item_num b) as Hitem.
  { unfold header_item_num. by rewrite Hhdr by lia. }
  destruct (parse_product_ids_total out) as [ids' Hids'].
  destruct (parse_sections_same b out _ 0 _ _ Hsecs) as (secs' & Hsecs' & Hd).
  { intros p Hp. apply Hsame; [lia|]. unfold SECT_DESC_START in Hp. lia. }
  exists ids', secs'. split; [|split; [done|split; [|split; [done|]]]].
  - apply parse_parsed_image. split; [by rewrite Hhdr by lia|].
    split; [lia|]. exists ids', secs'. rewrite Hitem. done.
  - unfold header_fields, parsed_image.
    cbn [payload_size head_len file_crc item_num version item_desc_size].
    rewrite Hitem. by rewrite !Hhdr by lia.
  - apply Forall_forall. intros s Hs.
    destruct (parse_sections_elem _ _ _ _ _ _ Hsecs' Hs) as (j & off & Hj).
    by apply parse_section_fields in Hj as (_ & -> & _ & _ & Hdata & _).
Qed.

(** ** Where [save] writes *)

(** The buffer that [fix_signinfo] leaves differs from the buffer with the
    zeroed header only inside the manifest, after its first 60 bytes. *)
Lemma fix_signinfo_buffer fw k sig :
  find_signinfo 0 (sections fw) = Some (k, sig) ->
  exists patched,
    fix_signinfo fw =
      (inr tt,
       set_sections
         (<[k := set_data (slice patched (data_offset sig)
                             (data_offset sig + data_size sig)) sig]>
            (sections fw))
         (set_raw patched fw)) /\
    length patched = length (zeroed fw sig) /\
    (forall q, (q < N.to_nat (data_offset sig) + 60
                \/ N.to_nat (data_offset sig + data_size sig) <= q)%nat ->
               patched !! q = zeroed fw sig !! q).
Proof.
  intros Hfind.
  pose proof (fix_signinfo_eq fw) as Hfix. rewrite Hfind in Hfix.
  cbv zeta in Hfix. destruct Hfix as (patched & Hp0 & Hfix).
  assert (patch_hashes (sections fw) (data_offset sig)
            (finditer (scanned_text fw sig)) (zeroed fw sig) = inr patched)
    as Hp by exact Hp0.
  clear Hp0. exists patched. split; [exact Hfix|]. clear Hfix.
  set (off := data_offset sig) in *. set (size := data_size sig) in *.
  set (raw1 := zeroed fw sig) in *. set (T0 := scanned_text fw sig) in *.
  set (ms := finditer T0) in *.
  assert (spaced T0 60 ms) as Hsp.
  { apply spaced_after_zeros; [apply scanned_text_zeros|apply finditer_spaced]. }
  assert (length T0 = length (slice raw1 off (off + size))) as HT0
    by apply length_map.
  assert (len T0 <= size) as HTsize.
  { unfold len. rewrite HT0.
    pose proof (length_slice_le raw1 off (off + size)). lia. }
  clearbody ms.
  destruct ms as [|m0 rest] eqn:Hms.
  { unfold patch_hashes in Hp. cbn [fold_left] in Hp. by injection Hp as <-. }
  destruct (patch_hashes_fields (sections fw) off T0 (m0 :: rest) 60 raw1 Hsp)
    as (B' & HB' & H1 & H2 & _).
  { rewrite HT0. apply slice_nonempty_inside. rewrite <- HT0.
    destruct Hsp as (_ & H & _). unfold len in H. lia. }
  rewrite Hp in HB'. injection HB' as <-. split; [done|].
  intros q Hq. apply H2. intros m Hm.
  destruct (spaced_bounds _ _ _ _ Hsp Hm) as [Hm1 Hm2].
  unfold len in *. lia.
Qed.

(** X16. For an image of an editing session with a manifest, [save]
    succeeds and never shortens the buffer; the written bytes differ from
    the buffer only in the checksum field at 0x08 and in the 60 bytes from
    the start of the manifest or, when the manifest is longer, in the
    manifest; the other section objects and the identifiers are what they
    were, also a later section whose path contains [signinfo]. *)
Theorem save_frame fw k sig :
  reachable fw -> find_signinfo 0 (sections fw) = Some (k, sig) ->
  exists out fw',
    save fw = (inr out, fw') /\ raw fw' = out /\
    (length (raw fw) <= length out)%nat /\
    ((N.to_nat (data_offset sig) + 60 <= length (raw fw))%nat ->
     length out = length (raw fw)) /\
    (forall q, (q < length (raw fw))%nat -> (q < 8 \/ 12 <= q)%nat ->
       (q < N.to_nat (data_offset sig)
        \/ N.to_nat (data_offset sig) + 60 <= q
           /\ N.to_nat (data_offset sig + data_size sig) <= q)%nat ->
       out !! q = raw fw !! q) /\
    (forall j, j <> k -> sections fw' !! j = sections fw !! j) /\
    product_ids fw' = product_ids fw.
Proof.
  intros Hwf%reachable_wf Hfind. pose proof Hwf as [Hlen Hlay].
  destruct (fix_signinfo_buffer fw k sig Hfind) as (patched & Hfix & Hpl & Hpo).
  set (off := data_offset sig) in *. set (size := data_size sig) in *.
  unfold zeroed in Hpl, Hpo. fold off in Hpl, Hpo.
  set (raw1 := slice_assign (raw fw) off (off + 60) (replicate 60 x00)) in *.
  assert (length (raw fw) <= length raw1)%nat as Hlen1.
  { apply length_slice_assign_ge. rewrite length_replicate. lia. }
  rewrite save_eq, Hfix.
  rewrite recalculate_crc_eq by (cbn [raw set_sections set_raw]; lia).
  cbv zeta. cbn [raw set_sections set_raw].
  set (c := crc32 (slice_from patched 12)).
  set (out := slice_assign patched 8 12 (pack_le32 c)).
  assert (length out = length patched) as Hlo.
  { apply length_slice_assign_inside; [lia..|by rewrite length_pack_le32]. }
  eexists out, _. split; [reflexivity|].
  cbn [raw sections product_ids set_crc set_raw set_sections].
  split; [done|]. split; [lia|]. split; [|split; [|split; [|done]]].
  - intros Hin. rewrite Hlo, Hpl. unfold raw1.
    apply length_slice_assign_inside; [lia..|rewrite length_replicate; lia].
  - intros q Hq Hcrc Hout. unfold out.
    rewrite lookup_slice_assign_inside;
      [|lia|lia|by rewrite length_pack_le32|lia].
    rewrite Hpo by (unfold off, size in *; lia).
    unfold raw1. apply lookup_slice_assign_outside;
      [lia|rewrite length_replicate; lia|lia|lia].
  - intros j Hj. by apply list_lookup_insert_ne.
Qed.

Lemma save_frame_witness :
  exists out fw',
    save sample_fw = (inr out, fw') /\
    length out = length (raw sample_fw) /\
    (forall j, j <> 2%nat -> sections fw' !! j = sections sample_fw !! j).
Proof.
  destruct (save_frame sample_fw 2 (sample_section 2) sample_reachable
              sample_manifest_found)
    as (out & fw' & H1 & _ & _ & H2 & _ & H3 & _).
  exists out, fw'. split; [exact H1|]. split; [|exact H3].
  apply H2. apply Nat.leb_le. vm_compute. reflexivity.
Defined.

(** X17. The zeroing of the manifest header always covers 60 bytes: when
    the manifest starts inside the buffer, the 60 bytes of the written
    buffer from its offset on are null, whatever the size of the manifest.
    With a manifest shorter than 60 bytes this reaches into the padding
    and the sections that follow, whose objects are not updated. *)
Theorem save_zeroes_sixty_bytes fw k sig :
  reachable fw -> find_signinfo 0 (sections fw) = Some (k, sig) ->
  (N.to_nat (data_offset sig) <= length (raw fw))%nat ->
  exists out fw',
    save fw = (inr out, fw') /\
    slice out (data_offset sig) (data_offset sig + 60) = replicate 60 x00 /\
    (forall j, j <> k -> sections fw' !! j = sections fw !! j).
Proof.
  intros Hwf%reachable_wf Hfind Hin. pose proof Hwf as [Hlen Hlay].
  pose proof (find_signinfo_offset fw k sig Hwf Hfind) as Hoff.
  destruct (fix_signinfo_buffer fw k sig Hfind) as (patched & Hfix & Hpl & Hpo).
  set (off := data_offset sig) in *. set (size := data_size sig) in *.
  assert (296 <= off) as Hoff296 by (unfold SECT_DESC_START in Hoff; lia).
  unfold zeroed in Hpl, Hpo. fold off in Hpl, Hpo.
  set (raw1 := slice_assign (raw fw) off (off + 60) (replicate 60 x00)) in *.
  assert (N.to_nat off + 60 <= length raw1)%nat as Hlen1.
  { unfold raw1. rewrite length_slice_assign, length_replicate.
    rewrite (clamp_in_range (raw fw) off) by lia. lia. }
  rewrite save_eq, Hfix.
  rewrite recalculate_crc_eq by (cbn [raw set_sections set_raw]; lia).
  cbv zeta. cbn [raw set_sections set_raw].
  set (c := crc32 (slice_from patched 12)).
  set (out := slice_assign patched 8 12 (pack_le32 c)).
  eexists out, _. split; [reflexivity|].
  cbn [sections set_crc set_raw set_sections].
  split; [|intros j Hj; by apply list_lookup_insert_ne].
  apply list_eq. intros i. rewrite lookup_slice.
  case_decide as Hi.
  - rewrite lookup_replicate_2 by lia. unfold out.
    rewrite lookup_slice_assign_inside;
      [|lia|lia|by rewrite length_pack_le32|lia].
    rewrite Hpo by lia. unfold raw1. apply zeroed_header; [lia|].
    fold raw1. lia.
  - symmetry. apply lookup_ge_None. rewrite length_replicate. lia.
Qed.

Lemma save_zeroes_sixty_bytes_witness :
  exists out fw',
    (N.to_nat (data_offset (sample_section 2)) <= length (raw sample_fw))%nat /\
    save sample_fw = (inr out, fw') /\
    slice out (data_offset (sample_section 2))
      (data_offset (sample_section 2) + 60) = replicate 60 x00.
Proof.
  assert (N.to_nat (data_offset (sample_section 2))
          <= length (raw sample_fw))%nat as Hin
    by (apply Nat.leb_le; vm_compute; reflexivity).
  destruct (save_zeroes_sixty_bytes sample_fw 2 (sample_section 2)
              sample_reachable sample_manifest_found Hin)
    as (out & fw' & H1 & H2 & _).
  exists out, fw'. split; [exact Hin|]. split; [exact H1|exact H2].
Defined.

(** ** Saving and opening again *)

(** What [save] writes, for an image that satisfies the invariant: the
    checksum of the written bytes at 0x08, and the bytes of the buffer
    outside the checksum field and the span of the manifest. *)
Lemma save_buffer fw :
  wf fw ->
  exists out fw',
    save fw = (inr out, fw') /\ raw fw' = out /\
    sections fw' = sections (snd (fix_signinfo fw)) /\
    (length (raw fw) <= length out)%nat /\
    le_value (slice out 8 12) = crc32 (slice_from out 12) /\
    head_crc fw' = crc32 (slice_from out 12) /\
    (forall q, (q < length (raw fw))%nat -> (q < 8 \/ 12 <= q)%nat ->
       match find_signinfo 0 (sections fw) with
       | None => True
       | Some (k, sig) =>
           (q < N.to_nat (data_offset sig)
            \/ N.to_nat (data_offset sig) + 60 <= q
               /\ N.to_nat (data_offset sig + data_size sig) <= q)%nat
       end -> out !! q = raw fw !! q) /\
    (match find_signinfo 0 (sections fw) with
     | None => True
     | Some (k, sig) =>
         (N.to_nat (data_offset sig) + 60 <= length (raw fw))%nat
     end -> length out = length (raw fw)).
Proof.
  intros Hwf. pose proof Hwf as [Hlen Hlay].
  destruct (save_steps fw Hwf) as (fw1 & Hfix & [Hlen1 _] & Hsave).
  cbv zeta in Hsave.
  set (c := crc32 (slice_from (raw fw1) 12)) in *.
  set (out := slice_assign (raw fw1) 8 12 (pack_le32 c)) in *.
  assert (slice_from out 12 = slice_from (raw fw1) 12) as Hfrom.
  { apply slice_from_slice_assign; [lia..|by rewrite length_pack_le32]. }
  assert (slice out 8 12 = pack_le32 c) as Hslice.
  { apply slice_slice_assign_same; [lia..|by rewrite length_pack_le32]. }
  assert (length out = length (raw fw1)) as Hlo.
  { apply length_slice_assign_inside; [lia..|by rewrite length_pack_le32]. }
  assert (forall q, (q < 8 \/ 12 <= q)%nat -> out !! q = raw fw1 !! q) as Hcrc.
  { intros q Hq. apply lookup_slice_assign_inside;
      [lia|lia|by rewrite length_pack_le32|lia]. }
  exists out, (set_crc c (set_raw out fw1)).
  split; [exact Hsave|]. split; [done|].
  rewrite Hfix. cbn [snd sections head_crc set_crc set_raw].
  split; [done|].
  rewrite Hfrom, Hslice. fold c.
  rewrite le_value_pack_le32 by apply crc32_bound.
  destruct (find_signinfo 0 (sections fw)) as [[k sig]|] eqn:Hfind.
  - destruct (fix_signinfo_buffer fw k sig Hfind) as (patched & Hfix' & Hpl & Hpo).
    rewrite Hfix in Hfix'. apply (f_equal snd) in Hfix'. cbn [snd] in Hfix'.
    assert (raw fw1 = patched) as Hraw1 by (by rewrite Hfix').
    unfold zeroed in Hpl, Hpo.
    assert (length (raw fw)
            <= length (slice_assign (raw fw) (data_offset sig)
                         (data_offset sig + 60) (replicate 60 x00)))%nat as Hge.
    { apply length_slice_assign_ge. rewrite length_replicate. lia. }
    split; [rewrite Hlo, Hraw1; lia|]. split; [done|]. split; [done|]. split.
    + intros q Hq Hq8 Hout. rewrite Hcrc by done. rewrite Hraw1.
      rewrite Hpo by lia.
      apply lookup_slice_assign_outside;
        [lia|rewrite length_replicate; lia|lia|lia].
    + intros Hin. rewrite Hlo, Hraw1, Hpl.
      apply length_slice_assign_inside; [lia..|rewrite length_replicate; lia].
  - pose proof (fix_signinfo_eq fw) as Hfix'. rewrite Hfind in Hfix'.
    rewrite Hfix in Hfix'. injection Hfix' as ->.
    split; [lia|]. split; [done|]. split; [done|]. split; [|intros _; lia].
    intros q Hq Hq8 _. by apply Hcrc.
Qed.

(** [save] keeps the header but for the checksum, and the descriptor
    table. *)
Lemma save_keeps_table fw out q :
  wf fw -> fst (save fw) = inr out ->
  (q < length (raw fw))%nat -> (q < N.to_nat (table_end fw))%nat ->
  (q < 8 \/ 12 <= q)%nat -> out !! q = raw fw !! q.
Proof.
  intros Hwf Hsave Hq Hqt Hq8.
  destruct (save_buffer fw Hwf) as (out' & fw' & Hs & _ & _ & _ & _ & _ & Hk & _).
  rewrite Hs in Hsave. cbn [fst] in Hsave. injection Hsave as <-.
  apply Hk; [done|done|].
  destruct (find_signinfo 0 (sections fw)) as [[k sig]|] eqn:Hfind; [|done].
  pose proof (find_signinfo_offset fw k sig Hwf Hfind). unfold table_end in Hqt.
  lia.
Qed.

(** X18. Opening what [save] wrote. For a buffer that parses and holds its
    whole descriptor table, the bytes written by [save] parse, to an image
    whose stored checksum is valid and is the one [save] computed, with the
    same header attributes, the same identifiers, and, section by section,
    the same descriptor fields (index, checksum, offsets, size, path, file
    name, label, descriptor bytes); every payload is the slot of the section
    in the written bytes. *)
Theorem save_reopen b fw :
  parse b = inr fw -> (N.to_nat (table_end fw) <= length b)%nat ->
  exists out fw' fw2,
    save fw = (inr out, fw') /\ parse out = inr fw2 /\
    crc_valid fw2 = true /\ head_crc fw2 = head_crc fw' /\
    computed_crc fw2 = head_crc fw' /\
    header_fields fw2 = header_fields fw /\
    product_ids fw2 = product_ids fw /\
    map descriptor_fields (sections fw2) = map descriptor_fields (sections fw) /\
    Forall (fun s => data s = slice out (data_offset s)
                                (data_offset s + data_size s)) (sections fw2).
Proof.
  intros Hp Hin. pose proof (parse_wf _ _ Hp) as Hwf.
  pose proof (parse_inv _ _ Hp) as (Hraw & _ & _ & _ & _ & _ & Hids & _).
  destruct (save_buffer fw Hwf)
    as (out & fw' & Hs & _ & _ & Hlen & Hcrc & Hhead & _ & _).
  assert (forall q, (q < N.to_nat (table_end fw))%nat -> (q < 8 \/ 12 <= q)%nat ->
                    out !! q = b !! q) as Hsame.
  { intros q Hq Hq8. rewrite <- Hraw.
    apply (save_keeps_table fw out q Hwf); [by rewrite Hs|rewrite Hraw; lia|done..]. }
  assert (296 <= N.to_nat (table_end fw))%nat as Htend
    by (unfold table_end, SECT_DESC_START; lia).
  destruct (reparse b fw out Hp Hin) as (ids & secs & Hp2 & Hids2 & Hh & Hd & Hm).
  { by rewrite <- Hraw. }
  { intros p Hp1 Hp2. apply Hsame; lia. }
  exists out, fw', (parsed_image out ids secs).
  split; [exact Hs|]. split; [exact Hp2|].
  cbn [crc_valid head_crc computed_crc product_ids sections parsed_image].
  rewrite Hcrc, Hhead. split; [apply N.eqb_refl|]. split; [done|].
  split; [done|]. split; [exact Hh|]. split; [|split; [exact Hd|exact Hm]].
  rewrite (parse_product_ids_window b out) in Hids2.
  - rewrite Hids in Hids2. by injection Hids2.
  - intros p Hp1. apply Hsame; lia.
Qed.

Lemma save_reopen_witness :
  exists out fw' fw2,
    (N.to_nat (table_end sample_fw) <= length sample_image)%nat /\
    save sample_fw = (inr out, fw') /\ parse out = inr fw2 /\
    crc_valid fw2 = true /\ product_ids fw2 = product_ids sample_fw.
Proof.
  assert (N.to_nat (table_end sample_fw) <= length sample_image)%nat as Hin
    by (apply Nat.leb_le; vm_compute; reflexivity).
  destruct (save_reopen sample_image sample_fw sample_parsed Hin)
    as (out & fw' & fw2 & H1 & H2 & H3 & _ & _ & _ & H4 & _).
  exists out, fw', fw2. split; [exact Hin|]. split; [exact H1|].
  split; [exact H2|]. split; [exact H3|exact H4].
Defined.

(** ** Editing the identifiers, saving and opening again *)

(** The window that [set_product_ids] writes reads back as the list. *)
Lemma plain_ids_read_back (r : bytes) ids :
  Forall plain_id ids ->
  len (join (lit "|") ids ++ lit "|") <= PID_MAX_LEN ->
  exists pid,
    encode_ascii (join (lit "|") ids ++ lit "|") = inr pid /\
    len pid <= PID_MAX_LEN /\
    parse_product_ids
      (slice_assign
         (slice_assign r PID_OFFSET (PID_OFFSET + PID_MAX_LEN)
            (replicate (N.to_nat PID_MAX_LEN) x00))
         PID_OFFSET (PID_OFFSET + len pid) pid) = inr ids.
Proof.
  intros Hplain Hfit.
  set (text := join (lit "|") ids ++ lit "|") in *.
  pose proof (plain_text_ascii ids Hplain) as Hascii. fold text in Hascii.
  assert (Forall (fun c => c < 128) text) as Hascii'
    by (eapply Forall_impl; [exact Hascii|]; intros c; simpl; lia).
  exists (map byte_of_N text). split; [by apply encode_ascii_ok|].
  set (pid := map byte_of_N text).
  assert (length pid = length text) as Hlen by apply length_map.
  assert (len pid <= PID_MAX_LEN) as Hfit' by (unfold len in *; by rewrite Hlen).
  split; [done|].
  destruct (written_window r pid) as [Hslice Hzero].
  { unfold len in Hfit'. change PID_MAX_LEN with 260 in Hfit'. lia. }
  cbv zeta in Hslice, Hzero.
  rewrite (read_window _ pid); [| | |exact Hslice|exact Hzero].
  - unfold pid. rewrite decode_encode_ascii by done.
    f_equal. by apply split_join_plain.
  - split.
    + rewrite Hlen. unfold text. rewrite length_app. simpl. lia.
    + unfold len in Hfit'. change PID_MAX_LEN with 260 in Hfit'. lia.
  - unfold pid. apply Forall_fmap. eapply Forall_impl; [exact Hascii|].
    intros c Hc Hz. cbv beta in Hc.
    apply (f_equal Byte.to_N) in Hz. rewrite to_N_byte_of_N in Hz.
    rewrite N.mod_small in Hz by lia. change (Byte.to_N x00) with 0 in Hz. lia.
Qed.

(** X19. Editing the identifiers, saving and opening again. For a buffer
    that parses and holds its whole descriptor table, and a list of
    identifiers that are not empty, ASCII, without delimiter or null
    character, whose encoding fits in the window: [set_product_ids] and then
    [save] succeed, and the written bytes parse to an image with exactly
    these identifiers, a valid checksum, and the header attributes and
    descriptor fields of the original. *)
Theorem edit_ids_save_reopen b fw ids :
  parse b = inr fw -> (N.to_nat (table_end fw) <= length b)%nat ->
  Forall plain_id ids ->
  len (join (lit "|") ids ++ lit "|") <= PID_MAX_LEN ->
  exists fw1 out fw2 fw3,
    set_product_ids ids fw = (inr tt, fw1) /\
    save fw1 = (inr out, fw2) /\ parse out = inr fw3 /\
    product_ids fw3 = ids /\ crc_valid fw3 = true /\
    header_fields fw3 = header_fields fw /\
    map descriptor_fields (sections fw3) = map descriptor_fields (sections fw).
Proof.
  intros Hp Hin Hplain Hfit.
  pose proof (parse_inv _ _ Hp) as (Hraw & _).
  assert (296 <= N.to_nat (table_end fw))%nat as Htend
    by (unfold table_end, SECT_DESC_START; lia).
  destruct (plain_ids_read_back (raw fw) ids Hplain Hfit)
    as (pid & Henc & Hpid & Hread).
  pose proof (set_product_ids_eq ids fw) as Hset.
  rewrite Henc in Hset. apply N.ltb_ge in Hpid as Hltb. rewrite Hltb in Hset.
  cbv zeta in Hset.
  set (raw1 := slice_assign (raw fw) PID_OFFSET (PID_OFFSET + PID_MAX_LEN)
                 (replicate (N.to_nat PID_MAX_LEN) x00)) in *.
  set (raw2 := slice_assign raw1 PID_OFFSET (PID_OFFSET + len pid) pid) in *.
  set (fw1 := set_product_ids_attr ids (set_raw raw2 fw)) in *.
  assert (wf fw1) as Hwf1.
  { pose proof (wf_set_product_ids ids fw (parse_wf _ _ Hp)) as H.
    by rewrite Hset in H. }
  (* the buffer after the edit *)
  change PID_OFFSET with 36 in *. change (36 + PID_MAX_LEN) with 296 in *.
  change PID_MAX_LEN with 260 in *. unfold len in Hpid.
  assert (length (raw fw) = length b) as Hlr by (by rewrite Hraw).
  assert (length raw1 = length b) as Hlen1.
  { rewrite <- Hlr. apply length_slice_assign_inside; [lia..|].
    rewrite length_replicate. lia. }
  assert (length raw2 = length b) as Hlen2.
  { rewrite <- Hlen1. apply length_slice_assign_inside; unfold len; lia. }
  assert (forall p, (p < 36 \/ 296 <= p)%nat -> raw2 !! p = b !! p) as Hout2.
  { intros p Hp'. unfold raw2.
    rewrite lookup_slice_assign_inside; unfold len; try lia.
    unfold raw1. rewrite <- Hraw.
    apply lookup_slice_assign_inside; [lia..|rewrite length_replicate; lia|lia]. }
  (* save *)
  destruct (save_buffer fw1 Hwf1)
    as (out & fw2 & Hs & _ & _ & Hlen & Hcrc & Hhead & _ & _).
  assert (forall q, (q < N.to_nat (table_end fw))%nat -> (q < 8 \/ 12 <= q)%nat ->
                    out !! q = raw2 !! q) as Hsame.
  { intros q Hq Hq8.
    apply (save_keeps_table fw1 out q Hwf1); [by rewrite Hs| |done..].
    cbn [raw fw1 set_product_ids_attr set_raw]. lia. }
  cbn [raw fw1 set_product_ids_attr set_raw] in Hlen.
  destruct (reparse b fw out Hp Hin) as (ids' & secs & Hp2 & Hids2 & Hh & Hd & _).
  { lia. }
  { intros p Hp1 Hp2. rewrite Hsame by lia. apply Hout2. lia. }
  exists fw1, out, fw2, (parsed_image out ids' secs).
  split; [exact Hset|]. split; [exact Hs|]. split; [exact Hp2|].
  cbn [crc_valid product_ids sections parsed_image].
  rewrite Hcrc. split; [|split; [apply N.eqb_refl|by split]].
  rewrite (parse_product_ids_window raw2 out) in Hids2.
  - rewrite Hread in Hids2. by injection Hids2.
  - intros p Hp1. apply Hsame; lia.
Qed.

Lemma edit_ids_save_reopen_witness :
  exists fw1 out fw2 fw3,
    (N.to_nat (table_end sample_fw) <= length sample_image)%nat /\
    Forall plain_id [lit "X1"; lit "YY"] /\
    set_product_ids [lit "X1"; lit "YY"] sample_fw = (inr tt, fw1) /\
    save fw1 = (inr out, fw2) /\ parse out = inr fw3 /\
    product_ids fw3 = [lit "X1"; lit "YY"] /\ crc_valid fw3 = true.
Proof.
  assert (N.to_nat (table_end sample_fw) <= length sample_image)%nat as Hin
    by (apply Nat.leb_le; vm_compute; reflexivity).
  assert (Forall plain_id [lit "X1"; lit "YY"]) as H1.
  { repeat constructor; (discriminate || lia). }
  assert (len (join (lit "|") [lit "X1"; lit "YY"] ++ lit "|") <= PID_MAX_LEN)
    as H2 by (vm_compute; discriminate).
  destruct (edit_ids_save_reopen sample_image sample_fw _ sample_parsed Hin H1 H2)
    as (fw1 & out & fw2 & fw3 & E1 & E2 & E3 & E4 & E5 & _).
  exists fw1, out, fw2, fw3. split; [exact Hin|]. split; [exact H1|].
  split; [exact E1|]. split; [exact E2|]. split; [exact E3|].
  split; [exact E4|exact E5].
Defined.

(** ** The manifest is found by the paths *)

Lemma find_signinfo_same l l' k0 :
  map path l' = map path l ->
  match find_signinfo k0 l with
  | None => find_signinfo k0 l' = None
  | Some (k, s) => exists s', find_signinfo k0 l' = Some (k, s') /\
                              l' !! (k - k0)%nat = Some s' /\
                              l !! (k - k0)%nat = Some s
  end.
Proof.
  revert l' k0. induction l as [|x l IH]; intros [|x' l'] k0 H; try done.
  cbn [map] in H. injection H as Hx Hl. cbn [find_signinfo]. rewrite Hx.
  destruct (contains (lit "signinfo") (path x)); cbn [negb].
  - exists x'. by rewrite Nat.sub_diag.
  - specialize (IH l' (S k0) Hl).
    destruct (find_signinfo (S k0) l) as [[k s]|] eqn:E; [|done].
    destruct IH as (s' & -> & H1 & H2). exists s'. split; [done|].
    apply find_signinfo_lookup in E as (Hle & _).
    replace (k - k0)%nat with (S (k - S k0)) by lia. done.
Qed.

Lemma map_path_insert l j s s' :
  l !! j = Some s -> path s' = path s -> map path (<[j := s']> l) = map path l.
Proof.
  intros Hj Hp. change (map path) with (fmap (M := list) path).
  rewrite list_fmap_insert, Hp. apply list_insert_id.
  by rewrite list_lookup_fmap, Hj.
Qed.

(** ** Editing a payload, saving and opening again *)

(** What [set_section_data] does to the buffer when the slot lies in it. *)
Lemma set_section_data_buffer fw j s d :
  sections fw !! j = Some s ->
  (N.to_nat (data_offset s + data_size s) <= length (raw fw))%nat ->
  len d <= data_size s ->
  exists fw1,
    set_section_data (Z.of_nat j) d fw = (inr tt, fw1) /\
    sections fw1 = <[j := with_payload s (padded d (data_size s))]> (sections fw) /\
    length (raw fw1) = length (raw fw) /\
    slice (raw fw1) (data_offset s) (data_offset s + data_size s)
    = padded d (data_size s) /\
    (forall q, (q < N.to_nat (data_offset s)
                \/ N.to_nat (data_offset s + data_size s) <= q)%nat ->
               raw fw1 !! q = raw fw !! q).
Proof.
  intros Hj Hin Hd. rewrite set_section_data_eq.
  rewrite (py_index_nonneg _ _ s) by (rewrite ?Nat2Z.id; (lia || done)).
  rewrite Nat2Z.id, Hj.
  destruct (data_size s <? len d) eqn:E; [apply N.ltb_lt in E; lia|].
  cbv zeta. eexists. split; [reflexivity|].
  cbn [sections raw set_sections set_raw]. split; [done|].
  pose proof (length_padded d (data_size s) Hd) as Hpl.
  split; [apply length_slice_assign_inside; lia|].
  split; [apply slice_slice_assign_same; lia|].
  intros q Hq. apply lookup_slice_assign_inside; lia.
Qed.

(** X20. Editing a payload, saving and opening again. For a buffer that
    parses, a section whose slot lies in the buffer and that is not the
    manifest, a manifest (if any) of at least 60 bytes, and new bytes that
    fit: [set_section_data] and then [save] succeed, and the written bytes
    parse to an image in which the section has the same descriptor fields
    and, as payload, the new bytes followed by null bytes up to its size;
    the checksum is valid. *)
Theorem edit_section_save_reopen b fw j s d :
  parse b = inr fw -> sections fw !! j = Some s ->
  (N.to_nat (data_offset s + data_size s) <= length b)%nat ->
  len d <= data_size s ->
  (forall k sig, find_signinfo 0 (sections fw) = Some (k, sig) ->
                 k <> j /\ 60 <= data_size sig) ->
  exists fw1 out fw2 fw3 s3,
    set_section_data (Z.of_nat j) d fw = (inr tt, fw1) /\
    save fw1 = (inr out, fw2) /\ parse out = inr fw3 /\
    sections fw3 !! j = Some s3 /\
    data s3 = d ++ replicate (N.to_nat (data_size s - len d)) x00 /\
    descriptor_fields s3 = descriptor_fields s /\
    crc_valid fw3 = true.
Proof.
  intros Hp Hj Hin Hd Hman.
  pose proof (parse_wf _ _ Hp) as Hwf. pose proof Hwf as [_ Hlay].
  pose proof (parse_inv _ _ Hp) as (Hraw & _).
  assert (length (raw fw) = length b) as Hlr by (by rewrite Hraw).
  pose proof (laid_out_ge _ _ _ _ Hlay Hj) as Hoff. fold (table_end fw) in Hoff.
  assert (296 <= table_end fw) as Htend
    by (unfold table_end, SECT_DESC_START; lia).
  destruct (set_section_data_buffer fw j s d Hj ltac:(lia) Hd)
    as (fw1 & Hset & Hsecs1 & Hlen1 & Hslot1 & Hout1).
  set (off := data_offset s) in *. set (size := data_size s) in *.
  assert (wf fw1) as Hwf1.
  { pose proof (wf_set_section_data (Z.of_nat j) d fw Hwf) as H.
    by rewrite Hset in H. }
  assert (table_end fw1 = table_end fw) as Hte.
  { destruct (kept_set_section_data (Z.of_nat j) d fw) as [H _].
    rewrite Hset in H. cbn [snd] in H. unfold header_fields in H.
    unfold table_end. by injection H as _ _ _ -> _ _. }
  destruct (save_buffer fw1 Hwf1)
    as (out & fw2 & Hs & _ & _ & Hlen & Hcrc & _ & Hframe & _).
  (* the manifest of the edited image *)
  pose proof (find_signinfo_same (sections fw) (sections fw1) 0) as Hsame.
  lapply Hsame; [clear Hsame; intros Hsame|].
  2: { rewrite Hsecs1. eapply map_path_insert; [exact Hj|].
       by destruct (with_payload_fields s (padded d size)) as (_ & _ & _ & ? & _). }
  (* the slot of the section in the written bytes *)
  assert (slice out off (off + size) = padded d size) as Hslot.
  { rewrite <- Hslot1. apply slice_ext. intros q Hq. apply Hframe; [lia|lia|].
    destruct (find_signinfo 0 (sections fw)) as [[k sig]|] eqn:Hfind.
    - destruct Hsame as (sig' & -> & Hk' & Hk). rewrite Nat.sub_0_r in Hk, Hk'.
      destruct (Hman k sig eq_refl) as [Hkj Hsz].
      rewrite Hsecs1, list_lookup_insert_ne in Hk' by done.
      assert (sig' = sig) as -> by congruence.
      destruct (decide (k < j)%nat).
      + right. pose proof (laid_out_disjoint _ _ k j _ _ Hlay Hk Hj ltac:(lia)).
        fold off in H. lia.
      + left. pose proof (laid_out_disjoint _ _ j k _ _ Hlay Hj Hk ltac:(lia)).
        fold off size in H. lia.
    - by rewrite Hsame. }
  (* the second parse *)
  destruct (reparse b fw out Hp ltac:(lia) ltac:(lia))
    as (ids & secs & Hp2 & _ & _ & Hdf & Hm).
  { intros p Hp1 Hp2. rewrite <- Hraw, <- Hout1 by (fold off; lia).
    apply (save_keeps_table fw1 out p Hwf1); [by rewrite Hs|lia|lia|lia]. }
  assert (exists s3, secs !! j = Some s3 /\
                     descriptor_fields s3 = descriptor_fields s)
    as (s3 & Hj3 & Hd3).
  { apply (f_equal (fun l => l !! j)) in Hdf.
    change (map descriptor_fields) with (fmap (M := list) descriptor_fields) in Hdf.
    rewrite !list_lookup_fmap, Hj in Hdf.
    destruct (secs !! j) as [s3|]; [|done]. exists s3. split; [done|].
    cbn [fmap option_fmap option_map] in Hdf. congruence. }
  exists fw1, out, fw2, (parsed_image out ids secs), s3.
  split; [exact Hset|]. split; [exact Hs|]. split; [exact Hp2|].
  cbn [sections crc_valid parsed_image]. split; [exact Hj3|].
  split; [|split; [exact Hd3|rewrite Hcrc; apply N.eqb_refl]].
  eapply Forall_lookup_1 in Hm; [|exact Hj3]. rewrite Hm.
  unfold descriptor_fields in Hd3. injection Hd3 as _ _ _ -> -> _ _ _ _.
  fold off size. rewrite Hslot. by apply padded_app.
Qed.

Lemma sample_sections :
  sections sample_fw = [sample_section 0; sample_section 1; sample_section 2].
Proof. vm_compute. reflexivity. Qed.

Lemma edit_section_save_reopen_witness :
  exists fw1 out fw2 fw3 s3,
    sections sample_fw !! 1%nat = Some (sample_section 1) /\
    len [x07] <= data_size (sample_section 1) /\
    set_section_data 1 [x07] sample_fw = (inr tt, fw1) /\
    save fw1 = (inr out, fw2) /\ parse out = inr fw3 /\
    sections fw3 !! 1%nat = Some s3 /\
    data s3 = [x07; x00; x00] /\ crc_valid fw3 = true.
Proof.
  assert (sections sample_fw !! 1%nat = Some (sample_section 1)) as Hj
    by (by rewrite sample_sections).
  assert (N.to_nat (data_offset (sample_section 1) + data_size (sample_section 1))
          <= length sample_image)%nat as Hin
    by (apply Nat.leb_le; vm_compute; reflexivity).
  assert (len [x07] <= data_size (sample_section 1)) as Hd
    by (vm_compute; discriminate).
  assert (forall k sig, find_signinfo 0 (sections sample_fw) = Some (k, sig) ->
                        k <> 1%nat /\ 60 <= data_size sig) as Hman.
  { intros k sig. rewrite sample_manifest_found. intros H.
    assert (k = 2%nat) as ->.
    { apply (f_equal (fun o => from_option fst 0%nat o)) in H.
      symmetry. exact H. }
    assert (sig = sample_section 2) as ->.
    { apply (f_equal (fun o => from_option snd empty_section o)) in H.
      symmetry. exact H. }
    split; [lia|]. vm_compute. discriminate. }
  destruct (edit_section_save_reopen sample_image sample_fw 1 _ [x07]
              sample_parsed Hj Hin Hd Hman)
    as (fw1 & out & fw2 & fw3 & s3 & E1 & E2 & E3 & E4 & E5 & _ & E6).
  exists fw1, out, fw2, fw3, s3.
  split; [exact Hj|]. split; [exact Hd|]. split; [exact E1|].
  split; [exact E2|]. split; [exact E3|]. split; [exact E4|].
  split; [|exact E6]. rewrite E5. vm_compute. reflexivity.
Defined.

(** ** The section objects and the buffer *)

(** After parsing, every payload is the slot of its section. *)
Lemma parse_mirrored b fw : parse b = inr fw -> mirrored fw.
Proof.
  intros Hp. pose proof (parse_inv _ _ Hp) as (Hraw & _ & _ & _ & _ & _ & _ & _ & _ & Hs).
  apply Forall_forall. intros s Hin.
  destruct (parse_sections_elem _ _ _ _ _ _ Hs Hin) as (j & off & Hj).
  apply parse_section_fields in Hj as (_ & -> & _ & _ & Hdata & _).
  by rewrite Hraw.
Qed.

Lemma sound_manifest_same fw fw' :
  map metadata (sections fw') = map metadata (sections fw) ->
  sound_manifest fw -> sound_manifest fw'.
Proof.
  intros Hm Hs k sig' Hfind.
  assert (map path (sections fw) = map path (sections fw')) as Hp.
  { apply (f_equal (map (fun m : N * N * N * N * N * str * str * str * bytes
                                 * content => m.1.1.1.1.2))) in Hm.
    rewrite !map_map in Hm. symmetry. exact Hm. }
  pose proof (find_signinfo_same (sections fw') (sections fw) 0 Hp) as H.
  rewrite Hfind in H. destruct H as (sig & Hf & Hk & Hk').
  rewrite Nat.sub_0_r in Hk, Hk'.
  apply (f_equal (fun l => l !! k)) in Hm.
  change (map metadata) with (fmap (M := list) metadata) in Hm.
  rewrite !list_lookup_fmap, Hk, Hk' in Hm.
  cbn [fmap option_fmap option_map] in Hm.
  assert (data_size sig' = data_size sig) as ->.
  { unfold metadata, descriptor_fields in Hm. by injection Hm. }
  by eapply Hs.
Qed.

Lemma whole_same fw fw' :
  header_fields fw' = header_fields fw ->
  map metadata (sections fw') = map metadata (sections fw) ->
  length (raw fw') = length (raw fw) ->
  whole fw -> whole fw'.
Proof.
  intros Hh Hm Hl [Ht Hs]. split.
  - unfold table_end. unfold header_fields in Hh.
    injection Hh as _ _ _ -> _ _. by rewrite Hl.
  - rewrite Hl. apply Forall_lookup. intros i s' Hi.
    apply (f_equal (fun l => l !! i)) in Hm.
    change (map metadata) with (fmap (M := list) metadata) in Hm.
    rewrite !list_lookup_fmap, Hi in Hm.
    destruct (sections fw !! i) as [s|] eqn:Hi0; [|done].
    cbn [fmap option_fmap option_map] in Hm.
    eapply Forall_lookup_1 in Hs; [|exact Hi0].
    unfold metadata, descriptor_fields in Hm.
    injection Hm as _ _ _ -> -> _ _ _ _ _. exact Hs.
Qed.

(** A buffer that keeps the slot of every section keeps the mirror. *)
Lemma mirrored_same_slots fw (r : bytes) l :
  mirrored fw ->
  Forall2 (fun s s' =>
    data_offset s' = data_offset s /\ data_size s' = data_size s /\
    data s' = slice r (data_offset s) (data_offset s + data_size s)
    \/ s' = s /\
       slice r (data_offset s) (data_offset s + data_size s)
       = slice (raw fw) (data_offset s) (data_offset s + data_size s))
    (sections fw) l ->
  Forall (fun s => data s = slice r (data_offset s)
                              (data_offset s + data_size s)) l.
Proof.
  unfold mirrored. generalize (sections fw). intros l0 Hm H.
  induction H as [|s s' l0 l Hs _ IH]; [constructor|].
  apply Forall_cons in Hm as [Hm0 Hm]. constructor; [|by apply IH].
  destruct Hs as [(-> & -> & ->)|[-> Hr]]; [done|]. by rewrite Hr.
Qed.

Lemma Forall2_insert_same {A} (R : A -> A -> Prop) (l : list A) k x x' :
  l !! k = Some x -> R x x' -> (forall i y, i <> k -> l !! i = Some y -> R y y) ->
  Forall2 R l (<[k := x']> l).
Proof.
  intros Hk Hx Hother. apply Forall2_same_length_lookup.
  split; [by rewrite length_insert|].
  intros i y y' Hy Hy'. destruct (decide (i = k)) as [->|Hne].
  - rewrite list_lookup_insert_eq in Hy' by (by eapply lookup_lt_Some).
    congruence.
  - rewrite list_lookup_insert_ne in Hy' by done.
    assert (y' = y) as -> by congruence. by eapply Hother.
Qed.

Lemma Forall2_same {A} (R : A -> A -> Prop) (l : list A) :
  (forall i y, l !! i = Some y -> R y y) -> Forall2 R l l.
Proof.
  intros H. apply Forall2_same_length_lookup. split; [done|].
  intros i y y' Hy Hy'. assert (y' = y) as -> by congruence. by eapply H.
Qed.

Lemma coherent_set_product_ids ids fw :
  coherent fw -> coherent (snd (set_product_ids ids fw)).
Proof.
  intros (Hwf & Hwhole & Hmir & Hsound).
  pose proof (wf_set_product_ids ids fw Hwf) as Hwf'.
  destruct (kept_set_product_ids ids fw) as [Hh Hs].
  pose proof Hwhole as [Ht _]. pose proof Hwf as [_ Hlay].
  assert (296 <= N.to_nat (table_end fw))%nat as Htend
    by (unfold table_end, SECT_DESC_START; lia).
  destruct (set_product_ids ids fw) as [[e|[]] fw'] eqn:E; cbn [snd] in *.
  { rewrite set_product_ids_eq in E.
    destruct (encode_ascii _) as [e'|pid]; [by injection E as _ <-|].
    destruct (PID_MAX_LEN <? len pid); [by injection E as _ <-|done]. }
  rewrite set_product_ids_eq in E.
  destruct (encode_ascii _) as [e'|pid]; [done|].
  destruct (PID_MAX_LEN <? len pid) eqn:Efit; [done|].
  apply N.ltb_ge in Efit. cbv zeta in E.
  apply (f_equal snd) in E. cbn [snd] in E.
  change PID_OFFSET with 36 in *. change (36 + PID_MAX_LEN) with 296 in *.
  change PID_MAX_LEN with 260 in *. unfold len in Efit.
  set (raw1 := slice_assign (raw fw) 36 296 (replicate (N.to_nat 260) x00)) in *.
  set (raw2 := slice_assign raw1 36 (36 + len pid) pid) in *.
  assert (length raw1 = length (raw fw)) as Hlen1.
  { apply length_slice_assign_inside; [lia..|rewrite length_replicate; lia]. }
  assert (length raw2 = length (raw fw)) as Hlen2.
  { rewrite <- Hlen1. apply length_slice_assign_inside; unfold len; lia. }
  assert (forall p, (296 <= p)%nat -> raw2 !! p = raw fw !! p) as Hout2.
  { intros p Hp'. unfold raw2.
    rewrite lookup_slice_assign_inside; unfold len; try lia.
    apply lookup_slice_assign_inside; [lia..|rewrite length_replicate; lia|lia]. }
  assert (raw fw' = raw2) as Hraw' by (by rewrite <- E).
  split; [done|]. split; [|split].
  - apply (whole_same fw); [done|by rewrite Hs|by rewrite Hraw'|done].
  - unfold mirrored. rewrite Hraw', Hs.
    apply (mirrored_same_slots fw raw2); [done|].
    apply Forall2_same. intros i s Hi. right. split; [done|].
    apply slice_ext. intros q Hq. apply Hout2.
    pose proof (laid_out_ge _ _ _ _ Hlay Hi). unfold table_end in Htend. lia.
  - apply (sound_manifest_same fw); [by rewrite Hs|done].
Qed.

Lemma coherent_set_section_data idx d fw :
  coherent fw -> coherent (snd (set_section_data idx d fw)).
Proof.
  intros (Hwf & Hwhole & Hmir & Hsound).
  pose proof (wf_set_section_data idx d fw Hwf) as Hwf'.
  pose proof Hwhole as [Ht Hslots]. pose proof Hwf as [_ Hlay].
  rewrite set_section_data_eq in *.
  destruct (py_index (sections fw) idx) as [e|k]; [done|].
  destruct (sections fw !! k) as [s|] eqn:Hk; [|done].
  destruct (data_size s <? len d) eqn:E; [done|].
  apply N.ltb_ge in E. cbv zeta in *. cbn [snd] in *.
  set (pd := padded d (data_size s)) in *.
  pose proof (length_padded d (data_size s) E) as Hpl. fold pd in Hpl.
  pose proof (Forall_lookup_1 _ _ _ _ Hslots Hk) as Hin. cbv beta in Hin.
  set (raw1 := slice_assign (raw fw) (data_offset s)
                 (data_offset s + data_size s) pd) in *.
  assert (length raw1 = length (raw fw)) as Hlen1
    by (apply length_slice_assign_inside; lia).
  assert (map metadata (<[k := with_payload s pd]> (sections fw))
          = map metadata (sections fw)) as Hmeta.
  { eapply map_metadata_insert; [exact Hk|]. apply metadata_with_payload. }
  destruct (with_payload_fields s pd) as (Ho & Hs & Hd & _).
  split; [done|]. split; [|split].
  - by apply (whole_same fw).
  - unfold mirrored. cbn [raw sections set_sections set_raw].
    apply (mirrored_same_slots fw raw1); [done|].
    eapply Forall2_insert_same; [exact Hk| |].
    + left. split; [done|]. split; [done|]. rewrite Hd. symmetry.
      apply slice_slice_assign_same; lia.
    + intros i y Hi Hy. right. split; [done|].
      apply slice_ext. intros q Hq. apply lookup_slice_assign_inside; [lia..|].
      destruct (decide (i < k)%nat).
      * left. pose proof (laid_out_disjoint _ _ i k _ _ Hlay Hy Hk ltac:(lia)). lia.
      * right. pose proof (laid_out_disjoint _ _ k i _ _ Hlay Hk Hy ltac:(lia)). lia.
  - by apply (sound_manifest_same fw).
Qed.

Lemma coherent_save fw : coherent fw -> coherent (snd (save fw)).
Proof.
  intros (Hwf & Hwhole & Hmir & Hsound).
  pose proof (wf_save fw Hwf) as Hwf'.
  pose proof Hwhole as [Ht Hslots]. pose proof Hwf as [Hlen12 Hlay].
  destruct (kept_save fw) as [Hh _].
  assert (296 <= N.to_nat (table_end fw))%nat as Htend
    by (unfold table_end, SECT_DESC_START; lia).
  destruct (save_buffer fw Hwf)
    as (out & fw' & Hs & Hraw' & Hsecs & _ & _ & _ & Hframe & Hlen).
  rewrite Hs in *. cbn [snd] in *.
  destruct (find_signinfo 0 (sections fw)) as [[k sig]|] eqn:Hfind.
  - pose proof (Hsound k sig Hfind) as Hsz.
    pose proof Hfind as (_ & Hk & _)%find_signinfo_lookup.
    rewrite Nat.sub_0_r in Hk.
    pose proof (Forall_lookup_1 _ _ _ _ Hslots Hk) as Hin. cbv beta in Hin.
    specialize (Hlen ltac:(lia)).
    destruct (fix_signinfo_buffer fw k sig Hfind) as (patched & Hfix & Hpl & _).
    rewrite Hfix in Hsecs. cbn [snd sections set_sections set_raw] in Hsecs.
    assert (forall q, (12 <= q)%nat -> out !! q = patched !! q) as Hcrc.
    { intros q Hq. rewrite save_eq, Hfix in Hs.
      rewrite recalculate_crc_eq in Hs
        by (cbn [raw set_sections set_raw]; rewrite Hpl; unfold zeroed;
            etrans; [|apply length_slice_assign_ge; rewrite length_replicate; lia];
            lia).
      cbv zeta in Hs. cbn [raw set_sections set_raw] in Hs.
      apply (f_equal fst) in Hs. cbn [fst] in Hs. injection Hs as <-.
      apply lookup_slice_assign_inside;
        [lia| |by rewrite length_pack_le32|lia].
      rewrite Hpl. unfold zeroed.
      etrans; [|apply length_slice_assign_ge; rewrite length_replicate; lia].
      lia. }
    assert (map metadata (sections fw') = map metadata (sections fw)) as Hmeta.
    { rewrite Hsecs. by eapply map_metadata_insert. }
    split; [done|]. split; [|split].
    + apply (whole_same fw); [done|done|by rewrite Hraw'|done].
    + unfold mirrored. rewrite Hraw', Hsecs.
      apply (mirrored_same_slots fw out); [done|].
      eapply Forall2_insert_same; [exact Hk| |].
      * left. split; [done|]. split; [done|]. cbn [data set_data].
        apply slice_ext. intros q Hq. symmetry. apply Hcrc.
        pose proof (laid_out_ge _ _ _ _ Hlay Hk). unfold table_end in Htend. lia.
      * intros i y Hi Hy. right. split; [done|].
        apply slice_ext. intros q Hq.
        pose proof (Forall_lookup_1 _ _ _ _ Hslots Hy) as Hiny. cbv beta in Hiny.
        pose proof (laid_out_ge _ _ _ _ Hlay Hy). unfold table_end in Htend.
        apply Hframe; [lia|lia|].
        destruct (decide (i < k)%nat).
        -- left. pose proof (laid_out_disjoint _ _ i k _ _ Hlay Hy Hk ltac:(lia)). lia.
        -- right. pose proof (laid_out_disjoint _ _ k i _ _ Hlay Hk Hy ltac:(lia)). lia.
    + by apply (sound_manifest_same fw).
  - specialize (Hlen I).
    pose proof (fix_signinfo_eq fw) as Hfix. rewrite Hfind in Hfix.
    rewrite Hfix in Hsecs. cbn [snd] in Hsecs.
    split; [done|]. split; [|split].
    + apply (whole_same fw); [done|by rewrite Hsecs|by rewrite Hraw'|done].
    + unfold mirrored. rewrite Hraw', Hsecs.
      apply (mirrored_same_slots fw out); [done|].
      apply Forall2_same. intros i s Hi. right. split; [done|].
      apply slice_ext. intros q Hq.
      pose proof (Forall_lookup_1 _ _ _ _ Hslots Hi) as Hiny. cbv beta in Hiny.
      pose proof (laid_out_ge _ _ _ _ Hlay Hi). unfold table_end in Htend.
      apply Hframe; [lia|lia|done].
    + apply (sound_manifest_same fw); [by rewrite Hsecs|done].
Qed.

(** X21. The section objects mirror the buffer. Take an image in which the
    buffer holds the descriptor table and every slot, every payload is the
    slot of its section in the buffer, and the manifest (if any) has at
    least 60 bytes; a parsed image whose file is complete is one.  Every
    method, returning or raising, leads to such an image again: the length
    of the buffer, the layout and the agreement between payloads and buffer
    are kept. *)
Theorem coherent_kept fw :
  coherent fw ->
  (forall ids, coherent (snd (set_product_ids ids fw))) /\
  (forall idx d, coherent (snd (set_section_data idx d fw))) /\
  coherent (snd (save fw)).
Proof.
  intros H. split; [|split].
  - intros ids. by apply coherent_set_product_ids.
  - intros idx d. by apply coherent_set_section_data.
  - by apply coherent_save.
Qed.

Lemma coherent_kept_witness :
  coherent sample_fw /\
  (forall ids, coherent (snd (set_product_ids ids sample_fw))) /\
  (forall idx d, coherent (snd (set_section_data idx d sample_fw))) /\
  coherent (snd (save sample_fw)).
Proof.
  assert (coherent sample_fw) as H.
  { split; [exact (reachable_wf _ sample_reachable)|]. split; [|split].
    - split; [apply Nat.leb_le; vm_compute; reflexivity|].
      rewrite sample_sections.
      do 3 (constructor; [apply Nat.leb_le; vm_compute; reflexivity|]).
      constructor.
    - exact (parse_mirrored _ _ sample_parsed).
    - intros k sig. rewrite sample_manifest_found. intros Hf.
      assert (sig = sample_section 2) as ->.
      { apply (f_equal (fun o => from_option snd empty_section o)) in Hf.
        symmetry. exact Hf. }
      vm_compute. discriminate. }
  split; [exact H|]. exact (coherent_kept sample_fw H).
Defined.

(** ** The text of a section after its payload is replaced *)

(** X22. When [set_section_data] returns, the content type of the section
    is what it was.  For a section of type [xml], [shell] or [text] whose
    new bytes are valid UTF-8, the text becomes the decoded new bytes
    followed by one null character for every byte of padding; when the new
    bytes are not valid UTF-8, and for a [flag] or [binary] section, the
    text stays what it was, so it no longer shows the payload. *)
Theorem set_section_data_text fw idx section d :
  (0 <= idx)%Z -> sections fw !! Z.to_nat idx = Some section ->
  len d <= data_size section ->
  exists fw' s',
    set_section_data idx d fw = (inr tt, fw') /\
    sections fw' !! Z.to_nat idx = Some s' /\
    content_type s' = content_type section /\
    text_content s' =
      if text_like (content_type section)
      then match decode_utf8 d with
           | Some t =>
               Some (t ++ replicate (N.to_nat (data_size section - len d)) 0)
           | None => text_content section
           end
      else text_content section.
Proof.
  intros Hidx Hk Hlen. rewrite set_section_data_eq.
  rewrite (py_index_nonneg _ _ _ Hidx Hk), Hk.
  destruct (data_size section <? len d) eqn:E.
  { apply N.ltb_lt in E. lia. }
  cbv zeta.
  eexists _, (with_payload section (padded d (data_size section))).
  split; [reflexivity|]. cbn [sections set_sections set_raw].
  split; [apply list_lookup_insert_eq; by eapply lookup_lt_Some|].
  split; [by destruct (with_payload_fields section
                         (padded d (data_size section))) as (_ & _ & _ & _ & ?)|].
  unfold with_payload. cbv zeta. cbn [content_type set_data].
  destruct (text_like (content_type section)); [|done].
  rewrite padded_app by done. rewrite decode_utf8_app_zeros.
  by destruct (decode_utf8 d).
Qed.

Lemma set_section_data_text_witness :
  exists fw' s',
    sections sample_fw !! Z.to_nat 2 = Some (sample_section 2) /\
    len (blit "hi") <= data_size (sample_section 2) /\
    set_section_data 2 (blit "hi") sample_fw = (inr tt, fw') /\
    sections fw' !! Z.to_nat 2 = Some s' /\
    content_type s' = Text /\
    text_content s' = Some (lit "hi" ++ replicate 285 0).
Proof.
  assert (sections sample_fw !! Z.to_nat 2 = Some (sample_section 2)) as Hk
    by (by rewrite sample_sections).
  assert (len (blit "hi") <= data_size (sample_section 2)) as Hd
    by (vm_compute; discriminate).
  destruct (set_section_data_text sample_fw 2 _ (blit "hi") ltac:(lia) Hk Hd)
    as (fw' & s' & H1 & H2 & H3 & H4).
  exists fw', s'. split; [exact Hk|]. split; [exact Hd|]. split; [exact H1|].
  split; [exact H2|]. split.
  - rewrite H3. vm_compute. reflexivity.
  - rewrite H4. vm_compute. reflexivity.
Defined.

(** ** Hex dump *)

Lemma hex_upper_digit d :
  d < 16 -> hex_digit_value (hex_upper d) = d /\ 48 <= hex_upper d <= 70.
Proof.
  intros Hd. unfold hex_digit_value, hex_upper.
  destruct (d <? 10) eqn:E.
  - apply N.ltb_lt in E.
    destruct (48 + d <? 58) eqn:E'; [lia|apply N.ltb_ge in E'; lia].
  - apply N.ltb_ge in E.
    destruct (55 + d <? 58) eqn:E'; [apply N.ltb_lt in E'; lia|lia].
Qed.

Lemma hex_value_snoc s c :
  hex_value (s ++ [c]) = 16 * hex_value s + hex_digit_value c.
Proof. unfold hex_value. by rewrite fold_left_app. Qed.

Lemma hex_value_zeros m s : hex_value (replicate m 48 ++ s) = hex_value s.
Proof.
  unfold hex_value. rewrite fold_left_app. f_equal.
  induction m as [|m IH]; [done|]. cbn [replicate fold_left]. exact IH.
Qed.

Lemma hex_digits_S f n acc :
  hex_digits (S f) n acc
  = if n / 16 =? 0 then hex_upper (n mod 16) :: acc
    else hex_digits f (n / 16) (hex_upper (n mod 16) :: acc).
Proof. reflexivity. Qed.

(** With enough fuel [hex_digits] gives the numeral of [n]: it has the
    value [n] and no leading zero. *)
Lemma hex_digits_spec f n acc :
  n < 16 ^ N.of_nat (S f) ->
  exists ds,
    hex_digits (S f) n acc = ds ++ acc /\ hex_value ds = n /\
    (1 <= length ds)%nat /\
    (length ds = 1%nat \/ 16 ^ N.of_nat (length ds - 1) <= n) /\
    Forall (fun c => 48 <= c <= 70) ds.
Proof.
  revert n acc. induction f as [|f IH]; intros n acc Hn.
  - change (16 ^ N.of_nat 1) with 16 in Hn.
    exists [hex_upper (n mod 16)]. cbn [hex_digits].
    rewrite (N.div_small n 16) by lia. cbn [N.eqb app].
    rewrite N.mod_small by lia.
    destruct (hex_upper_digit n Hn) as [Hv Hr].
    split; [done|]. split; [unfold hex_value; cbn; lia|].
    split; [cbn; lia|]. split; [by left|]. by constructor.
  - rewrite hex_digits_S.
    assert (n mod 16 < 16) as Hm by (apply N.mod_upper_bound; lia).
    destruct (hex_upper_digit _ Hm) as [Hv Hr].
    destruct (n / 16 =? 0) eqn:E.
    + apply N.eqb_eq in E. exists [hex_upper (n mod 16)].
      split; [done|].
      split.
      { unfold hex_value. cbn [fold_left]. rewrite Hv.
        pose proof (N.div_mod n 16 ltac:(lia)). lia. }
      split; [cbn; lia|]. split; [by left|]. by constructor.
    + apply N.eqb_neq in E.
      assert (n / 16 < 16 ^ N.of_nat (S f)) as Hq.
      { apply N.Div0.div_lt_upper_bound.
        replace (N.of_nat (S (S f))) with (N.succ (N.of_nat (S f))) in Hn by lia.
        by rewrite N.pow_succ_r' in Hn. }
      destruct (IH (n / 16) (hex_upper (n mod 16) :: acc) Hq)
        as (ds & Hds & Hval & Hlen & Hlead & Hall).
      exists (ds ++ [hex_upper (n mod 16)]).
      split; [by rewrite Hds, <- app_assoc|].
      split.
      { rewrite hex_value_snoc, Hval, Hv.
        pose proof (N.div_mod n 16 ltac:(lia)). lia. }
      rewrite length_app. cbn [length].
      split; [lia|]. split.
      * right. replace (length ds + 1 - 1)%nat with (length ds) by lia.
        pose proof (N.div_mod n 16 ltac:(lia)) as Hdm.
        destruct Hlead as [H1|Hge].
        -- rewrite H1. change (16 ^ N.of_nat 1) with 16. lia.
        -- replace (N.of_nat (length ds))
             with (N.succ (N.of_nat (length ds - 1))) by lia.
           rewrite N.pow_succ_r'. lia.
      * apply Forall_app. split; [done|]. by constructor.
Qed.

Lemma fmt_X_spec n :
  hex_value (fmt_X n) = n /\ (1 <= length (fmt_X n))%nat /\
  (length (fmt_X n) = 1%nat \/ 16 ^ N.of_nat (length (fmt_X n) - 1) <= n).
Proof.
  assert (n < 16 ^ N.of_nat (S (N.to_nat (N.log2 n)))) as Hn.
  { replace (N.of_nat (S (N.to_nat (N.log2 n)))) with (N.succ (N.log2 n))
      by lia.
    destruct (N.eq_dec n 0) as [->|Hn0]; [done|].
    pose proof (N.log2_spec n ltac:(lia)) as [_ Hlt].
    eapply N.lt_le_trans; [exact Hlt|].
    apply N.pow_le_mono_l. lia. }
  destruct (hex_digits_spec _ n [] Hn) as (ds & Hds & Hv & Hl & Hlead & _).
  unfold fmt_X. rewrite Hds, app_nil_r. done.
Qed.

(** Below [2^32] the address has exactly 8 characters and reads back. *)
Lemma fmt_08X_spec n :
  n < 2 ^ 32 -> length (fmt_08X n) = 8%nat /\ hex_value (fmt_08X n) = n.
Proof.
  intros Hn. destruct (fmt_X_spec n) as (Hv & Hl & Hlead).
  unfold fmt_08X. rewrite hex_value_zeros, length_app, length_replicate.
  split; [|done].
  assert (length (fmt_X n) <= 8)%nat; [|lia].
  destruct Hlead as [->|Hge]; [lia|].
  assert (N.of_nat (length (fmt_X n) - 1) < 8); [|lia].
  apply (N.pow_lt_mono_r_iff 16); [lia|].
  eapply N.le_lt_trans; [exact Hge|]. exact Hn.
Qed.

(** The hexadecimal column: byte [j] of the chunk stands at 3j and 3j+1. *)
Lemma length_hex_part (c : bytes) :
  length (join (lit " ") (map fmt_02X c)) = (3 * length c - 1)%nat.
Proof.
  induction c as [|b c IH]; [done|].
  destruct c as [|b' c]; [done|].
  change (join (lit " ") (map fmt_02X (b :: b' :: c)))
    with (fmt_02X b ++ lit " " ++ join (lit " ") (map fmt_02X (b' :: c))).
  rewrite !length_app, IH. cbn [length fmt_02X lit map]. cbn. lia.
Qed.



Lemma length_ljust w s : (length s <= w)%nat -> length (ljust w s) = w.
Proof. intros H. unfold ljust. rewrite length_app, length_replicate. lia. Qed.

(** ** The lines of the dump *)

Lemma hex_rows_lookup data shown n i k :
  (k < n)%nat ->
  hex_rows data shown n i !! k = Some (hex_row data shown (i + 16 * N.of_nat k)).
Proof.
  revert i k. induction n as [|n IH]; intros i k Hk; [lia|].
  destruct k as [|k]; cbn [hex_rows lookup list_lookup].
  - by rewrite N.add_0_r.
  - change (hex_rows data shown n (i + 16) !! k
            = Some (hex_row data shown (i + 16 * N.of_nat (S k)))).
    rewrite IH by lia. do 2 f_equal. lia.
Qed.

Lemma length_hex_rows data shown n i : length (hex_rows data shown n i) = n.
Proof. revert i. induction n as [|n IH]; intros i; cbn; [done|by rewrite IH]. Qed.

Lemma dumped_le data max_bytes : dumped data max_bytes <= len data.
Proof. unfold dumped. lia. Qed.

Lemma hex_dump_lines_row data max_bytes k :
  16 * N.of_nat k < dumped data max_bytes ->
  hex_dump_lines data max_bytes !! k
  = Some (hex_row data (dumped data max_bytes) (16 * N.of_nat k)).
Proof.
  intros Hk. unfold dumped in *. unfold hex_dump_lines. cbv zeta.
  set (shown := Z.min (Z.of_N (len data)) max_bytes) in *.
  assert (k < Z.to_nat ((shown + 15) / 16))%nat as Hrows.
  { assert (Z.of_nat k + 1 <= (shown + 15) / 16)%Z; [|lia].
    apply Z.div_le_lower_bound; lia. }
  pose proof (hex_rows_lookup data (Z.to_N shown) _ 0 k Hrows) as Hrow.
  rewrite N.add_0_l in Hrow.
  destruct (max_bytes <? Z.of_N (len data))%Z; [|exact Hrow].
  rewrite lookup_app_l by (by rewrite length_hex_rows). exact Hrow.
Qed.

Lemma length_chunk data max_bytes k :
  16 * N.of_nat k < dumped data max_bytes ->
  length (slice data (16 * N.of_nat k)
            (N.min (16 * N.of_nat k + 16) (dumped data max_bytes)))
  = N.to_nat (N.min 16 (dumped data max_bytes - 16 * N.of_nat k)).
Proof.
  intros Hk. pose proof (dumped_le data max_bytes) as Hle. unfold len in Hle.
  rewrite length_slice_full by lia. lia.
Qed.

Lemma ascii_char_printable b : 0x20 <= ascii_char b <= 0x7E.
Proof.
  unfold ascii_char.
  destruct (0x20 <=? Byte.to_N b) eqn:E1; [|cbn; lia].
  destruct (Byte.to_N b <? 0x7F) eqn:E2; [|cbn; lia].
  apply N.leb_le in E1. apply N.ltb_lt in E2. cbn [andb]. lia.
Qed.

Lemma ascii_char_same b :
  0x20 <= Byte.to_N b <= 0x7E -> ascii_char b = Byte.to_N b.
Proof.
  intros [H1 H2]. unfold ascii_char.
  apply N.leb_le in H1 as ->.
  assert ((Byte.to_N b <? 0x7F) = true) as H by (apply N.ltb_lt; lia).
  by rewrite H.
Qed.

(** X23. The layout of a line of the dump.  For every row that starts
    below the number of bytes shown, when no more than [2^32] bytes are
    shown: the line is an address of exactly 8 characters, two spaces, a
    hexadecimal column of exactly 48 characters, two spaces, and one
    character for every byte of the row; the row has 16 bytes unless it is
    the last one, and at least one; every character of the last column is
    printable ASCII, a byte between 0x20 and 0x7E being shown as itself. *)
Theorem hex_dump_row_layout data max_bytes k :
  16 * N.of_nat k < dumped data max_bytes -> dumped data max_bytes <= 2 ^ 32 ->
  exists addr hex chunk,
    hex_dump_lines data max_bytes !! k
    = Some (addr ++ lit "  " ++ hex ++ lit "  " ++ map ascii_char chunk) /\
    chunk = slice data (16 * N.of_nat k)
              (N.min (16 * N.of_nat k + 16) (dumped data max_bytes)) /\
    length addr = 8%nat /\ length hex = 48%nat /\
    length chunk
    = N.to_nat (N.min 16 (dumped data max_bytes - 16 * N.of_nat k)) /\
    Forall (fun c => 0x20 <= c <= 0x7E) (map ascii_char chunk) /\
    (forall j b, chunk !! j = Some b -> 0x20 <= Byte.to_N b <= 0x7E ->
                 map ascii_char chunk !! j = Some (Byte.to_N b)).
Proof.
  intros Hk Hmax.
  pose proof (length_chunk data max_bytes k Hk) as Hlen.
  set (chunk := slice data (16 * N.of_nat k)
                  (N.min (16 * N.of_nat k + 16) (dumped data max_bytes))) in *.
  exists (fmt_08X (16 * N.of_nat k)),
         (ljust 48 (join (lit " ") (map fmt_02X chunk))), chunk.
  split; [by rewrite hex_dump_lines_row|]. split; [done|].
  split; [apply fmt_08X_spec; lia|].
  split; [apply length_ljust; rewrite length_hex_part; lia|].
  split; [exact Hlen|]. split.
  - apply Forall_forall. intros c (b & -> & _)%list_elem_of_fmap.
    apply ascii_char_printable.
  - intros j b Hj Hb.
    change (map ascii_char) with (fmap (M := list) ascii_char).
    by rewrite list_lookup_fmap, Hj, <- (ascii_char_same b Hb).
Qed.

Lemma hex_dump_row_layout_witness :
  exists addr hex chunk,
    16 * N.of_nat 1 < dumped dump_data 20 /\
    hex_dump_lines dump_data 20 !! 1%nat
    = Some (addr ++ lit "  " ++ hex ++ lit "  " ++ map ascii_char chunk) /\
    chunk = blit "k; e" /\
    length addr = 8%nat /\ length hex = 48%nat.
Proof.
  assert (16 * N.of_nat 1 < dumped dump_data 20) as Hk by (vm_compute; done).
  assert (dumped dump_data 20 <= 2 ^ 32) as Hmax by (vm_compute; discriminate).
  destruct (hex_dump_row_layout dump_data 20 1 Hk Hmax)
    as (addr & hex & chunk & H1 & H2 & H3 & H4 & _).
  exists addr, hex, chunk.
  split; [exact Hk|]. split; [exact H1|].
  split; [rewrite H2; vm_compute; reflexivity|]. split; [exact H3|exact H4].
Defined.



(** ** The dump as a text *)













